(** * vite-plugin-deploy-s3: the incremental sync pass of [src/main.ts]

    A shallow embedding of the plugin's [writeBundle] hook, of the [Client]
    wrapper around the S3 SDK and of the helpers they use, followed by the
    properties of the synchronisation pass.

    Conventions.
    - A JS string is a [string]; a [Uint8Array]/[Buffer] is a [list byte].
    - What [JSON.parse] returns is a [Json] value; the pass reads it the way
      JS reads properties, prototypes included (see [lookup]).  The object
      the pass builds for the new manifest is a [gmap string _].
    - [async] code is sequential: every call is awaited before the next
      statement runs, so a pass is a computation in a state-and-exception
      monad over the [World] (the bucket, the faults of the transport, and
      the trace of everything the pass asked of the outside). *)

From Stdlib.Strings Require Import String Ascii Byte.
From Stdlib Require Import ZArith Lia.
From stdpp Require Import base option list strings gmap fin_maps pretty.

Set Default Proof Using "Type".
Local Open Scope string_scope.
Local Open Scope list_scope.
Local Open Scope stdpp_scope.

(** ** Strings of the host language *)

Module JS.

(** [s.startsWith(p)] *)
Definition startsWith (s p : string) : bool := String.prefix p s.

(** [s.endsWith(suf)]: some suffix of [s] is [suf]. *)
Fixpoint endsWith (s suf : string) : bool :=
  if String.eqb s suf then true
  else match s with
       | EmptyString => false
       | String _ s' => endsWith s' suf
       end.

(** The first [n] characters of [s]. *)
Fixpoint take (n : nat) (s : string) : string :=
  match n, s with
  | S n', String c s' => String c (take n' s')
  | _, _ => EmptyString
  end.

(** [s.slice(0, -n)]: [s] without its last [n] characters (empty when [s]
    is shorter than [n]). *)
Definition slice_0_neg (s : string) (n : nat) : string :=
  take (String.length s - n) s.

(** Whether [s] contains a [/]. *)
Fixpoint has_slash (s : string) : bool :=
  match s with
  | EmptyString => false
  | String c s' => Ascii.eqb c "/" || has_slash s'
  end.

(** JS truthiness of a string: the empty string is falsy. *)
Definition truthy (s : string) : bool := negb (String.eqb s "").

End JS.

(** ** [node:path] (POSIX flavour) and Vite's [normalizePath] *)

Module Path.

(** The text after the last [/] of [p] ([acc] is what was read since the
    last separator). *)
Fixpoint last_segment_from (acc p : string) : string :=
  match p with
  | EmptyString => acc
  | String c p' =>
      if Ascii.eqb c "/" then last_segment_from "" p'
      else last_segment_from (acc +:+ String c "") p'
  end.

Definition basename (p : string) : string := last_segment_from "" p.

(** The suffix of [s] starting at its last dot, if it has one. *)
Fixpoint from_last_dot (s : string) : option string :=
  match s with
  | EmptyString => None
  | String c s' =>
      match from_last_dot s' with
      | Some e => Some e
      | None => if Ascii.eqb c "." then Some s else None
      end
  end.

(** [extname(p)] for a path that names a file (no trailing separator): from
    the last dot of the last segment to its end; empty when there is no
    dot, when the only dot is the first character of the segment, or when
    the segment is [".."]. *)
Definition extname (p : string) : string :=
  let b := basename p in
  match from_last_dot b with
  | None => ""
  | Some e =>
      if String.eqb e b then ""
      else if String.eqb b ".." then ""
      else e
  end.

(** Removes the prefix [p] from [s], if [s] starts with it. *)
Fixpoint strip_prefix (p s : string) : option string :=
  match p, s with
  | EmptyString, _ => Some s
  | String a p', String b s' =>
      if Ascii.eqb a b then strip_prefix p' s' else None
  | String _ _, EmptyString => None
  end.

(** [relative(from, to)] when [to] lies below the directory [from] (the
    only use the plugin makes of it: [to] is a path reported by the glob
    rooted at [from]); other pairs are left as they are. *)
Definition relative (from to : string) : string :=
  match strip_prefix (from +:+ "/") to with
  | Some r => r
  | None => to
  end.

(** Vite's [normalizePath] on a POSIX host is [path.posix.normalize]; the
    relative paths the glob yields are already in normal form. *)
Definition normalizePath (p : string) : string := p.

End Path.

(** ** Options ([S3Options], [DeployOptions]) *)

Record S3Options := {
  bucket : string;
  region : string;
  accessKeyId : string;
  secretAccessKey : string;
  endpoint : string;
  prefix : string
}.

(** [Pick<ZlibOptions, 'level' | 'memLevel' | 'strategy'>] *)
Record ZlibOptions := {
  level : option Z;
  memLevel : option Z;
  strategy : option Z
}.

(** [boolean | Pick<ZlibOptions, ...>] *)
Inductive GzipOption :=
| GzipBool (b : bool)
| GzipParams (o : ZlibOptions).

Record TagPair := { key : string; value : string }.

(** [string | { key: string, value: string }] *)
Inductive DeleteUseTagOption :=
| TagString (s : string)
| TagObject (t : TagPair).

Record DeployOptions := {
  s3 : S3Options;
  cleanHtmlSuffix : option bool;
  deleteUseTag : option DeleteUseTagOption;
  gzip : option GzipOption
}.

(** Truthiness of the optional settings. *)
Definition cleanHtmlSuffix_on (o : DeployOptions) : bool :=
  match cleanHtmlSuffix o with Some true => true | _ => false end.

Definition gzip_on (o : DeployOptions) : bool :=
  match gzip o with
  | Some (GzipBool true) | Some (GzipParams _) => true
  | _ => false
  end.

(** [typeof options.gzip === 'object' ? options.gzip : undefined] *)
Definition gzip_params (o : DeployOptions) : option ZlibOptions :=
  match gzip o with Some (GzipParams z) => Some z | _ => None end.

(** ** Values thrown *)

Inductive Thrown :=
| ErrorObj (name message : string)   (* an instance of [Error] *)
| NonError (v : string).             (* any other thrown value *)

(** [err instanceof Error && err.name === n] *)
Definition is_error_named (n : string) (err : Thrown) : bool :=
  match err with
  | ErrorObj name _ => String.eqb name n
  | NonError _ => false
  end.

(** ** Parsed JSON

    The values [JSON.parse] returns.  A number is kept as whether it is
    non-zero, which is all the pass ever asks of one (JSON has no NaN).
    The properties of an object come in the order JS enumerates them, under
    distinct names. *)

#[warnings="-register-all"]
Inductive Json :=
| JNull
| JBool (b : bool)
| JNumber (nonzero : bool)
| JString (s : string)
| JArray (items : list Json)
| JObject (props : list (string * Json)).

(** The built-in prototypes a value can inherit from; all of them inherit
    from [Object.prototype]. *)
Inductive Kind := KObject | KArray | KString | KNumber | KBoolean.

#[global] Instance Kind_eq_dec : EqDecision Kind.
Proof. solve_decision. Defined.

(** JS truthiness of a parsed value. *)
Definition is_truthy (v : Json) : bool :=
  match v with
  | JNull => false
  | JBool b => b
  | JNumber nonzero => nonzero
  | JString s => JS.truthy s
  | JArray _ | JObject _ => true
  end.

(** Whether a value is an object (a property can be set on it); the others
    are primitives. *)
Definition is_object (v : Json) : bool :=
  match v with
  | JArray _ | JObject _ => true
  | _ => false
  end.

(** The prototype of a value that is not [null]. *)
Definition kind_of (v : Json) : Kind :=
  match v with
  | JArray _ => KArray
  | JString _ => KString
  | JNumber _ => KNumber
  | JBool _ => KBoolean
  | JObject _ | JNull => KObject
  end.

(** The own property [name] of an object with the properties [props]. *)
Fixpoint own (name : string) (props : list (string * Json)) : option Json :=
  match props with
  | [] => None
  | (k, v) :: rest => if String.eqb k name then Some v else own name rest
  end.

(** ** The manifest the pass builds ([FileFingerprint], [FileFingerprintMap]) *)

Module Fp.
Record FileFingerprint := {
  hash : string;
  __processed : option bool
}.
End Fp.

Abbreviation FileFingerprint := Fp.FileFingerprint.
Abbreviation FileFingerprintMap := (gmap string Fp.FileFingerprint).

(** ** What the plugin takes from its platform

    Library functions the plugin calls and this development does not look
    into: [createHash('sha256').update(d).digest('hex')], [mime.lookup]
    ([false] is [None]), zlib's [gzip] (which throws on options out of
    range), [JSON.parse] (which throws on text that is not JSON),
    [JSON.stringify] of the object the pass builds, and the length of a JS
    string in UTF-16 code units. *)

Class Host := {
  sha256_hex : list byte → string;
  mime_lookup : string → option string;
  zlib_gzip : list byte → option ZlibOptions → Thrown + list byte;
  JSON_parse : string → Thrown + Json;
  JSON_stringify : FileFingerprintMap → string;
  code_units : string → nat
}.

(** ** Requests to the object store *)

Inductive ObjectCannedACL := acl_private | acl_public_read.

Record PutObjectOptions := {
  contentType : option string;
  contentEncoding : option string;
  cacheControl : option string;
  acl : option ObjectCannedACL
}.

(** [Uint8Array | string] *)
Inductive BodyData :=
| BodyBytes (b : list byte)
| BodyString (s : string).

Definition body_bytes (b : BodyData) : list byte :=
  match b with
  | BodyBytes l => l
  | BodyString s => list_byte_of_string s
  end.

(** [Buffer.byteLength(body)] *)
Definition byteLength (b : BodyData) : nat := length (body_bytes b).

Record PutObjectInput := {
  Bucket : string;
  Key : string;
  Body : BodyData;
  ContentType : option string;
  ContentLength : nat;
  CacheControl : option string;
  ACL : option ObjectCannedACL;
  ContentEncoding : option string
}.

Inductive S3Request :=
| GetObject (bucket_name object_key : string)
| PutObject (input : PutObjectInput)
| DeleteObject (bucket_name object_key : string)
| PutObjectTagging (bucket_name object_key : string) (TagSet : list TagPair).

(** Everything a pass asks of the outside, in order. *)
Inductive Event :=
| EvS3 (r : S3Request)
| EvGzip (input : list byte) (opts : option ZlibOptions)
| EvLog (line : string).

(** ** The world a pass runs in *)

Record S3Object := {
  stored : PutObjectInput;
  tags : list TagPair
}.

(** [objects]: the bucket the options address, by full key.
    [may_list]: whether the credentials may list the bucket (S3 answers a
    read of a missing key with [NoSuchKey] if so, with [AccessDenied]
    otherwise).
    [faults]: what the transport does to the next SDK calls, one entry per
    call: [Some e] makes the call fail with [e] before it reaches the
    service; [None], or no entry, lets it through.
    [trace]: the events so far.
    [polluted]: the built-in prototypes that have been given a property
    [__processed] (set to [true]) so far in this process; see
    [markProcessed]. *)
Record World := {
  objects : gmap string S3Object;
  may_list : bool;
  faults : list (option Thrown);
  trace : list Event;
  polluted : list Kind
}.

(** ** Sequential effectful code *)

Definition M (A : Type) : Type := World → (Thrown + A) * World.

Definition ret {A} (a : A) : M A := fun w => (inr a, w).

Definition throw {A} (e : Thrown) : M A := fun w => (inl e, w).

Definition bind {A B} (c : M A) (k : A → M B) : M B :=
  fun w =>
    match c w with
    | (inr a, w') => k a w'
    | (inl e, w') => (inl e, w')
    end.

(** [try { c } catch (err) { h err }] *)
Definition try_catch {A} (c : M A) (h : Thrown → M A) : M A :=
  fun w =>
    match c w with
    | (inl e, w') => h e w'
    | r => r
    end.

Declare Scope prog_scope.
Delimit Scope prog_scope with prog.
Notation "x <- c ;; k" := (bind c (fun x => k))
  (at level 100, c at next level, right associativity) : prog_scope.
Notation "c ;;; k" := (bind c (fun _ => k))
  (at level 100, right associativity) : prog_scope.

Definition emit (e : Event) : M unit :=
  fun w => (inr tt, {| objects := objects w; may_list := may_list w;
                       faults := faults w; trace := trace w ++ [e];
                       polluted := polluted w |}).

(** [logger.info(line)] *)
Definition logger_info (line : string) : M unit := emit (EvLog line).

(** [runs c w plan post]: from the world [w], [c] either returns, having
    added exactly [plan] to the trace, a result and a world of which [post]
    holds, or throws, having added a prefix of [plan]. *)
Definition runs {A} (c : M A) (w : World) (plan : list Event)
    (post : A → World → Prop) : Prop :=
  ∃ evs,
    trace (c w).2 = trace w ++ evs
    ∧ match (c w).1 with
      | inr a => evs = plan ∧ post a (c w).2
      | inl _ => evs `prefix_of` plan
      end.

(** ** The S3 service, as AWS documents the four operations the client uses

    - GetObject of a missing key fails with [NoSuchKey], or with
      [AccessDenied] when the caller may not list the bucket.
    - PutObject creates or replaces the object (and drops its tags).
    - DeleteObject removes the object and succeeds whether or not there was
      one.
    - PutObjectTagging replaces the tag set of an existing object and fails
      with [NoSuchKey] on a missing one. *)

Module S3.

Definition no_such_key : Thrown :=
  ErrorObj "NoSuchKey" "The specified key does not exist.".
Definition access_denied : Thrown :=
  ErrorObj "AccessDenied" "Access Denied".

Definition service (listable : bool) (req : S3Request)
    (objs : gmap string S3Object) : (Thrown + option (list byte)) * gmap string S3Object :=
  match req with
  | GetObject _ k =>
      match objs !! k with
      | Some o => (inr (Some (body_bytes (Body (stored o)))), objs)
      | None => (inl (if listable then no_such_key else access_denied), objs)
      end
  | PutObject input =>
      (inr None, <[Key input := {| stored := input; tags := [] |}]> objs)
  | DeleteObject _ k => (inr None, delete k objs)
  | PutObjectTagging _ k ts =>
      match objs !! k with
      | Some o => (inr None, <[k := {| stored := stored o; tags := ts |}]> objs)
      | None => (inl no_such_key, objs)
      end
  end.

(** One SDK call: it is recorded, consumes one entry of [faults], and
    either fails in transit or is answered by the service.  The answer
    carries the bytes of the body for GetObject and nothing otherwise. *)
Definition send (req : S3Request) : M (option (list byte)) :=
  fun w =>
    let tr := trace w ++ [EvS3 req] in
    match faults w with
    | Some e :: fs =>
        (inl e, {| objects := objects w; may_list := may_list w;
                   faults := fs; trace := tr; polluted := polluted w |})
    | fs =>
        let '(r, objs) := service (may_list w) req (objects w) in
        (r, {| objects := objs; may_list := may_list w;
               faults := tail fs; trace := tr; polluted := polluted w |})
    end.

End S3.

(** ** [class Client] *)

Module Client.
Section Client.
Context `{Host}.
Variable _options : S3Options.
Local Open Scope prog_scope.

Definition normalizeKey (k : string) : string :=
  prefix _options +:+ (if JS.startsWith k "/" then k else "/" +:+ k).

(** [r.Body!.transformToByteArray()] throws a [TypeError] on a reply
    without a body. *)
Definition transformToByteArray (r : option (list byte)) : M (list byte) :=
  match r with
  | Some b => ret b
  | None => throw (ErrorObj "TypeError" "Cannot read properties of undefined")
  end.

Definition get (k : string) : M (option (list byte)) :=
  try_catch
    (r <- S3.send (GetObject (bucket _options) (normalizeKey k)) ;;
     b <- transformToByteArray r ;;
     ret (Some b))
    (fun err =>
       if is_error_named "NoSuchKey" err || is_error_named "AccessDenied" err
       then ret None
       else throw err).

(** [Buffer.from(r).toString('utf-8')] is [string_of_list_byte]: a string
    is its UTF-8 bytes here.  What is returned is whatever the text parses
    to, [null] included. *)
Definition getJson (k : string) : M (option Json) :=
  r <- get k ;;
  match r with
  | None => ret None
  | Some b =>
      match JSON_parse (string_of_list_byte b) with
      | inr v => ret (Some v)
      | inl e => throw e
      end
  end.

Definition put (k : string) (body : BodyData) (options : option PutObjectOptions)
    : M unit :=
  S3.send (PutObject {|
    Bucket := bucket _options;
    Key := normalizeKey k;
    Body := body;
    ContentType := options ≫= contentType;
    ContentLength := byteLength body;
    CacheControl := options ≫= cacheControl;
    ACL := options ≫= acl;
    ContentEncoding := options ≫= contentEncoding
  |}) ;;; ret tt.

Definition del (k : string) : M unit :=
  S3.send (DeleteObject (bucket _options) (normalizeKey k)) ;;; ret tt.

Definition tag (k tagKey tagValue : string) : M unit :=
  try_catch
    (S3.send (PutObjectTagging (bucket _options) (normalizeKey k)
                [{| key := tagKey; value := tagValue |}]) ;;; ret tt)
    (fun err =>
       if is_error_named "NoSuchKey" err then ret tt else throw err).

End Client.
End Client.

(** ** [getFileMeta] *)

Definition getFileMeta `{Host} (file : string) : PutObjectOptions :=
  let ext := Path.extname file in
  let contentType := mime_lookup ext in
  {| contentType :=
       Some (match contentType with
             | Some t => t
             | None => "application/octet-stream"
             end);
     contentEncoding := None;
     cacheControl :=
       if negb (JS.endsWith file ".html")
       then Some "public, max-age=31536000, immutable"
       else None;
     acl := Some acl_public_read |}.

(** ** [deploy]: the checks made when the plugin is created *)

(** [\w] *)
Definition is_word_char (c : ascii) : bool :=
  let n := nat_of_ascii c in
  (Nat.leb 48 n && Nat.leb n 57) || (Nat.leb 65 n && Nat.leb n 90)
  || (Nat.leb 97 n && Nat.leb n 122) || Nat.eqb n 95.

(** [options.s3[key as keyof S3Options]], when it is a string *)
Definition s3_field (o : S3Options) (k : string) : option string :=
  if String.eqb k "bucket" then Some (bucket o)
  else if String.eqb k "region" then Some (region o)
  else if String.eqb k "accessKeyId" then Some (accessKeyId o)
  else if String.eqb k "secretAccessKey" then Some (secretAccessKey o)
  else if String.eqb k "endpoint" then Some (endpoint o)
  else if String.eqb k "prefix" then Some (prefix o)
  else None.

Definition map_inr {E A B} (f : A → B) (r : E + A) : E + B :=
  match r with inl e => inl e | inr a => inr (f a) end.

(** [endpoint.replace(/\{(\w+)\}/g, ...)], reading left to right;
    [pending] is the word read since an opening brace still to be closed. *)
Fixpoint replace_placeholders (o : S3Options) (pending : option string)
    (s : string) : Thrown + string :=
  match s with
  | EmptyString =>
      inr (match pending with Some w => "{" +:+ w | None => "" end)
  | String c s' =>
      let outside :=
        if Ascii.eqb c "{" then replace_placeholders o (Some "") s'
        else map_inr (String c) (replace_placeholders o None s') in
      match pending with
      | None => outside
      | Some w =>
          if is_word_char c
          then replace_placeholders o (Some (w +:+ String c "")) s'
          else if Ascii.eqb c "}" && JS.truthy w
          then match s3_field o w with
               | Some v => map_inr (String.append v) (replace_placeholders o None s')
               | None => inl (ErrorObj "Error" ("s3." +:+ w +:+ " is required"))
               end
          else map_inr (String.append ("{" +:+ w)) outside
      end
  end.

(** What the closure of the plugin holds once [deploy] has returned. *)
Record Plugin := {
  options : DeployOptions;
  resolvedDeleteUseTag : option TagPair;   (* the local [deleteUseTag] *)
  _endpoint : string
}.

(** Lines 50-66: the local [deleteUseTag]. *)
Definition deploy_deleteUseTag (options : DeployOptions) : Thrown + option TagPair :=
  match deleteUseTag options with
  | None => inr None
  | Some (TagString "") => inr None
  | Some v =>
      let t := match v with
               | TagString s => {| key := s; value := s |}
               | TagObject t => t
               end in
      if negb (JS.truthy (key t))
      then inl (ErrorObj "Error" "deleteUseTag.key is required")
      else if negb (JS.truthy (value t))
      then inl (ErrorObj "Error" "deleteUseTag.value is required")
      else inr (Some t)
  end.

Definition deploy (options : DeployOptions) : Thrown + Plugin :=
  match deploy_deleteUseTag options with
  | inl e => inl e
  | inr t =>
      let o := s3 options in
      if negb (JS.truthy (accessKeyId o) && JS.truthy (secretAccessKey o)
               && JS.truthy (bucket o) && JS.truthy (region o)
               && JS.truthy (endpoint o) && JS.truthy (prefix o))
      then inl (ErrorObj "Error" "s3 options are required")
      else
        match replace_placeholders o None (endpoint o) with
        | inl e => inl e
        | inr e1 =>
            if negb (JS.startsWith e1 "https://")
            then inl (ErrorObj "Error" "endpoint must be a valid url")
            else inr {| options := options;
                        resolvedDeleteUseTag := t;
                        _endpoint := if JS.endsWith e1 "/" then e1 else e1 +:+ "/" |}
        end
  end.

(** ** [config]: the base URL handed to Vite *)

(** [base: `${_endpoint}${options.s3.prefix}`] *)
Definition config (p : Plugin) : string :=
  _endpoint p +:+ prefix (s3 (options p)).

(** ** The local output directory *)

(** A file the glob reports: its absolute path, and the bytes [readFile]
    yields for it during the pass. *)
Record LocalFile := {
  path : string;
  readFile : list byte
}.

(** [getFiles()]: [tree] lists the files the glob [**/*] reports below
    [_outDir] (regular files; the glob leaves out what it leaves out, dot
    files by default), by their path relative to it, in the order it
    reports them; [absolute: true] makes each path absolute. *)
Definition getFiles (_outDir : string) (tree : list (string * list byte))
    : list LocalFile :=
  map (fun e => {| path := _outDir +:+ "/" +:+ e.1; readFile := e.2 |}) tree.

(** ** Reading a property of the loaded manifest

    [fingerprints] is whatever [JSON.parse] returned, so [fingerprints[name]]
    is read the way JS reads a property: the value's own properties first
    (the entries of an object; the elements and the length of an array; the
    code units and the length of a string), then its prototype chain.  Of
    what a built-in prototype holds the pass can tell apart:
    - [__proto__], which yields the prototype itself;
    - [__processed], once the pass itself has put it there (see
      [markProcessed]);
    - everything else, which is a function ([toString], [constructor], ...):
      it is truthy, setting [__processed] on it shows nowhere, and it has no
      [hash], so for the pass it is as good as nothing and reads as
      [Undefined] here. *)

Inductive Found :=
| Undefined
| Value (v : Json)                        (* a parsed value *)
| Primitive (k : Kind) (truthy : bool)    (* a code unit, a length, or [true] *)
| ThePrototype (k : Kind).

(** Whether a value with the prototype [k] inherits a [__processed]. *)
Definition inherits (pol : list Kind) (k : Kind) : bool :=
  bool_decide (k ∈ pol) || bool_decide (KObject ∈ pol).

Definition inherited (pol : list Kind) (k : Kind) (name : string) : Found :=
  if String.eqb name "__proto__" then ThePrototype k
  else if String.eqb name "__processed" && inherits pol k then Primitive KBoolean true
  else Undefined.

(** The names of the indices below [n]: ["0"], ["1"], ... *)
Definition indices (n : nat) : list string := pretty <$> seq 0 n.

(** The element of [items] at the index [name] names, if it names one. *)
Definition element (name : string) (items : list Json) : option Json :=
  snd <$> List.find (fun e => String.eqb e.1 name) (zip (indices (length items)) items).

(** The own property [name] of [doc]: an entry of an object; an element or
    the length of an array; a code unit or the length of a string. *)
Definition ownProperty `{Host} (doc : Json) (name : string) : option Found :=
  match doc with
  | JObject props => Value <$> own name props
  | JArray items =>
      match element name items with
      | Some v => Some (Value v)
      | None =>
          if String.eqb name "length"
          then Some (Primitive KNumber (negb (Nat.eqb (length items) 0)))
          else None
      end
  | JString s =>
      if bool_decide (name ∈ indices (code_units s)) then Some (Primitive KString true)
      else if String.eqb name "length"
      then Some (Primitive KNumber (negb (Nat.eqb (code_units s) 0)))
      else None
  | _ => None
  end.

(** [doc[name]], for [doc] other than [null]: the own property, or what
    the prototype chain has. *)
Definition lookup `{Host} (pol : list Kind) (doc : Json) (name : string) : Found :=
  match ownProperty doc name with
  | Some v => v
  | None => inherited pol (kind_of doc) name
  end.

(** The names [for (const key in doc)] visits: the enumerable own
    properties, then [__processed] when a prototype of [doc] has been given
    it and [doc] has no property of that name. *)
Definition ownKeys `{Host} (doc : Json) : list string :=
  match doc with
  | JObject props => remove_dups props.*1
  | JArray items => indices (length items)
  | JString s => indices (code_units s)
  | _ => []
  end.

Definition forIn `{Host} (pol : list Kind) (doc : Json) : list string :=
  ownKeys doc
  ++ (if inherits pol (kind_of doc) && negb (bool_decide ("__processed" ∈ ownKeys doc))
      then ["__processed"] else []).

(** [v?.hash], when it is a string. *)
Definition hash_of (v : Found) : option string :=
  match v with
  | Value (JObject props) =>
      match own "hash" props with
      | Some (JString s) => Some s
      | _ => None
      end
  | _ => None
  end.

(** The errors of the engine (their messages are the engine's and are not
    reproduced). *)
Definition cannot_create : Thrown :=
  ErrorObj "TypeError" "Cannot create property '__processed' on a primitive".
Definition cannot_read : Thrown :=
  ErrorObj "TypeError" "Cannot read properties of null (reading '__processed')".

(** [v.__processed], as a condition: [marked] says whether line 136 has set
    the property on [v].  Reading it off [null] (or [undefined]) throws. *)
Definition reads_processed (pol : list Kind) (marked : bool) (v : Found)
    : Thrown + bool :=
  match v with
  | Undefined => inl cannot_read
  | Value JNull => inl cannot_read
  | Value (JObject props) =>
      inr (marked || match own "__processed" props with
                     | Some x => is_truthy x
                     | None => inherits pol KObject
                     end)
  | Value x => inr ((marked && is_object x) || inherits pol (kind_of x))
  | Primitive k _ => inr (inherits pol k)
  | ThePrototype k => inr (bool_decide (k ∈ pol) || inherits pol KObject)
  end.

(** ** [writeBundle] *)

(** [fingerprints], as the pass holds it: what was parsed, and the names of
    the entries on which line 136 has set [__processed].  (An entry is an
    object of its own, reached through its name only.) *)
Record Fingerprints := {
  parsed : Json;
  marked : list string
}.

(** What [?? {}] makes of the result of [getJson]. *)
Definition orEmpty (r : option Json) : Json :=
  match r with
  | None | Some JNull => JObject []
  | Some v => v
  end.

Definition pollution : M (list Kind) := fun w => (inr (polluted w), w).

(** [prototype.__processed = true] *)
Definition pollute (k : Kind) : M unit :=
  fun w => (inr tt, {| objects := objects w; may_list := may_list w;
                       faults := faults w; trace := trace w;
                       polluted := k :: polluted w |}).

Section Pass.
Context `{Host}.
Variable p : Plugin.
Variable _outDir : string.     (* set by [configResolved] *)
Local Open Scope prog_scope.

Definition manifestKey : string := "fingerprints.json".

(** [hash(path)] *)
Definition hash (file : LocalFile) : string := sha256_hex (readFile file).

(** Lines 129-133: the name a file goes by in the bucket and the manifest. *)
Definition logicalName (file : LocalFile) : string :=
  let name := Path.normalizePath (Path.relative _outDir (path file)) in
  if cleanHtmlSuffix_on (options p) && JS.endsWith name ".html"
  then JS.slice_0_neg name 5
  else name.

(** [fingerprints[name]] *)
Definition property (fingerprints : Fingerprints) (name : string) : M Found :=
  pol <- pollution ;;
  ret (lookup pol (parsed fingerprints) name).

Definition is_marked (fingerprints : Fingerprints) (name : string) : bool :=
  bool_decide (name ∈ marked fingerprints).

(** Lines 135-137: [if (fingerprints[name]) fingerprints[name].__processed = true].
    The module is strict code: setting a property on a primitive throws.
    Under the name [__proto__], with no entry of that name, what is found
    and written to is the prototype. *)
Definition markProcessed (name : string) (fingerprints : Fingerprints)
    : M Fingerprints :=
  v <- property fingerprints name ;;
  match v with
  | Undefined => ret fingerprints
  | Value x =>
      if is_truthy x
      then if is_object x
           then ret {| parsed := parsed fingerprints;
                       marked := name :: marked fingerprints |}
           else throw cannot_create
      else ret fingerprints
  | Primitive _ truthy => if truthy then throw cannot_create else ret fingerprints
  | ThePrototype k => pollute k ;;; ret fingerprints
  end.

(** Line 140: [newFingerprints[name] = { hash: h }].  Assigning to
    [__proto__] sets the prototype of [newFingerprints] and adds no
    property. *)
Definition assign (name h : string) (newFingerprints : FileFingerprintMap)
    : FileFingerprintMap :=
  if String.eqb name "__proto__" then newFingerprints
  else <[name := {| Fp.hash := h; Fp.__processed := None |}]> newFingerprints.

(** [v?.hash !== h] *)
Definition hashDiffers (v : Found) (h : string) : bool :=
  negb (bool_decide (hash_of v = Some h)).

(** Lines 148-152: the payload and metadata that go to [put]. *)
Definition gzips (file : LocalFile) : bool :=
  negb (JS.endsWith (path file) ".html") && gzip_on (options p).

Definition withGzipEncoding (meta : PutObjectOptions) : PutObjectOptions :=
  {| contentType := contentType meta;
     contentEncoding := Some "gzip";
     cacheControl := cacheControl meta;
     acl := acl meta |}.

Definition compressedLine (name : string) (data : list byte) : string :=
  "Compressed: " +:+ name +:+ "(size: " +:+ pretty (length data) +:+ " bytes)".

(** [await gzipAsync(data, ...)] *)
Definition gzipAsync (data : list byte) (o : option ZlibOptions) : M (list byte) :=
  emit (EvGzip data o) ;;;
  match zlib_gzip data o with
  | inr z => ret z
  | inl e => throw e
  end.

(** Lines 145-155: the body of [if (fingerprints[name]?.hash !== h)]. *)
Definition upload (name : string) (file : LocalFile) : M unit :=
  let meta := getFileMeta (path file) in
  let data := readFile file in
  r <- (if gzips file
        then
          data <- gzipAsync data (gzip_params (options p)) ;;
          logger_info (compressedLine name data) ;;;
          ret (data, withGzipEncoding meta)
        else ret (data, meta)) ;;
  Client.put (s3 (options p)) name (BodyBytes r.1) (Some r.2) ;;;
  logger_info ("Uploaded: " +:+ name).

(** Lines 128-157: one turn of [for (const file of files)], on the two
    objects the loop updates. *)
Definition fileStep (st : Fingerprints * FileFingerprintMap)
    (file : LocalFile) : M (Fingerprints * FileFingerprintMap) :=
  let name := logicalName file in
  fingerprints <- markProcessed name st.1 ;;
  let h := hash file in
  let newFingerprints := assign name h st.2 in
  v <- property fingerprints name ;;
  (if hashDiffers v h then upload name file else ret tt) ;;;
  ret (fingerprints, newFingerprints).

Fixpoint forFiles (files : list LocalFile)
    (st : Fingerprints * FileFingerprintMap)
    : M (Fingerprints * FileFingerprintMap) :=
  match files with
  | [] => ret st
  | file :: rest => st' <- fileStep st file ;; forFiles rest st'
  end.

(** Lines 160-168: one turn of [for (const key in fingerprints)]. *)
Definition staleStep (fingerprints : Fingerprints) (k : string) : M unit :=
  v <- property fingerprints k ;;
  pol <- pollution ;;
  match reads_processed pol (is_marked fingerprints k) v with
  | inl e => throw e
  | inr true => ret tt
  | inr false =>
      match resolvedDeleteUseTag p with
      | Some t => Client.tag (s3 (options p)) k (key t) (value t)
      | None => Client.del (s3 (options p)) k
      end ;;;
      logger_info ("Deleted: " +:+ k)
  end.

Fixpoint forStale (fingerprints : Fingerprints) (keys : list string) : M unit :=
  match keys with
  | [] => ret tt
  | k :: rest => staleStep fingerprints k ;;; forStale fingerprints rest
  end.

Definition manifestMeta : PutObjectOptions :=
  {| contentType := Some "application/json";
     contentEncoding := None;
     cacheControl := None;
     acl := Some acl_private |}.

(** Lines 126-176: the pass once [fingerprints] is in hand. *)
Definition syncFrom (fingerprints : Json) (files : list LocalFile) : M unit :=
  st <- forFiles files ({| parsed := fingerprints; marked := [] |}, ∅) ;;
  pol <- pollution ;;
  forStale st.1 (forIn pol fingerprints) ;;;
  Client.put (s3 (options p)) manifestKey
    (BodyString (JSON_stringify st.2)) (Some manifestMeta) ;;;
  logger_info "Deployed".

(** The hook. *)
Definition writeBundle (tree : list (string * list byte)) : M unit :=
  let files := getFiles _outDir tree in
  r <- Client.getJson (s3 (options p)) manifestKey ;;
  syncFrom (orEmpty r) files.

End Pass.

(** ** The effects a pass is expected to have, as pure functions

    These read the pass off its inputs; the theorems below relate them to
    what [writeBundle] does. *)

Section Plan.
Context `{Host}.
Variable p : Plugin.
Variable _outDir : string.

Definition putRequest (k : string) (body : BodyData) (meta : PutObjectOptions)
    : PutObjectInput :=
  {| Bucket := bucket (s3 (options p));
     Key := Client.normalizeKey (s3 (options p)) k;
     Body := body;
     ContentType := contentType meta;
     ContentLength := byteLength body;
     CacheControl := cacheControl meta;
     ACL := acl meta;
     ContentEncoding := contentEncoding meta |}.

(** What is sent for [file]: its bytes, compressed when gzip applies;
    nothing can be sent when gzip throws. *)
Definition payload (file : LocalFile) : Thrown + list byte :=
  if gzips p file
  then zlib_gzip (readFile file) (gzip_params (options p))
  else inr (readFile file).

(** The request that uploads [file], if its payload can be made. *)
Definition assetPut (file : LocalFile) : option PutObjectInput :=
  match payload file with
  | inr data =>
      let meta := getFileMeta (path file) in
      Some (putRequest (logicalName p _outDir file) (BodyBytes data)
              (if gzips p file then withGzipEncoding meta else meta))
  | inl _ => None
  end.

(** The events of uploading [file]. *)
Definition uploadEvents (file : LocalFile) : list Event :=
  (if gzips p file
   then EvGzip (readFile file) (gzip_params (options p))
        :: match zlib_gzip (readFile file) (gzip_params (options p)) with
           | inr z => [EvLog (compressedLine (logicalName p _outDir file) z)]
           | inl _ => []
           end
   else [])
  ++ match assetPut file with
     | Some i => [EvS3 (PutObject i);
                  EvLog ("Uploaded: " +:+ logicalName p _outDir file)]
     | None => []
     end.

(** The hash the loaded manifest records under [name]: that of an entry
    of that name which is an object with a string under [hash]. *)
Definition recordedHash (doc : Json) (name : string) : option string :=
  hash_of (lookup [] doc name).

(** A file has changed since [doc] was written: the manifest has no entry
    under its logical name, or the entry's hash is not the SHA-256 hex
    digest of its bytes. *)
Definition changed (doc : Json) (file : LocalFile) : bool :=
  match recordedHash doc (logicalName p _outDir file) with
  | None => true
  | Some s => negb (String.eqb s (sha256_hex (readFile file)))
  end.

Definition fileEvents (doc : Json) (file : LocalFile) : list Event :=
  if changed doc file then uploadEvents file else [].

(** The names marked once every file of [files] has been looked up. *)
Definition markOne (doc : Json) (marks : list string) (file : LocalFile)
    : list string :=
  match lookup [] doc (logicalName p _outDir file) with
  | Value x => if is_object x then logicalName p _outDir file :: marks else marks
  | _ => marks
  end.

Definition markAll (doc : Json) (files : list LocalFile) (marks : list string)
    : list string :=
  foldl (markOne doc) marks files.

(** The prototypes polluted once every file of [files] has been looked up. *)
Definition polluteOne (doc : Json) (pol : list Kind) (file : LocalFile)
    : list Kind :=
  match lookup [] doc (logicalName p _outDir file) with
  | ThePrototype k => k :: pol
  | _ => pol
  end.

Definition polluteAll (doc : Json) (files : list LocalFile) (pol : list Kind)
    : list Kind :=
  foldl (polluteOne doc) pol files.

(** The new manifest built from [files], starting from [acc]. *)
Definition rebuild (files : list LocalFile) (acc : FileFingerprintMap)
    : FileFingerprintMap :=
  foldl (fun m file => assign (logicalName p _outDir file) (hash file) m) acc files.

Definition newManifest (files : list LocalFile) : FileFingerprintMap :=
  rebuild files ∅.

(** The request that retires the entry [k]. *)
Definition staleRequest (k : string) : S3Request :=
  match resolvedDeleteUseTag p with
  | Some t =>
      PutObjectTagging (bucket (s3 (options p)))
        (Client.normalizeKey (s3 (options p)) k)
        [{| key := key t; value := value t |}]
  | None =>
      DeleteObject (bucket (s3 (options p)))
        (Client.normalizeKey (s3 (options p)) k)
  end.

(** Whether the stale loop retires [k]: it reads [__processed] as falsy. *)
Definition retired (pol : list Kind) (doc : Json) (marks : list string)
    (k : string) : bool :=
  match reads_processed pol (bool_decide (k ∈ marks)) (lookup pol doc k) with
  | inr false => true
  | _ => false
  end.

Definition staleEvents (pol : list Kind) (doc : Json) (marks : list string)
    (k : string) : list Event :=
  if retired pol doc marks k
  then [EvS3 (staleRequest k); EvLog ("Deleted: " +:+ k)]
  else [].

(** The events of retiring the entry [k]. *)
Definition retireEvents (k : string) : list Event :=
  [EvS3 (staleRequest k); EvLog ("Deleted: " +:+ k)].

(** The names the stale loop retires, in the order it visits them, when
    the pass started with the prototypes [pol] polluted. *)
Definition staleNames (pol : list Kind) (doc : Json) (files : list LocalFile)
    : list string :=
  List.filter
    (retired (polluteAll doc files pol) doc (markAll doc files []))
    (forIn (polluteAll doc files pol) doc).

Definition manifestPut (m : FileFingerprintMap) : PutObjectInput :=
  putRequest manifestKey (BodyString (JSON_stringify m)) manifestMeta.

Definition manifestGet : S3Request :=
  GetObject (bucket (s3 (options p)))
    (Client.normalizeKey (s3 (options p)) manifestKey).

(** The events of the two loops of a pass. *)
Definition loopEvents (pol : list Kind) (doc : Json) (files : list LocalFile)
    : list Event :=
  flat_map (fileEvents doc) files
  ++ flat_map (staleEvents (polluteAll doc files pol) doc (markAll doc files []))
       (forIn (polluteAll doc files pol) doc).

(** The events of a pass that runs to its end, given the manifest it
    loaded and the prototypes polluted when it started. *)
Definition passEvents (pol : list Kind) (doc : Json) (files : list LocalFile)
    : list Event :=
  loopEvents pol doc files
  ++ [EvS3 (PutObject (manifestPut (newManifest files)));
      EvLog "Deployed"].

(** Every file of [files] that changed has a payload. *)
Definition allSent (doc : Json) (files : list LocalFile) : Prop :=
  Forall (fun f => changed doc f = true → is_Some (assetPut f)) files.

(** The errors a pass can throw with no fault of the transport: reading or
    marking an entry of the loaded manifest that is no object, and gzip
    refusing its options. *)
Definition ownFailure (files : list LocalFile) (e : Thrown) : Prop :=
  e = cannot_read ∨ e = cannot_create
  ∨ ∃ f, f ∈ files ∧ gzips p f = true
         ∧ zlib_gzip (readFile f) (gzip_params (options p)) = inl e.

(** The key of a local file in the bucket. *)
Definition fileKey (file : LocalFile) : string :=
  Client.normalizeKey (s3 (options p)) (logicalName p _outDir file).

(** The record the pass stores for a file. *)
Definition fingerprintOf (file : LocalFile) : FileFingerprint :=
  {| Fp.hash := sha256_hex (readFile file); Fp.__processed := None |}.

(** The files of [files] that go by the name [n]. *)
Definition named (n : string) (files : list LocalFile) : list LocalFile :=
  List.filter (fun f => String.eqb (logicalName p _outDir f) n) files.

End Plan.

(** ** Reading a trace *)

(** The uploads of assets: the PutObject requests whose body is a buffer
    (the manifest is sent as a string). *)
Definition assetPuts (evs : list Event) : list PutObjectInput :=
  omap (fun e => match e with
                 | EvS3 (PutObject i) =>
                     match Body i with BodyBytes _ => Some i | BodyString _ => None end
                 | _ => None
                 end) evs.

(** The writes of a manifest: the PutObject requests with a string body. *)
Definition manifestPuts (evs : list Event) : list PutObjectInput :=
  omap (fun e => match e with
                 | EvS3 (PutObject i) =>
                     match Body i with BodyString _ => Some i | BodyBytes _ => None end
                 | _ => None
                 end) evs.

(** Every PutObject request. *)
Definition allPuts (evs : list Event) : list PutObjectInput :=
  omap (fun e => match e with EvS3 (PutObject i) => Some i | _ => None end) evs.

(** The calls to gzip. *)
Definition gzipCalls (evs : list Event) : list (list byte * option ZlibOptions) :=
  omap (fun e => match e with EvGzip d o => Some (d, o) | _ => None end) evs.

(** The requests that delete or tag an object. *)
Definition mutations (evs : list Event) : list S3Request :=
  omap (fun e => match e with
                 | EvS3 (DeleteObject b k) => Some (DeleteObject b k)
                 | EvS3 (PutObjectTagging b k t) => Some (PutObjectTagging b k t)
                 | _ => None
                 end) evs.

(** The key a request writes to, if it writes. *)
Definition writtenKey (r : S3Request) : option string :=
  match r with
  | GetObject _ _ => None
  | PutObject i => Some (Key i)
  | DeleteObject _ k => Some k
  | PutObjectTagging _ k _ => Some k
  end.

(** The requests of [evs] that write to the key [K]. *)
Definition writesTo (K : string) (evs : list Event) : list S3Request :=
  omap (fun e => match e with
                 | EvS3 r => if bool_decide (writtenKey r = Some K) then Some r else None
                 | _ => None
                 end) evs.

(** The keys the requests of [evs] write to. *)
Definition touchedKeys (evs : list Event) : list string :=
  omap (fun e => match e with EvS3 r => writtenKey r | _ => None end) evs.

(** The bucket and the key a request names. *)
Definition requestBucket (r : S3Request) : string :=
  match r with
  | GetObject b _ => b
  | PutObject i => Bucket i
  | DeleteObject b _ => b
  | PutObjectTagging b _ _ => b
  end.

Definition requestKey (r : S3Request) : string :=
  match r with
  | GetObject _ k => k
  | PutObject i => Key i
  | DeleteObject _ k => k
  | PutObjectTagging _ k _ => k
  end.

(** A request of [e] goes to the configured bucket, to a key below the
    configured prefix. *)
Definition belowPrefix (o : S3Options) (e : Event) : Prop :=
  match e with
  | EvS3 r =>
      requestBucket r = bucket o
      ∧ JS.startsWith (requestKey r) (prefix o +:+ "/") = true
  | _ => True
  end.

(** ** The bucket a run leaves behind *)

(** No transport fault is pending. *)
Definition faultFree (w : World) : Prop :=
  Forall (fun f => f = None) (faults w).

(** No prototype has been given a [__processed]. *)
Definition unpolluted (w : World) : Prop := polluted w = [].

(** The bucket once the service has answered the requests of [evs], one
    after the other. *)
Definition replay (listable : bool) (evs : list Event)
    (objs : gmap string S3Object) : gmap string S3Object :=
  foldl (fun o e =>
           match e with
           | EvS3 r => (S3.service listable r o).2
           | _ => o
           end) objs evs.

(** [lawful c]: whatever its outcome, [c] leaves alone the caller's right
    to list and every key its requests do not write to; when the transport
    has no fault in store it leaves none either, and the bucket is then the
    one the service makes of the requests sent. *)
Definition lawful {A} (c : M A) : Prop :=
  ∀ w, ∃ evs,
    trace (c w).2 = trace w ++ evs
    ∧ may_list (c w).2 = may_list w
    ∧ (∀ K, K ∉ touchedKeys evs → objects (c w).2 !! K = objects w !! K)
    ∧ (faultFree w →
       faultFree (c w).2 ∧ objects (c w).2 = replay (may_list w) evs (objects w)).

(** An object once its tag set has been replaced by [ts]. *)
Definition tagged (ts : list TagPair) (ob : S3Object) : S3Object :=
  {| stored := stored ob; tags := ts |}.

(** ** Manifests in the format the plugin writes *)

(** The entry [JSON.parse] makes of a record the plugin wrote. *)
Definition entryOf (fp : FileFingerprint) : Json :=
  JObject [("hash", JString (Fp.hash fp))].

(** A document with the entries of [m], in the order the map lists them. *)
Definition documentOf (m : FileFingerprintMap) : Json :=
  JObject ((fun e => (e.1, entryOf e.2)) <$> map_to_list m).

(** [doc] is what [JSON.parse] makes of the manifest [m] as the plugin
    writes it: an object with, under each name of [m], an object holding
    the hash, and nothing else. *)
Definition isManifest (doc : Json) (m : FileFingerprintMap) : Prop :=
  ∃ props, doc = JObject props ∧ ∀ n, own n props = entryOf <$> m !! n.

(** [doc] is an object and so is every entry of it. *)
Definition objectEntries (doc : Json) : Prop :=
  ∃ props, doc = JObject props ∧ ∀ k v, own k props = Some v → is_object v = true.

(** Every entry of [doc] is an object that carries no [__processed] of its
    own, as in every manifest the plugin writes. *)
Definition unmarkedEntries (doc : Json) : Prop :=
  ∃ props,
    doc = JObject props
    ∧ ∀ k v, own k props = Some v → ∃ q, v = JObject q ∧ own "__processed" q = None.


(** ** The shape of a key *)

(** [s] without its leading slashes. *)
Fixpoint dropLeadingSlashes (s : string) : string :=
  match s with
  | EmptyString => ""
  | String c s' => if Ascii.eqb c "/" then dropLeadingSlashes s' else s
  end.

(** [s] without its trailing slashes. *)
Fixpoint dropTrailingSlashes (s : string) : string :=
  match s with
  | EmptyString => ""
  | String c s' =>
      let t := dropTrailingSlashes s' in
      if Ascii.eqb c "/" && String.eqb t "" then "" else String c t
  end.

(** The prefix and the key with exactly one slash between them. *)
Definition joinedByOneSlash (pfx k : string) : string :=
  dropTrailingSlashes pfx +:+ "/" +:+ dropLeadingSlashes k.

(** A name that does not start with a slash. *)
Definition plainName (k : string) : Prop := JS.startsWith k "/" = false.

(** [k] without one leading slash. *)
Definition withoutLeadingSlash (k : string) : string :=
  match k with
  | String c k' => if Ascii.eqb c "/" then k' else k
  | EmptyString => k
  end.

(** Whether [c] occurs in [s]. *)
Fixpoint occurs (c : ascii) (s : string) : bool :=
  match s with
  | EmptyString => false
  | String a s' => Ascii.eqb a c || occurs c s'
  end.

(** Whether [s] is made of word characters only. *)
Fixpoint is_word (s : string) : bool :=
  match s with
  | EmptyString => true
  | String a s' => is_word_char a && is_word s'
  end.

(** ** The claims of the specification, in its words *)

(** What C8 asks of the request that uploads [file]. *)
Definition uploadPolicy `{Host} (p : Plugin) (_outDir : string)
    (file : LocalFile) (i : PutObjectInput) : Prop :=
  Key i = Client.normalizeKey (s3 (options p)) (logicalName p _outDir file)
  ∧ ContentType i
    = Some (default "application/octet-stream" (mime_lookup (Path.extname (path file))))
  ∧ ACL i = Some acl_public_read
  ∧ ContentLength i = length (body_bytes (Body i))
  ∧ (JS.endsWith (path file) ".html" = false →
     CacheControl i = Some "public, max-age=31536000, immutable"
     ∧ (gzip_on (options p) = true →
        (∃ z, zlib_gzip (readFile file) (gzip_params (options p)) = inr z
              ∧ Body i = BodyBytes z)
        ∧ ContentEncoding i = Some "gzip")
     ∧ (gzip_on (options p) = false →
        Body i = BodyBytes (readFile file) ∧ ContentEncoding i = None))
  ∧ (JS.endsWith (path file) ".html" = true →
     Body i = BodyBytes (readFile file)
     ∧ ContentEncoding i = None
     ∧ CacheControl i = None).

(** The request the options ask for when the entry [k] has gone stale:
    a tag when [deleteUseTag] is set (to a non-empty string, used as key
    and value, or to a key and a value), a delete otherwise. *)
Definition configuredStaleRequest (o : DeployOptions) (k : string) : S3Request :=
  let tagWith t :=
    PutObjectTagging (bucket (s3 o)) (Client.normalizeKey (s3 o) k)
      [{| key := key t; value := value t |}] in
  match deleteUseTag o with
  | Some (TagObject t) => tagWith t
  | Some (TagString s) =>
      if JS.truthy s then tagWith {| key := s; value := s |}
      else DeleteObject (bucket (s3 o)) (Client.normalizeKey (s3 o) k)
  | None => DeleteObject (bucket (s3 o)) (Client.normalizeKey (s3 o) k)
  end.

(** What a second pass does when it changes nothing: after loading, it
    uploads no asset, deletes and tags nothing, and writes the manifest
    [m]. *)
Definition quietPass `{Host} (p : Plugin) (m : FileFingerprintMap)
    (w1 w' : World) : Prop :=
  ∃ evs,
    trace w' = trace w1 ++ evs
    ∧ assetPuts evs = []
    ∧ mutations evs = []
    ∧ manifestPuts evs = [manifestPut p m].

(** Between [w] and [w'] the manifest [m] was written, and no other. *)
Definition wroteManifest `{Host} (p : Plugin) (m : FileFingerprintMap)
    (w w' : World) : Prop :=
  ∃ evs, trace w' = trace w ++ evs ∧ manifestPuts evs = [manifestPut p m].

(** C1 as the claim has it: whenever a pass has run over the files,
    writing the manifest [m], and a further pass over the same files loads
    [m], the further pass is quiet and writes [m] again. *)
Definition idempotenceAsStated : Prop :=
  ∀ (H : Host) (p : Plugin) (_outDir : string) (tree : list (string * list byte))
    (m : FileFingerprintMap) (doc : Json) (w0 w0' w w1 w' : World),
    writeBundle p _outDir tree w0 = (inr tt, w0') →
    wroteManifest p m w0 w0' →
    isManifest doc m →
    Client.getJson (s3 (options p)) manifestKey w = (inr (Some doc), w1) →
    writeBundle p _outDir tree w = (inr tt, w') →
    quietPass p m w1 w'.



(** C4 as the claim has it: in every pass that runs to its end, the
    deletes and tags are those of the entries of the loaded manifest that
    no local file goes by, one each. *)
Definition staleHandlingAsStated : Prop :=
  ∀ (H : Host) (o : DeployOptions) (p : Plugin) (_outDir : string)
    (tree : list (string * list byte)) (r : option Json) (w w1 w' : World),
    deploy o = inr p →
    Client.getJson (s3 (options p)) manifestKey w = (inr r, w1) →
    writeBundle p _outDir tree w = (inr tt, w') →
    ∃ evs,
      trace w' = trace w1 ++ evs
      ∧ mutations evs
        ≡ₚ configuredStaleRequest o
           <$> filter (fun k => k ∉ logicalName p _outDir <$> getFiles _outDir tree)
                 (ownKeys (orEmpty r)).

(** C5 as the claim has it, for its last part: the pass works from the
    empty mapping only when no manifest was there (or the manifest is the
    empty mapping itself). *)
Definition onlyAbsenceAsStated : Prop :=
  ∀ (H : Host) (p : Plugin) (r : option Json) (w w1 : World),
    Client.getJson (s3 (options p)) manifestKey w = (inr r, w1) →
    orEmpty r = JObject [] →
    r = None ∨ r = Some (JObject []).

(** The key of [file] is not the key of the manifest. *)
Definition notTheManifest `{Host} (p : Plugin) (_outDir : string) (file : LocalFile)
    : Prop :=
  Client.normalizeKey (s3 (options p)) (logicalName p _outDir file)
  ≠ Client.normalizeKey (s3 (options p)) manifestKey.

(** The requests of [evs] that write to the key of the manifest: uploads,
    deletes and tags. *)
Definition manifestKeyWrites (p : Plugin) (evs : list Event) : list S3Request :=
  writesTo (Client.normalizeKey (s3 (options p)) manifestKey) evs.

(** C10 as the claim has it: whatever the output directory holds, no
    enumerated file is the manifest, and a pass that runs to its end sends
    one request that writes to the manifest key, the final write. *)
Definition manifestNeverAnAssetAsStated : Prop :=
  ∀ (H : Host) (p : Plugin) (_outDir : string) (tree : list (string * list byte))
    (w w' : World),
    writeBundle p _outDir tree w = (inr tt, w') →
    Forall (notTheManifest p _outDir) (getFiles _outDir tree)
    ∧ ∃ evs,
        trace w' = trace w ++ evs
        ∧ manifestKeyWrites p evs
          = [PutObject (manifestPut p (newManifest p _outDir (getFiles _outDir tree)))].

(** ** A small host and a small site, for evaluating the model

    The theorems hold for every [Host]; this one makes the model run.  Its
    digest is the hex image of the content (injective, as SHA-256 is taken
    to be on the inputs used), its MIME table is an excerpt, its gzip
    checks the options as zlib does and adds the two magic bytes, its
    strings are ASCII, and its JSON reader takes documents without white
    space, escapes, fractions or exponents, whose objects have distinct
    names that are not numerals. *)

Module Sample.

Definition dq : string := String (ascii_of_nat 34) "".

Definition hex_digit (n : nat) : ascii :=
  match n with
  | 0 => "0" | 1 => "1" | 2 => "2" | 3 => "3" | 4 => "4" | 5 => "5"
  | 6 => "6" | 7 => "7" | 8 => "8" | 9 => "9" | 10 => "a" | 11 => "b"
  | 12 => "c" | 13 => "d" | 14 => "e" | _ => "f"
  end%char.

Definition hex (d : list byte) : string :=
  foldr (fun b acc =>
           String (hex_digit (Byte.to_nat b / 16))
             (String (hex_digit (Byte.to_nat b mod 16)) acc)) "" d.

Definition mime (ext : string) : option string :=
  if String.eqb ext ".html" then Some "text/html"
  else if String.eqb ext ".js" then Some "application/javascript"
  else if String.eqb ext ".css" then Some "text/css"
  else if String.eqb ext ".json" then Some "application/json"
  else if String.eqb ext ".png" then Some "image/png"
  else None.

(** Whether an option that is set lies between [lo] and [hi]. *)
Definition in_range (lo hi : Z) (x : option Z) : bool :=
  match x with
  | Some n => Z.leb lo n && Z.leb n hi
  | None => true
  end.

Definition gz (d : list byte) (o : option ZlibOptions) : Thrown + list byte :=
  let ok :=
    match o with
    | Some z =>
        in_range (-1) 9 (level z) && in_range 1 9 (memLevel z)
        && in_range 0 4 (strategy z)
    | None => true
    end in
  if ok then inr (x1f :: x8b :: d)
  else inl (ErrorObj "RangeError" "The value of an option is out of range").

Definition entry_text (e : string * FileFingerprint) : string :=
  dq +:+ e.1 +:+ dq +:+ ":{" +:+ dq +:+ "hash" +:+ dq +:+ ":" +:+ dq
  +:+ Fp.hash e.2 +:+ dq
  +:+ match Fp.__processed e.2 with
      | Some true => "," +:+ dq +:+ "__processed" +:+ dq +:+ ":true"
      | Some false => "," +:+ dq +:+ "__processed" +:+ dq +:+ ":false"
      | None => ""
      end
  +:+ "}".

Fixpoint join_entries (l : list (string * FileFingerprint)) : string :=
  match l with
  | [] => ""
  | [e] => entry_text e
  | e :: rest => entry_text e +:+ "," +:+ join_entries rest
  end.

Definition stringify (m : FileFingerprintMap) : string :=
  "{" +:+ join_entries (map_to_list m) +:+ "}".

(** The text up to the next double quote, and the text after it. *)
Fixpoint read_quoted (s : string) : option (string * string) :=
  match s with
  | EmptyString => None
  | String c s' =>
      if Ascii.eqb c (ascii_of_nat 34) then Some ("", s')
      else match read_quoted s' with
           | Some (a, r) => Some (String c a, r)
           | None => None
           end
  end.

Definition is_digit (c : ascii) : bool :=
  let n := nat_of_ascii c in Nat.leb 48 n && Nat.leb n 57.

(** The digits [s] starts with: whether one of them is not [0], and the
    text after them. *)
Fixpoint read_digits (s : string) : bool * string :=
  match s with
  | String c s' =>
      if is_digit c
      then let r := read_digits s' in (negb (Ascii.eqb c "0") || r.1, r.2)
      else (false, s)
  | EmptyString => (false, s)
  end.

(** A value at the head of [s], and the text after it. *)
Fixpoint parse_value (fuel : nat) (s : string) : option (Json * string) :=
  match fuel with
  | 0 => None
  | S n =>
      match s with
      | EmptyString => None
      | String c rest =>
          if Ascii.eqb c (ascii_of_nat 34)
          then match read_quoted rest with
               | Some (a, r) => Some (JString a, r)
               | None => None
               end
          else if Ascii.eqb c "{"
          then match rest with
               | String "}" r => Some (JObject [], r)
               | _ => parse_members n rest []
               end
          else if Ascii.eqb c "["
          then match rest with
               | String "]" r => Some (JArray [], r)
               | _ => parse_items n rest []
               end
          else if is_digit c
          then let r := read_digits s in Some (JNumber r.1, r.2)
          else match Path.strip_prefix "null" s with
               | Some r => Some (JNull, r)
               | None =>
                   match Path.strip_prefix "true" s with
                   | Some r => Some (JBool true, r)
                   | None =>
                       match Path.strip_prefix "false" s with
                       | Some r => Some (JBool false, r)
                       | None => None
                       end
                   end
               end
      end
  end
with parse_members (fuel : nat) (s : string) (acc : list (string * Json))
    : option (Json * string) :=
  match fuel with
  | 0 => None
  | S n =>
      match Path.strip_prefix dq s with
      | None => None
      | Some s1 =>
          match read_quoted s1 with
          | None => None
          | Some (k, s2) =>
              match Path.strip_prefix ":" s2 with
              | None => None
              | Some s3 =>
                  match parse_value n s3 with
                  | None => None
                  | Some (v, s4) =>
                      match s4 with
                      | String "}" r => Some (JObject (acc ++ [(k, v)]), r)
                      | String "," r => parse_members n r (acc ++ [(k, v)])
                      | _ => None
                      end
                  end
              end
          end
      end
  end
with parse_items (fuel : nat) (s : string) (acc : list Json)
    : option (Json * string) :=
  match fuel with
  | 0 => None
  | S n =>
      match parse_value n s with
      | None => None
      | Some (v, s1) =>
          match s1 with
          | String "]" r => Some (JArray (acc ++ [v]), r)
          | String "," r => parse_items n r (acc ++ [v])
          | _ => None
          end
      end
  end.

Definition parse (s : string) : Thrown + Json :=
  match parse_value (S (String.length s)) s with
  | Some (v, EmptyString) => inr v
  | _ => inl (ErrorObj "SyntaxError" "Unexpected token in JSON")
  end.

Definition host : Host :=
  {| sha256_hex := hex;
     mime_lookup := mime;
     zlib_gzip := gz;
     JSON_parse := parse;
     JSON_stringify := stringify;
     code_units := String.length |}.

Definition s3Options (pfx : string) : S3Options :=
  {| bucket := "site-bucket";
     region := "eu-west-1";
     accessKeyId := "AKIAEXAMPLE";
     secretAccessKey := "secret";
     endpoint := "https://{bucket}.s3.{region}.amazonaws.com";
     prefix := pfx |}.

Definition deployOptions (clean : option bool) (t : option DeleteUseTagOption)
    (g : option GzipOption) : DeployOptions :=
  {| s3 := s3Options "app"; cleanHtmlSuffix := clean;
     deleteUseTag := t; gzip := g |}.

(** The closure [deploy] builds for [deployOptions clean t g]. *)
Definition plugin (clean : option bool) (t : option DeleteUseTagOption)
    (g : option GzipOption) (rt : option TagPair) : Plugin :=
  {| options := deployOptions clean t g;
     resolvedDeleteUseTag := rt;
     _endpoint := "https://site-bucket.s3.eu-west-1.amazonaws.com/" |}.

(** Suffix stripping and gzip on; stale entries are deleted. *)
Definition cleanGzipPlugin : Plugin :=
  plugin (Some true) None (Some (GzipBool true)) None.

(** Stale entries are tagged [stale=stale]. *)
Definition tagPlugin : Plugin :=
  plugin None (Some (TagString "stale")) None
    (Some {| key := "stale"; value := "stale" |}).

(** No option set. *)
Definition plainPlugin : Plugin := plugin None None None None.

(** Gzip with a compression level zlib refuses. *)
Definition badGzipPlugin : Plugin :=
  plugin None None
    (Some (GzipParams {| level := Some 10%Z; memLevel := None; strategy := None |}))
    None.

Definition outDir : string := "/proj/dist".

Definition bytes (s : string) : list byte := list_byte_of_string s.

(** An empty bucket, a caller that may list it, a transport without
    faults, untouched prototypes. *)
Definition emptyWorld : World :=
  {| objects := ∅; may_list := true; faults := []; trace := []; polluted := [] |}.

(** The world a pass leaves behind, whatever its outcome. *)
Definition after (c : M unit) (w : World) : World := (c w).2.

Definition site : list (string * list byte) :=
  [("index.html", bytes "<html></html>"); ("assets/app.js", bytes "let x = 1")].

Definition siteV2 : list (string * list byte) :=
  [("index.html", bytes "<html></html>"); ("assets/new.js", bytes "let y = 2")].

(** Two files that [cleanHtmlSuffix] sends to one logical name. *)
Definition collidingSite : list (string * list byte) :=
  [("about", bytes "plain"); ("about.html", bytes "<p>about</p>")].

(** A site that ships a file named like the manifest. *)
Definition siteWithManifestName : list (string * list byte) :=
  [("fingerprints.json", bytes "[1,2,3]")].

(** A site that ships a file named [__proto__]. *)
Definition siteWithProto : list (string * list byte) :=
  [("__proto__", bytes "x")].

(** The world after a first pass over [site] into the empty bucket, and
    the manifest that pass wrote. *)
Definition deployed : World :=
  after (@writeBundle host cleanGzipPlugin outDir site) emptyWorld.

Definition deployedManifest : FileFingerprintMap :=
  @newManifest host cleanGzipPlugin outDir (getFiles outDir site).

(** The same first pass by the plugin that tags, and its manifest. *)
Definition deployedWithTag : World :=
  after (@writeBundle host tagPlugin outDir site) emptyWorld.

Definition deployedWithTagManifest : FileFingerprintMap :=
  @newManifest host tagPlugin outDir (getFiles outDir site).

(** A bucket that holds [text] as its manifest and nothing else. *)
Definition withManifest (text : string) : World :=
  {| objects :=
       {[ "app/fingerprints.json" :=
            {| stored := @putRequest cleanGzipPlugin manifestKey
                           (BodyString text) manifestMeta;
               tags := [] |} ]};
     may_list := true; faults := []; trace := []; polluted := [] |}.

(** A bucket whose manifest is not JSON. *)
Definition corruptWorld : World := withManifest "{ not json".

(** A bucket whose manifest is the JSON text [null]. *)
Definition nullWorld : World := withManifest "null".

(** A bucket whose manifest has an entry that carries the marker. *)
Definition markedWorld : World :=
  withManifest
    ("{" +:+ dq +:+ "old.js" +:+ dq +:+ ":{" +:+ dq +:+ "hash" +:+ dq +:+ ":"
     +:+ dq +:+ "00" +:+ dq +:+ "," +:+ dq +:+ "__processed" +:+ dq +:+ ":true}}").

(** A bucket whose manifest has an entry that is [null]. *)
Definition nullEntryWorld : World :=
  withManifest ("{" +:+ dq +:+ "old.js" +:+ dq +:+ ":null}").


(** Options whose endpoint names a field that does not exist. *)
Definition unknownFieldOptions : DeployOptions :=
  {| s3 := {| bucket := "b"; region := "r"; accessKeyId := "a";
              secretAccessKey := "s"; endpoint := "https://{host}/";
              prefix := "app" |};
     cleanHtmlSuffix := None; deleteUseTag := None; gzip := None |}.

End Sample.

(** * Properties *)

(** ** The model on small inputs *)

Example extname_html : Path.extname "/proj/dist/about.html" = ".html".
Proof. reflexivity. Qed.

Example extname_none : Path.extname "/proj/dist.d/LICENSE" = "".
Proof. reflexivity. Qed.

Example extname_dotfile : Path.extname "/proj/dist/.gitignore" = "".
Proof. reflexivity. Qed.

Example extname_last_dot : Path.extname "/proj/dist/a.tar.gz" = ".gz".
Proof. reflexivity. Qed.

Example extname_trailing_dot : Path.extname "/proj/dist/index." = ".".
Proof. reflexivity. Qed.

Example normalizeKey_plain :
  Client.normalizeKey (Sample.s3Options "site") "assets/app.js" = "site/assets/app.js".
Proof. reflexivity. Qed.

Example normalizeKey_leading_slash :
  Client.normalizeKey (Sample.s3Options "site") "/assets/app.js" = "site/assets/app.js".
Proof. reflexivity. Qed.

Example deploy_sample :
  deploy (Sample.deployOptions (Some true) None (Some (GzipBool true)))
  = inr Sample.cleanGzipPlugin.
Proof. reflexivity. Qed.

Example deploy_tag_string :
  deploy (Sample.deployOptions None (Some (TagString "stale")) None)
  = inr Sample.tagPlugin.
Proof. reflexivity. Qed.

Example deploy_empty_tag_string :
  deploy (Sample.deployOptions None (Some (TagString "")) None)
  = inr (Sample.plugin None (Some (TagString "")) None None).
Proof. reflexivity. Qed.

Example deploy_tag_without_value :
  deploy (Sample.deployOptions None
            (Some (TagObject {| key := "stale"; value := "" |})) None)
  = inl (ErrorObj "Error" "deleteUseTag.value is required").
Proof. reflexivity. Qed.

Example deploy_unknown_placeholder :
  deploy {| s3 := {| bucket := "b"; region := "r"; accessKeyId := "a";
                     secretAccessKey := "s"; endpoint := "https://{host}/";
                     prefix := "app" |};
            cleanHtmlSuffix := None; deleteUseTag := None; gzip := None |}
  = inl (ErrorObj "Error" "s3.host is required").
Proof. reflexivity. Qed.

Example deploy_not_https :
  deploy {| s3 := {| bucket := "b"; region := "r"; accessKeyId := "a";
                     secretAccessKey := "s"; endpoint := "http://{bucket}.example";
                     prefix := "app" |};
            cleanHtmlSuffix := None; deleteUseTag := None; gzip := None |}
  = inl (ErrorObj "Error" "endpoint must be a valid url").
Proof. reflexivity. Qed.

Example sample_json_round_trip :
  Sample.parse (Sample.stringify Sample.deployedManifest)
  = inr (documentOf Sample.deployedManifest).
Proof. vm_compute; reflexivity. Qed.

Example sample_json_values :
  Sample.parse "null" = inr JNull
  ∧ Sample.parse "[1,0]" = inr (JArray [JNumber true; JNumber false])
  ∧ Sample.parse ("{" +:+ Sample.dq +:+ "a" +:+ Sample.dq +:+ ":null}")
    = inr (JObject [("a", JNull)]).
Proof. vm_compute. repeat split; reflexivity. Qed.

(** Reading properties off parsed values: an entry, a missing name, the
    prototype, an element and the length of an array, and a marker that an
    earlier pass left on [Object.prototype]. *)
Example lookup_samples :
  @lookup Sample.host [] (JObject [("a", JNull)]) "a" = Value JNull
  ∧ @lookup Sample.host [] (JObject [("a", JNull)]) "b" = Undefined
  ∧ @lookup Sample.host [] (JObject [("a", JNull)]) "__proto__" = ThePrototype KObject
  ∧ @lookup Sample.host [] (JArray [JNull; JBool true]) "1" = Value (JBool true)
  ∧ @lookup Sample.host [] (JArray [JNull; JBool true]) "length" = Primitive KNumber true
  ∧ @lookup Sample.host [KObject] (JObject []) "__processed" = Primitive KBoolean true
  ∧ @forIn Sample.host [KObject] (JObject [("a", JNull)]) = ["a"; "__processed"].
Proof. vm_compute. repeat split; reflexivity. Qed.

(** A first pass over the sample site: both files are uploaded, the script
    compressed, the page not, and the manifest written last. *)
Example first_pass_requests :
  Some <$> allPuts (trace Sample.deployed)
  = [@assetPut Sample.host Sample.cleanGzipPlugin Sample.outDir
       {| path := "/proj/dist/index.html"; readFile := Sample.bytes "<html></html>" |};
     @assetPut Sample.host Sample.cleanGzipPlugin Sample.outDir
       {| path := "/proj/dist/assets/app.js"; readFile := Sample.bytes "let x = 1" |};
     Some (@manifestPut Sample.host Sample.cleanGzipPlugin Sample.deployedManifest)]
  ∧ Key <$> allPuts (trace Sample.deployed)
    = ["app/index"; "app/assets/app.js"; "app/fingerprints.json"]
  ∧ ContentEncoding <$> allPuts (trace Sample.deployed) = [None; Some "gzip"; None]
  ∧ mutations (trace Sample.deployed) = [].
Proof. vm_compute. repeat split; reflexivity. Qed.

(** A later pass over [siteV2]: the page is unchanged and not sent again,
    the new script is uploaded, and the entry of the script that is gone
    is deleted, or tagged by the plugin configured to tag. *)
Example later_pass_requests :
  Key <$> allPuts (drop (length (trace Sample.deployed))
                     (trace (Sample.after
                               (@writeBundle Sample.host Sample.cleanGzipPlugin
                                  Sample.outDir Sample.siteV2) Sample.deployed)))
  = ["app/assets/new.js"; "app/fingerprints.json"]
  ∧ mutations (drop (length (trace Sample.deployed))
                 (trace (Sample.after
                           (@writeBundle Sample.host Sample.cleanGzipPlugin
                              Sample.outDir Sample.siteV2) Sample.deployed)))
    = [DeleteObject "site-bucket" "app/assets/app.js"]
  ∧ mutations (drop (length (trace Sample.deployedWithTag))
                 (trace (Sample.after
                           (@writeBundle Sample.host Sample.tagPlugin
                              Sample.outDir Sample.siteV2) Sample.deployedWithTag)))
    = [PutObjectTagging "site-bucket" "app/assets/app.js"
         [{| key := "stale"; value := "stale" |}]].
Proof. vm_compute. repeat split; reflexivity. Qed.

(** A pass over a site with a file named [__proto__]: the file is
    uploaded, the manifest written is empty, and [Object.prototype] is left
    with a [__processed]. *)
Example proto_pass :
  let w := Sample.after
             (@writeBundle Sample.host Sample.plainPlugin Sample.outDir
                Sample.siteWithProto) Sample.emptyWorld in
  Key <$> allPuts (trace w) = ["app/__proto__"; "app/fingerprints.json"]
  ∧ Body <$> manifestPuts (trace w) = [BodyString "{}"]
  ∧ polluted w = [KObject].
Proof. vm_compute. repeat split; reflexivity. Qed.

(** After it, in the same process, no entry is ever stale. *)
Example nothing_retired_after_proto :
  let w := Sample.after
             (@writeBundle Sample.host Sample.plainPlugin Sample.outDir
                Sample.siteWithProto) Sample.deployed in
  mutations (trace w) = []
  ∧ mutations
      (trace (Sample.after
                (@writeBundle Sample.host Sample.plainPlugin Sample.outDir Sample.siteV2)
                Sample.deployed))
    = [DeleteObject "site-bucket" "app/index";
       DeleteObject "site-bucket" "app/assets/app.js"].
Proof. vm_compute. repeat split; reflexivity. Qed.

(** ** Strings and paths *)

Lemma endsWith_cons (c : ascii) (s suf : string) :
  JS.endsWith (String c s) suf
  = if String.eqb (String c s) suf then true else JS.endsWith s suf.
Proof. reflexivity. Qed.

Lemma endsWith_nil (suf : string) :
  JS.endsWith "" suf = if String.eqb "" suf then true else false.
Proof. reflexivity. Qed.

Lemma endsWith_app (p suf : string) : JS.endsWith (p +:+ suf) suf = true.
Proof.
  induction p as [|c p IH].
  - change ("" +:+ suf) with suf. destruct suf as [|a suf].
    + reflexivity.
    + by rewrite endsWith_cons, String.eqb_refl.
  - change (String c p +:+ suf) with (String c (p +:+ suf)).
    rewrite endsWith_cons, IH. by destruct (String.eqb _ _).
Qed.

Lemma endsWith_inv (s suf : string) :
  JS.endsWith s suf = true → ∃ p, s = p +:+ suf.
Proof.
  induction s as [|c s IH].
  - rewrite endsWith_nil. destruct (String.eqb_spec "" suf) as [<-|]; [by exists ""|done].
  - rewrite endsWith_cons.
    destruct (String.eqb_spec (String c s) suf) as [<-|_].
    + by exists "".
    + intros [p ->]%IH. by exists (String c p).
Qed.

Lemma append_cons (c : ascii) (s t : string) :
  String c s +:+ t = String c (s +:+ t).
Proof. reflexivity. Qed.

Lemma append_nil_l (s : string) : "" +:+ s = s.
Proof. reflexivity. Qed.

Lemma length_append (s t : string) :
  String.length (s +:+ t) = String.length s + String.length t.
Proof.
  induction s as [|c s IH]; [done|].
  rewrite append_cons. simpl. by rewrite IH.
Qed.

Lemma append_assoc (s t u : string) : (s +:+ t) +:+ u = s +:+ t +:+ u.
Proof.
  induction s as [|c s IH]; [done|].
  by rewrite !append_cons, IH.
Qed.

Lemma append_inv_head (a s t : string) : a +:+ s = a +:+ t → s = t.
Proof.
  induction a as [|c a IH]; [done|]. rewrite !append_cons. intros [= E]. auto.
Qed.

Lemma append_nil_r (s : string) : s +:+ "" = s.
Proof. induction s as [|c s IH]; [done|]. by rewrite append_cons, IH. Qed.

Lemma take_app_length (p s : string) : JS.take (String.length p) (p +:+ s) = p.
Proof.
  induction p as [|c p IH]; [done|].
  rewrite append_cons. simpl. by rewrite IH.
Qed.

Lemma slice_0_neg_app (p suf : string) :
  JS.slice_0_neg (p +:+ suf) (String.length suf) = p.
Proof.
  unfold JS.slice_0_neg. rewrite length_append.
  replace (String.length p + String.length suf - String.length suf)
    with (String.length p) by lia.
  apply take_app_length.
Qed.

Lemma strip_prefix_app (p s : string) : Path.strip_prefix p (p +:+ s) = Some s.
Proof.
  induction p as [|c p IH]; [done|].
  rewrite append_cons. simpl. by rewrite Ascii.eqb_refl.
Qed.

(** The glob's absolute path leads back to the relative one. *)
Lemma relative_join (d r : string) : Path.relative d (d +:+ "/" +:+ r) = r.
Proof.
  unfold Path.relative.
  replace (d +:+ "/" +:+ r) with ((d +:+ "/") +:+ r)
    by apply append_assoc.
  by rewrite strip_prefix_app.
Qed.

Lemma has_slash_join (d r : string) : JS.has_slash (d +:+ "/" +:+ r) = true.
Proof.
  induction d as [|c d IH]; [done|].
  rewrite append_cons. simpl. rewrite IH. by destruct (Ascii.eqb c "/").
Qed.

(** Whether a path below a directory ends with a slash-free suffix is
    decided by its relative part. *)
Lemma endsWith_join (d r suf : string) :
  JS.has_slash suf = false →
  JS.endsWith (d +:+ "/" +:+ r) suf = JS.endsWith r suf.
Proof.
  intros Hsuf.
  assert (Hne : ∀ d', String.eqb (d' +:+ "/" +:+ r) suf = false).
  { intros d'. apply String.eqb_neq. intros E.
    pose proof (has_slash_join d' r) as Hs. rewrite E in Hs. congruence. }
  induction d as [|c d IH].
  - rewrite append_nil_l. change ("/" +:+ r) with (String "/" r).
    rewrite endsWith_cons. change (String "/" r) with ("" +:+ "/" +:+ r).
    by rewrite Hne.
  - rewrite append_cons, endsWith_cons, IH.
    change (String c (d +:+ "/" +:+ r)) with (String c d +:+ "/" +:+ r).
    by rewrite Hne.
Qed.

Lemma last_segment_join (acc d r : string) :
  Path.last_segment_from acc (d +:+ "/" +:+ r) = Path.last_segment_from "" r.
Proof.
  revert acc. induction d as [|c d IH]; intros acc; [done|].
  rewrite append_cons. simpl. destruct (Ascii.eqb c "/"); apply IH.
Qed.

(** The extension of a file below a directory is that of its relative path. *)
Lemma extname_join (d r : string) :
  Path.extname (d +:+ "/" +:+ r) = Path.extname r.
Proof. unfold Path.extname, Path.basename. by rewrite last_segment_join. Qed.

(** ** Running effectful code *)

Lemma bind_inr {A B} (c : M A) (k : A → M B) (w w' : World) (b : B) :
  bind c k w = (inr b, w') ↔ ∃ a w1, c w = (inr a, w1) ∧ k a w1 = (inr b, w').
Proof.
  unfold bind. split.
  - destruct (c w) as [[e|a] w1]; [done|]. intros Hk. by exists a, w1.
  - intros (a & w1 & -> & Hk). done.
Qed.

Lemma bind_run {A B} (c : M A) (k : A → M B) (w w1 : World) (a : A) :
  c w = (inr a, w1) → bind c k w = k a w1.
Proof. unfold bind. by intros ->. Qed.

Lemma bind_fail {A B} (c : M A) (k : A → M B) (w w1 : World) (e : Thrown) :
  c w = (inl e, w1) → bind c k w = (inl e, w1).
Proof. unfold bind. by intros ->. Qed.

Lemma send_trace (req : S3Request) (w w' : World) r :
  S3.send req w = (r, w') → trace w' = trace w ++ [EvS3 req].
Proof.
  unfold S3.send. destruct (faults w) as [|[e|] fs].
  - destruct (S3.service _ _ _) as [r' objs]. by intros [= _ <-].
  - by intros [= _ <-].
  - destruct (S3.service _ _ _) as [r' objs]. by intros [= _ <-].
Qed.

Lemma send_polluted (req : S3Request) (w : World) :
  polluted (S3.send req w).2 = polluted w.
Proof.
  unfold S3.send. destruct (faults w) as [|[e|] fs]; [|done|];
    by destruct (S3.service _ _ _).
Qed.

Lemma runs_ret {A} (a : A) (w : World) :
  runs (ret a) w [] (fun x w' => x = a ∧ w' = w).
Proof. exists []. simpl. by rewrite app_nil_r. Qed.

Lemma runs_emit (e : Event) (w : World) :
  runs (emit e) w [e] (fun _ w' => polluted w' = polluted w).
Proof. by exists [e]. Qed.

Lemma runs_bind {A B} (c : M A) (k : A → M B) (w : World) (P1 P2 : list Event)
    (Q1 : A → World → Prop) (Q2 : B → World → Prop) :
  runs c w P1 Q1 → (∀ a w1, Q1 a w1 → runs (k a) w1 P2 Q2) →
  runs (bind c k) w (P1 ++ P2) Q2.
Proof.
  intros (evs1 & Htr1 & Hr1) Hk. unfold runs, bind.
  destruct (c w) as [[e|a] w1]; simpl in *.
  - exists evs1. split; [done|]. by apply prefix_app_r.
  - destruct Hr1 as [-> Hq]. destruct (Hk a w1 Hq) as (evs2 & Htr2 & Hr2).
    exists (P1 ++ evs2). split; [by rewrite Htr2, Htr1, app_assoc|].
    destruct ((k a w1).1); [by apply prefix_app|].
    by destruct Hr2 as [-> ?].
Qed.

Lemma runs_post {A} (c : M A) (w : World) (P : list Event)
    (Q Q' : A → World → Prop) :
  runs c w P Q → (∀ a w', Q a w' → Q' a w') → runs c w P Q'.
Proof.
  intros (evs & Htr & Hr) HQ. exists evs.
  split; [done|]. destruct ((c w).1); [done|]. destruct Hr. auto.
Qed.

(** Code that adds [plan] to the trace whatever its outcome. *)
Lemma runs_exact {A} (c : M A) (w : World) (plan : list Event)
    (Q : A → World → Prop) :
  trace (c w).2 = trace w ++ plan →
  (∀ a, (c w).1 = inr a → Q a (c w).2) →
  runs c w plan Q.
Proof.
  intros Htr HQ. exists plan. split; [done|].
  destruct ((c w).1); [done|]. split; [done|]. by apply HQ.
Qed.

Lemma runs_inr {A} (c : M A) (plan : list Event) (post : A → World → Prop)
    (w w' : World) (a : A) :
  runs c w plan post → c w = (inr a, w') → trace w' = trace w ++ plan ∧ post a w'.
Proof.
  intros (evs & Htr & Hr) Hrun. rewrite Hrun in Htr, Hr.
  simpl in *. by destruct Hr as [-> ?].
Qed.

(** Unfolds a successful [bind] in a hypothesis. *)
Tactic Notation "inv_bind" hyp(H) "as" ident(a) ident(w) ident(H1) :=
  apply bind_inr in H as (a & w & H1 & H).

Section Runs.
Context `{Host}.
Variable p : Plugin.
Variable _outDir : string.

Lemma put_trace (k : string) (body : BodyData) (meta : PutObjectOptions)
    (w w' : World) r :
  Client.put (s3 (options p)) k body (Some meta) w = (r, w') →
  trace w' = trace w ++ [EvS3 (PutObject (putRequest p k body meta))].
Proof.
  unfold Client.put, bind.
  destruct (S3.send _ w) as [[e|a] w1] eqn:Hs; intros [= _ <-];
    by apply send_trace in Hs.
Qed.

Lemma del_trace (k : string) (w w' : World) r :
  Client.del (s3 (options p)) k w = (r, w') →
  trace w' = trace w
    ++ [EvS3 (DeleteObject (bucket (s3 (options p)))
                (Client.normalizeKey (s3 (options p)) k))].
Proof.
  unfold Client.del, bind.
  destruct (S3.send _ w) as [[e|a] w1] eqn:Hs; intros [= _ <-];
    by apply send_trace in Hs.
Qed.

Lemma tag_trace (k tk tv : string) (w w' : World) r :
  Client.tag (s3 (options p)) k tk tv w = (r, w') →
  trace w' = trace w
    ++ [EvS3 (PutObjectTagging (bucket (s3 (options p)))
                (Client.normalizeKey (s3 (options p)) k)
                [{| key := tk; value := tv |}])].
Proof.
  unfold Client.tag, try_catch, bind.
  destruct (S3.send _ w) as [[e|a] w1] eqn:Hs.
  - apply send_trace in Hs.
    destruct (is_error_named "NoSuchKey" e); by intros [= _ <-].
  - apply send_trace in Hs. by intros [= _ <-].
Qed.

Lemma get_trace (k : string) (w w' : World) r :
  Client.get (s3 (options p)) k w = (r, w') →
  trace w' = trace w
    ++ [EvS3 (GetObject (bucket (s3 (options p)))
                (Client.normalizeKey (s3 (options p)) k))].
Proof.
  unfold Client.get, try_catch, bind.
  destruct (S3.send _ w) as [[e|a] w1] eqn:Hs; apply send_trace in Hs.
  - destruct (_ || _); by intros [= _ <-].
  - destruct a; simpl; by intros [= _ <-].
Qed.

Lemma getJson_trace (k : string) (w w' : World) r :
  Client.getJson (s3 (options p)) k w = (r, w') →
  trace w' = trace w
    ++ [EvS3 (GetObject (bucket (s3 (options p)))
                (Client.normalizeKey (s3 (options p)) k))].
Proof.
  unfold Client.getJson, bind.
  destruct (Client.get _ k w) as [[e|a] w1] eqn:Hg; apply get_trace in Hg.
  - by intros [= _ <-].
  - destruct a as [b|]; [|by intros [= _ <-]].
    destruct (JSON_parse _); by intros [= _ <-].
Qed.

Lemma put_polluted (k : string) (body : BodyData) (meta : option PutObjectOptions)
    (w : World) :
  polluted (Client.put (s3 (options p)) k body meta w).2 = polluted w.
Proof.
  unfold Client.put, bind.
  match goal with |- context [S3.send ?r w] =>
    pose proof (send_polluted r w) as Hs; destruct (S3.send r w) as [[e|a] w1] end;
    done.
Qed.

Lemma del_polluted (k : string) (w : World) :
  polluted (Client.del (s3 (options p)) k w).2 = polluted w.
Proof.
  unfold Client.del, bind.
  match goal with |- context [S3.send ?r w] =>
    pose proof (send_polluted r w) as Hs; destruct (S3.send r w) as [[e|a] w1] end;
    done.
Qed.

Lemma tag_polluted (k tk tv : string) (w : World) :
  polluted (Client.tag (s3 (options p)) k tk tv w).2 = polluted w.
Proof.
  unfold Client.tag, try_catch, bind.
  match goal with |- context [S3.send ?r w] =>
    pose proof (send_polluted r w) as Hs; destruct (S3.send r w) as [[e|a] w1] end;
    [|done].
  by destruct (is_error_named "NoSuchKey" e).
Qed.

Lemma getJson_polluted (k : string) (w : World) :
  polluted (Client.getJson (s3 (options p)) k w).2 = polluted w.
Proof.
  unfold Client.getJson, Client.get, try_catch, bind.
  match goal with |- context [S3.send ?r w] =>
    pose proof (send_polluted r w) as Hs; destruct (S3.send r w) as [[e|a] w1] end.
  - by destruct (_ || _).
  - destruct a as [b|]; simpl; [|done]. by destruct (JSON_parse _).
Qed.

Lemma runs_put (k : string) (body : BodyData) (meta : PutObjectOptions) (w : World) :
  runs (Client.put (s3 (options p)) k body (Some meta)) w
    [EvS3 (PutObject (putRequest p k body meta))]
    (fun _ w' => polluted w' = polluted w).
Proof.
  apply runs_exact.
  - exact (put_trace k body meta w _ _ (surjective_pairing _)).
  - intros _ _. apply put_polluted.
Qed.

End Runs.

(** ** Reading the loaded manifest *)

Section Lookup.
Context `{Host}.

Lemma inherited_nil (k : Kind) (name : string) :
  inherited [] k name = if String.eqb name "__proto__" then ThePrototype k else Undefined.
Proof.
  unfold inherited, inherits. destruct (String.eqb name "__proto__"); [done|].
  by rewrite andb_false_r.
Qed.

(** What is found does not depend on the pollution, unless it is the
    [__processed] of a polluted prototype. *)
Lemma lookup_cases (pol : list Kind) (doc : Json) (name : string) :
  lookup pol doc name = lookup [] doc name
  ∨ (lookup pol doc name = Primitive KBoolean true
     ∧ lookup [] doc name = Undefined
     ∧ name = "__processed"
     ∧ ownProperty doc name = None).
Proof.
  unfold lookup. destruct (ownProperty doc name) as [f|] eqn:E; [by left|].
  rewrite inherited_nil. unfold inherited.
  destruct (String.eqb name "__proto__"); [by left|].
  destruct (String.eqb_spec name "__processed") as [->|]; [|by left].
  destruct (inherits pol (kind_of doc)); [|by left]. by right.
Qed.

Lemma hash_of_lookup (pol : list Kind) (doc : Json) (name : string) :
  hash_of (lookup pol doc name) = hash_of (lookup [] doc name).
Proof.
  destruct (lookup_cases pol doc name) as [->|(-> & -> & _)]; done.
Qed.

End Lookup.

Lemma runs_pollution {A} (k : list Kind → M A) (w : World) (P : list Event)
    (Q : A → World → Prop) :
  runs (k (polluted w)) w P Q → runs (bind pollution k) w P Q.
Proof. done. Qed.

Lemma runs_property `{Host} {A} (fp : Fingerprints) (name : string) (k : Found → M A)
    (w : World) (P : list Event) (Q : A → World → Prop) :
  runs (k (lookup (polluted w) (parsed fp) name)) w P Q →
  runs (bind (property fp name) k) w P Q.
Proof. done. Qed.

Section Loops.
Context `{Host}.
Variable p : Plugin.
Variable _outDir : string.

Lemma hashDiffers_changed (pol : list Kind) (doc : Json) (file : LocalFile) :
  hashDiffers (lookup pol doc (logicalName p _outDir file)) (hash file)
  = changed p _outDir doc file.
Proof.
  unfold hashDiffers, changed, recordedHash, hash. rewrite hash_of_lookup.
  destruct (hash_of _) as [s|]; simpl; [|done].
  destruct (String.eqb_spec s (sha256_hex (readFile file))) as [->|Hne].
  - by rewrite bool_decide_eq_true_2.
  - rewrite bool_decide_eq_false_2; [done|]. by intros [= ?].
Qed.

Lemma runs_gzipAsync (data : list byte) (o : option ZlibOptions) (w : World) :
  runs (gzipAsync data o) w [EvGzip data o]
    (fun z w' => zlib_gzip data o = inr z ∧ polluted w' = polluted w).
Proof.
  exists [EvGzip data o]. unfold gzipAsync, bind. simpl.
  destruct (zlib_gzip data o); simpl; [done|]. by repeat split.
Qed.

Lemma runs_send (name : string) (data : list byte) (meta : PutObjectOptions)
    (w : World) :
  runs (bind (Client.put (s3 (options p)) name (BodyBytes data) (Some meta))
          (fun _ => logger_info ("Uploaded: " +:+ name))) w
    [EvS3 (PutObject (putRequest p name (BodyBytes data) meta));
     EvLog ("Uploaded: " +:+ name)]
    (fun _ w' => polluted w' = polluted w).
Proof.
  apply (runs_bind _ _ _ [_] [_] _ _ (runs_put p name _ meta w)).
  intros _ w1 Hpol. apply (runs_post _ _ _ _ _ (runs_emit _ w1)).
  intros _ w2 Hpol2. congruence.
Qed.

(** A payload that can be made is sent; one that cannot stops the upload
    at the call to gzip. *)
Lemma runs_upload (file : LocalFile) (w : World) :
  runs (upload p (logicalName p _outDir file) file) w
    (uploadEvents p _outDir file)
    (fun _ w' => polluted w' = polluted w ∧ is_Some (assetPut p _outDir file)).
Proof.
  unfold upload, uploadEvents, assetPut, payload.
  destruct (gzips p file) eqn:Hgz.
  - destruct (zlib_gzip (readFile file) (gzip_params (options p))) as [e|z] eqn:Hz.
    + exists [EvGzip (readFile file) (gzip_params (options p))].
      unfold bind, gzipAsync. simpl. rewrite Hz. simpl. done.
    + apply (runs_bind _ _ _ [_; _] [_; _]
               (fun r w' => r = (z, withGzipEncoding (getFileMeta (path file)))
                            ∧ polluted w' = polluted w)).
      * apply (runs_bind _ _ _ [_] [_] _ _ (runs_gzipAsync _ _ w)).
        intros z' w1 [Hz' Hpol]. rewrite Hz in Hz'. injection Hz' as <-.
        apply (runs_bind _ _ _ [_] [] _ _ (runs_emit _ w1)).
        intros _ w2 Hpol2. apply (runs_post _ _ _ _ _ (runs_ret _ w2)).
        intros r w3 [-> ->]. split; [done|]. congruence.
      * intros r w1 [-> Hpol]. simpl.
        apply (runs_post _ _ _ _ _ (runs_send _ _ _ w1)).
        intros _ w2 Hpol2. split; [congruence|]. by eexists.
  - apply (runs_bind _ _ _ [] [_; _] _ _ (runs_ret _ w)).
    intros r w1 [-> ->]. simpl.
    apply (runs_post _ _ _ _ _ (runs_send _ _ _ w)).
    intros _ w2 Hpol2. split; [congruence|]. by eexists.
Qed.

(** Marking: what line 136 leaves of [fingerprints] and of the prototypes,
    when it does not throw. *)
Lemma runs_markProcessed (file : LocalFile) (fp : Fingerprints) (w : World) :
  runs (markProcessed (logicalName p _outDir file) fp) w []
    (fun fp' w' =>
       fp' = {| parsed := parsed fp;
                marked := markOne p _outDir (parsed fp) (marked fp) file |}
       ∧ polluted w' = polluteOne p _outDir (parsed fp) (polluted w) file).
Proof.
  exists []. unfold markProcessed, property, pollution, bind, ret, markOne, polluteOne.
  simpl. rewrite app_nil_r.
  destruct (lookup_cases (polluted w) (parsed fp) (logicalName p _outDir file))
    as [->|(-> & -> & _)]; [|simpl; by split].
  destruct (lookup [] (parsed fp) (logicalName p _outDir file)) as [|x|k t|k]; simpl.
  - split; [done|]. split; [done|]. by destruct fp.
  - destruct x; simpl; try done; try (by destruct fp);
      repeat match goal with |- context [if ?b then _ else _] => destruct b end;
      simpl; try done; by destruct fp.
  - destruct t; simpl; [done|]. split; [done|]. split; [done|]. by destruct fp.
  - split; [done|]. split; [done|]. by destruct fp.
Qed.

Lemma runs_fileStep (st : Fingerprints * FileFingerprintMap) (file : LocalFile)
    (w : World) :
  runs (fileStep p _outDir st file) w (fileEvents p _outDir (parsed st.1) file)
    (fun st' w' =>
       st' = ({| parsed := parsed st.1;
                 marked := markOne p _outDir (parsed st.1) (marked st.1) file |},
              assign (logicalName p _outDir file) (hash file) st.2)
       ∧ polluted w' = polluteOne p _outDir (parsed st.1) (polluted w) file
       ∧ (changed p _outDir (parsed st.1) file = true →
          is_Some (assetPut p _outDir file))).
Proof.
  unfold fileStep.
  apply (runs_bind _ _ _ [] _ _ _ (runs_markProcessed file st.1 w)).
  intros fp' w1 [-> Hpol].
  apply runs_property. cbn [parsed]. rewrite hashDiffers_changed.
  unfold fileEvents.
  destruct (changed p _outDir (parsed st.1) file).
  - rewrite <- (app_nil_r (uploadEvents _ _ _)).
    apply (runs_bind _ _ _ _ _ _ _ (runs_upload file w1)).
    intros [] w2 [Hpol2 Hsent].
    apply (runs_post _ _ _ _ _ (runs_ret _ w2)).
    intros st' w' [-> ->]. split; [done|]. split; [congruence|done].
  - apply (runs_bind _ _ _ [] [] _ _ (runs_ret tt w1)).
    intros [] w2 [_ ->].
    apply (runs_post _ _ _ _ _ (runs_ret _ w1)).
    intros st' w' [-> ->]. done.
Qed.

Lemma runs_forFiles (files : list LocalFile)
    (st : Fingerprints * FileFingerprintMap) (w : World) :
  runs (forFiles p _outDir files st) w
    (flat_map (fileEvents p _outDir (parsed st.1)) files)
    (fun st' w' =>
       st' = ({| parsed := parsed st.1;
                 marked := markAll p _outDir (parsed st.1) files (marked st.1) |},
              rebuild p _outDir files st.2)
       ∧ polluted w' = polluteAll p _outDir (parsed st.1) files (polluted w)
       ∧ Forall (fun f => changed p _outDir (parsed st.1) f = true →
                          is_Some (assetPut p _outDir f)) files).
Proof.
  revert st w. induction files as [|file rest IH]; intros st w; simpl.
  - apply (runs_post _ _ _ _ _ (runs_ret st w)).
    intros ? ? [-> ->]. split; [by destruct st as [[] ?]|]. done.
  - apply (runs_bind _ _ _ _ _ _ _ (runs_fileStep st file w)).
    intros st1 w1 (-> & Hpol & Hsent).
    apply (runs_post _ _ _ _ _
             (IH ({| parsed := parsed st.1;
                     marked := markOne p _outDir (parsed st.1) (marked st.1) file |},
                  assign (logicalName p _outDir file) (hash file) st.2) w1)).
    simpl. intros st' w' (-> & Hpol' & Hall). split; [done|].
    split; [by rewrite Hpol', Hpol|]. by constructor.
Qed.

Lemma runs_staleStep (fp : Fingerprints) (k : string) (w : World) :
  runs (staleStep p fp k) w
    (staleEvents p (polluted w) (parsed fp) (marked fp) k)
    (fun _ w' => polluted w' = polluted w).
Proof.
  unfold staleStep, staleEvents, retired, is_marked.
  apply runs_property, runs_pollution.
  destruct (reads_processed _ _ _) as [e|[|]].
  - exists []. simpl. by rewrite app_nil_r.
  - apply (runs_post _ _ _ _ _ (runs_ret tt w)). by intros ? ? [_ ->].
  - apply (runs_bind _ _ _ [_] [_] (fun _ w' => polluted w' = polluted w)).
    + unfold staleRequest. destruct (resolvedDeleteUseTag p) as [t|].
      * apply runs_exact.
        -- rewrite (tag_trace p _ _ _ w _ _ (surjective_pairing _)). by destruct t.
        -- intros _ _. apply tag_polluted.
      * apply runs_exact.
        -- by rewrite (del_trace p _ w _ _ (surjective_pairing _)).
        -- intros _ _. apply del_polluted.
    + intros _ w1 Hpol. apply (runs_post _ _ _ _ _ (runs_emit _ w1)).
      intros _ w2 Hpol2. congruence.
Qed.

Lemma runs_forStale (fp : Fingerprints) (keys : list string) (w : World) :
  runs (forStale p fp keys) w
    (flat_map (staleEvents p (polluted w) (parsed fp) (marked fp)) keys)
    (fun _ w' => polluted w' = polluted w).
Proof.
  revert w. induction keys as [|k rest IH]; intros w; simpl.
  - apply (runs_post _ _ _ _ _ (runs_ret tt w)). by intros ? ? [_ ->].
  - apply (runs_bind _ _ _ _ _ _ _ (runs_staleStep fp k w)). intros _ w1 Hpol.
    rewrite <- Hpol. apply (runs_post _ _ _ _ _ (IH w1)).
    intros _ w2 Hpol2. congruence.
Qed.

Lemma runs_syncFrom (doc : Json) (files : list LocalFile) (w : World) :
  runs (syncFrom p _outDir doc files) w
    (passEvents p _outDir (polluted w) doc files)
    (fun _ w' => allSent p _outDir doc files
                 ∧ polluted w' = polluteAll p _outDir doc files (polluted w)).
Proof.
  unfold syncFrom, passEvents, loopEvents. rewrite <- app_assoc.
  apply (runs_bind _ _ _ _ _ _ _
           (runs_forFiles files ({| parsed := doc; marked := [] |}, ∅) w)).
  intros st w1 (-> & Hpol & Hsent). simpl in *.
  apply runs_pollution. rewrite <- Hpol.
  apply (runs_bind _ _ _ _ _ _ _
           (runs_forStale {| parsed := doc;
                             marked := markAll p _outDir doc files [] |}
              (forIn (polluted w1) doc) w1)).
  intros _ w2 Hpol2.
  apply (runs_bind _ _ _ [_] [_] _ _ (runs_put p _ _ _ w2)).
  intros _ w3 Hpol3. apply (runs_post _ _ _ _ _ (runs_emit _ w3)).
  intros _ w4 Hpol4. split; [done|]. congruence.
Qed.

End Loops.

(** ** A whole pass *)

Section WholePass.
Context `{Host}.
Variable p : Plugin.
Variable _outDir : string.

Lemma syncFrom_ok (doc : Json) (files : list LocalFile) (w w' : World) :
  syncFrom p _outDir doc files w = (inr tt, w') →
  trace w' = trace w ++ passEvents p _outDir (polluted w) doc files
  ∧ allSent p _outDir doc files.
Proof.
  intros Hrun.
  destruct (runs_inr _ _ _ _ _ _ (runs_syncFrom p _outDir doc files w) Hrun)
    as (Htr & Hsent & _).
  done.
Qed.

(** Whatever its outcome, a pass that has loaded a manifest (or found
    none) then produces a prefix of [passEvents], and all of it when it
    runs to its end; a pass that fails to load stops there. *)
Lemma writeBundle_any (tree : list (string * list byte)) (w : World) :
  trace (Client.getJson (s3 (options p)) manifestKey w).2
  = trace w ++ [EvS3 (manifestGet p)]
  ∧ match (Client.getJson (s3 (options p)) manifestKey w).1 with
    | inr r =>
        ∃ evs,
          trace (writeBundle p _outDir tree w).2
          = trace (Client.getJson (s3 (options p)) manifestKey w).2 ++ evs
          ∧ match (writeBundle p _outDir tree w).1 with
            | inr _ =>
                evs = passEvents p _outDir (polluted w) (orEmpty r)
                        (getFiles _outDir tree)
            | inl _ =>
                evs `prefix_of` passEvents p _outDir (polluted w) (orEmpty r)
                                  (getFiles _outDir tree)
            end
    | inl e =>
        writeBundle p _outDir tree w
        = (inl e, (Client.getJson (s3 (options p)) manifestKey w).2)
    end.
Proof.
  split.
  { exact (getJson_trace p manifestKey w _ _ (surjective_pairing _)). }
  pose proof (getJson_polluted p manifestKey w) as Hpol.
  unfold writeBundle, bind.
  destruct (Client.getJson (s3 (options p)) manifestKey w) as [[e|r] w1];
    simpl in *; [done|].
  destruct (runs_syncFrom p _outDir (orEmpty r) (getFiles _outDir tree) w1)
    as (evs & Htr & Hr).
  rewrite Hpol in Hr.
  exists evs. split; [done|].
  destruct ((syncFrom p _outDir (orEmpty r) (getFiles _outDir tree) w1).1); [done|].
  by destruct Hr.
Qed.

(** A pass that runs to its end has loaded a manifest (or found none) and
    then produced exactly [passEvents]. *)
Lemma writeBundle_ok (tree : list (string * list byte)) (w w' : World) :
  writeBundle p _outDir tree w = (inr tt, w') →
  ∃ r w1,
    Client.getJson (s3 (options p)) manifestKey w = (inr r, w1)
    ∧ trace w1 = trace w ++ [EvS3 (manifestGet p)]
    ∧ trace w' = trace w1 ++ passEvents p _outDir (polluted w) (orEmpty r)
                               (getFiles _outDir tree)
    ∧ allSent p _outDir (orEmpty r) (getFiles _outDir tree).
Proof.
  unfold writeBundle. intros Hrun. inv_bind Hrun as r w1 Hload.
  exists r, w1. split; [done|].
  split; [by apply getJson_trace in Hload|].
  pose proof (getJson_polluted p manifestKey w) as Hpol.
  rewrite Hload in Hpol. simpl in Hpol. rewrite <- Hpol.
  by apply syncFrom_ok.
Qed.

End WholePass.

(** ** Runs without transport faults *)

Lemma send_faultFree (req : S3Request) (w : World) :
  faultFree w →
  ∃ w', S3.send req w = ((S3.service (may_list w) req (objects w)).1, w')
        ∧ objects w' = (S3.service (may_list w) req (objects w)).2
        ∧ may_list w' = may_list w
        ∧ polluted w' = polluted w
        ∧ faultFree w'.
Proof.
  unfold faultFree, S3.send. intros Hff.
  destruct (faults w) as [|[e|] fs] eqn:Hfs.
  - destruct (S3.service _ _ _) as [r objs]. eexists. split; [done|].
    simpl. by repeat split.
  - by inversion Hff.
  - destruct (S3.service _ _ _) as [r objs]. eexists. split; [done|].
    simpl. repeat split; try done. by inversion Hff.
Qed.

Lemma own_is_Some (k : string) (props : list (string * Json)) :
  k ∈ props.*1 → is_Some (own k props).
Proof.
  induction props as [|[n v] l IH]; simpl.
  - by intros ?%elem_of_nil.
  - intros Hin. destruct (String.eqb_spec n k) as [->|Hne]; [by eexists|].
    apply IH. by apply elem_of_cons in Hin as [->|].
Qed.

Lemma reads_processed_inl (pol : list Kind) (m : bool) (v : Found) (e : Thrown) :
  reads_processed pol m v = inl e → e = cannot_read.
Proof.
  destruct v as [|x| |]; simpl; try by intros [= <-].
  destruct x; simpl; try done; by intros [= <-].
Qed.

Section FaultFree.
Context `{Host}.
Variable p : Plugin.
Variable _outDir : string.

Lemma del_faultFree (k : string) (w : World) :
  faultFree w →
  ∃ w', Client.del (s3 (options p)) k w = (inr tt, w')
        ∧ objects w' = delete (Client.normalizeKey (s3 (options p)) k) (objects w)
        ∧ may_list w' = may_list w
        ∧ polluted w' = polluted w
        ∧ faultFree w'.
Proof.
  intros Hff. unfold Client.del.
  destruct (send_faultFree
              (DeleteObject (bucket (s3 (options p)))
                 (Client.normalizeKey (s3 (options p)) k)) w Hff)
    as (w' & Hs & Ho & Hl & Hp & Hff').
  exists w'. simpl in Hs, Ho. by rewrite (bind_run _ _ _ _ _ Hs).
Qed.

Lemma tag_faultFree (k tk tv : string) (w : World) :
  faultFree w →
  ∃ w', Client.tag (s3 (options p)) k tk tv w = (inr tt, w')
        ∧ may_list w' = may_list w
        ∧ polluted w' = polluted w
        ∧ faultFree w'.
Proof.
  intros Hff. unfold Client.tag, try_catch.
  destruct (send_faultFree
              (PutObjectTagging (bucket (s3 (options p)))
                 (Client.normalizeKey (s3 (options p)) k)
                 [{| key := tk; value := tv |}]) w Hff)
    as (w' & Hs & Ho & Hl & Hp & Hff').
  exists w'. simpl in Hs.
  destruct (objects w !! Client.normalizeKey (s3 (options p)) k) as [o|];
    simpl in Hs.
  - by rewrite (bind_run _ _ _ _ _ Hs).
  - by rewrite (bind_fail _ _ _ _ _ Hs).
Qed.

Lemma put_faultFree (k : string) (body : BodyData) (meta : option PutObjectOptions)
    (w : World) :
  faultFree w →
  ∃ w', Client.put (s3 (options p)) k body meta w = (inr tt, w')
        ∧ may_list w' = may_list w
        ∧ polluted w' = polluted w
        ∧ faultFree w'.
Proof.
  intros Hff. unfold Client.put.
  match goal with |- context [S3.send ?r] =>
    destruct (send_faultFree r w Hff) as (w' & Hs & Ho & Hl & Hp & Hff') end.
  exists w'. simpl in Hs. by rewrite (bind_run _ _ _ _ _ Hs).
Qed.

Lemma get_faultFree (k : string) (w : World) :
  faultFree w →
  ∃ w1, Client.get (s3 (options p)) k w
        = (inr ((fun o => body_bytes (Body (stored o)))
                <$> objects w !! Client.normalizeKey (s3 (options p)) k), w1)
        ∧ faultFree w1.
Proof.
  intros Hff. unfold Client.get, try_catch.
  destruct (send_faultFree
              (GetObject (bucket (s3 (options p)))
                 (Client.normalizeKey (s3 (options p)) k)) w Hff)
    as (w1 & Hs & _ & _ & _ & Hff1).
  exists w1. simpl in Hs.
  destruct (objects w !! Client.normalizeKey (s3 (options p)) k) as [o|];
    simpl in Hs.
  - by rewrite (bind_run _ _ _ _ _ Hs).
  - rewrite (bind_fail _ _ _ _ _ Hs). by destruct (may_list w).
Qed.

(** One turn of the stale loop ends as the reading of the marker does,
    whatever the bucket holds. *)
Lemma staleStep_faultFree (fp : Fingerprints) (k : string) (w : World) :
  faultFree w →
  ∃ w', staleStep p fp k w
        = (match reads_processed (polluted w) (is_marked fp k)
                   (lookup (polluted w) (parsed fp) k) with
           | inl e => inl e
           | inr _ => inr tt
           end, w')
        ∧ polluted w' = polluted w
        ∧ faultFree w'.
Proof.
  intros Hff. unfold staleStep, property, pollution, bind at 1 2 3, ret. simpl.
  destruct (reads_processed _ _ _) as [e|[|]]; [by exists w|by exists w|].
  assert (∃ w1, (match resolvedDeleteUseTag p with
                 | Some t => Client.tag (s3 (options p)) k (key t) (value t)
                 | None => Client.del (s3 (options p)) k
                 end) w = (inr tt, w1)
                ∧ polluted w1 = polluted w ∧ faultFree w1)
    as (w1 & Hr & Hp1 & Hff1).
  { destruct (resolvedDeleteUseTag p) as [t|].
    - destruct (tag_faultFree k (key t) (value t) w Hff) as (w1 & ? & _ & ? & ?).
      by exists w1.
    - destruct (del_faultFree k w Hff) as (w1 & ? & _ & _ & ? & ?). by exists w1. }
  rewrite (bind_run _ _ _ _ _ Hr). by eexists.
Qed.

Lemma forStale_outcome (fp : Fingerprints) (keys : list string) (w : World) :
  faultFree w →
  ∃ r w', forStale p fp keys w = (r, w')
          ∧ faultFree w'
          ∧ (r = inr tt ∨ r = inl cannot_read).
Proof.
  revert w. induction keys as [|k rest IH]; intros w Hff; simpl.
  { exists (inr tt), w. split; [done|]. split; [done|]. by left. }
  destruct (staleStep_faultFree fp k w Hff) as (w1 & Hr & _ & Hff1).
  destruct (reads_processed _ _ _) as [e|b] eqn:E.
  - rewrite (bind_fail _ _ _ _ _ Hr). exists (inl e), w1.
    split; [done|]. split; [done|]. right.
    by rewrite (reads_processed_inl _ _ _ _ E).
  - rewrite (bind_run _ _ _ _ _ Hr). by apply IH.
Qed.

(** What the stale loop visits in a manifest of objects can be read. *)
Lemma forIn_readable (pol : list Kind) (fp : Fingerprints) (k : string) :
  objectEntries (parsed fp) → k ∈ forIn pol (parsed fp) →
  ∃ b, reads_processed pol (is_marked fp k) (lookup pol (parsed fp) k) = inr b.
Proof.
  intros (props & Hdoc & Hobj) Hk. rewrite Hdoc in *.
  unfold forIn in Hk. apply elem_of_app in Hk as [Hk|Hk].
  - simpl in Hk. apply elem_of_remove_dups, own_is_Some in Hk as [v Hv].
    unfold lookup. simpl. rewrite Hv. simpl.
    pose proof (Hobj _ _ Hv) as Ho. destruct v; try done; by eexists.
  - destruct (inherits pol (kind_of (JObject props))) eqn:Hinh; simpl in Hk;
      [|by apply elem_of_nil in Hk].
    destruct (bool_decide _) eqn:Hown; simpl in Hk; [by apply elem_of_nil in Hk|].
    apply list_elem_of_singleton in Hk as ->.
    apply bool_decide_eq_false in Hown. simpl in Hown.
    unfold lookup. simpl.
    destruct (own "__processed" props) as [v|] eqn:Hv.
    + exfalso. apply Hown, elem_of_remove_dups.
      clear -Hv. induction props as [|[n x] l IH]; [done|]. simpl in *.
      destruct (String.eqb_spec n "__processed") as [->|]; [by left|].
      right. by apply IH.
    + simpl. unfold inherited. simpl. simpl in Hinh. rewrite Hinh. by eexists.
Qed.

Lemma forStale_faultFree (fp : Fingerprints) (keys : list string) (w : World) :
  faultFree w → objectEntries (parsed fp) → keys ⊆ forIn (polluted w) (parsed fp) →
  ∃ w', forStale p fp keys w = (inr tt, w') ∧ faultFree w'.
Proof.
  intros Hff Hobj. revert w Hff.
  induction keys as [|k rest IH]; intros w Hff Hsub; simpl; [by exists w|].
  destruct (staleStep_faultFree fp k w Hff) as (w1 & Hr & Hp1 & Hff1).
  destruct (forIn_readable (polluted w) fp k Hobj) as [b Hb].
  { apply Hsub. by left. }
  rewrite Hb in Hr. rewrite (bind_run _ _ _ _ _ Hr).
  apply IH; [done|]. rewrite Hp1. intros x Hx. apply Hsub. by right.
Qed.

(** An upload ends as the making of its payload does. *)
Lemma upload_faultFree (file : LocalFile) (w : World) :
  faultFree w →
  ∃ w', upload p (logicalName p _outDir file) file w
        = (match payload p file with inl e => inl e | inr _ => inr tt end, w')
        ∧ faultFree w'.
Proof.
  intros Hff. unfold upload, payload, gzipAsync.
  destruct (gzips p file).
  - unfold bind at 1 2 3. simpl.
    destruct (zlib_gzip (readFile file) (gzip_params (options p))) as [e|z]; simpl.
    + by eexists.
    + match goal with |- ∃ _, bind (Client.put _ ?n ?b ?m) _ ?w0 = _ ∧ _ =>
        destruct (put_faultFree n b m w0 Hff) as (w2 & Hput & _ & _ & Hff2) end.
      rewrite (bind_run _ _ _ _ _ Hput). by eexists.
  - unfold bind at 1. simpl.
    destruct (put_faultFree (logicalName p _outDir file) (BodyBytes (readFile file))
                (Some (getFileMeta (path file))) w Hff) as (w2 & Hput & _ & _ & Hff2).
    rewrite (bind_run _ _ _ _ _ Hput). by eexists.
Qed.

Lemma markProcessed_outcome (name : string) (fp : Fingerprints) (w : World) :
  ∃ r w', markProcessed name fp w = (r, w')
          ∧ faults w' = faults w
          ∧ match r with
            | inl e => e = cannot_create
            | inr fp' => parsed fp' = parsed fp
            end.
Proof.
  unfold markProcessed, property, pollution, bind, ret, throw, pollute. simpl.
  destruct (lookup _ _ _) as [|x|k t|k]; try by eexists _, _.
  - destruct (is_truthy x), (is_object x); by eexists _, _.
  - destruct t; by eexists _, _.
Qed.

(** In a manifest of objects every entry can be marked, and so can the
    prototype; only an inherited [__processed] cannot. *)
Lemma markProcessed_faultFree (name : string) (fp : Fingerprints) (w : World) :
  objectEntries (parsed fp) →
  (name = "__processed" → name ∈ ownKeys (parsed fp)) →
  ∃ fp' w', markProcessed name fp w = (inr fp', w')
            ∧ faults w' = faults w ∧ parsed fp' = parsed fp.
Proof.
  intros (props & Hdoc & Hobj) Hname.
  unfold markProcessed, property, pollution, bind, ret, throw, pollute. simpl.
  unfold lookup. rewrite Hdoc in *. simpl.
  destruct (own name props) as [v|] eqn:Hv; simpl.
  - rewrite (Hobj _ _ Hv). destruct (is_truthy v); by eexists _, _.
  - unfold inherited. destruct (String.eqb name "__proto__"); [by eexists _, _|].
    destruct (String.eqb_spec name "__processed") as [E|_]; [|by eexists _, _].
    exfalso. simpl in Hname.
    apply Hname, elem_of_remove_dups, own_is_Some in E as [x Hx]. congruence.
Qed.

Lemma fileStep_outcome (st : Fingerprints * FileFingerprintMap) (file : LocalFile)
    (w : World) :
  faultFree w →
  ∃ r w', fileStep p _outDir st file w = (r, w')
          ∧ faultFree w'
          ∧ match r with
            | inl e => ownFailure p [file] e
            | inr st' => parsed st'.1 = parsed st.1
            end.
Proof.
  intros Hff. unfold fileStep.
  destruct (markProcessed_outcome (logicalName p _outDir file) st.1 w)
    as (r & w1 & Hm & Hf & Hr).
  assert (faultFree w1) as Hff1 by (unfold faultFree; by rewrite Hf).
  destruct r as [e|fp'].
  - rewrite (bind_fail _ _ _ _ _ Hm). exists (inl e), w1.
    split; [done|]. split; [done|]. right. by left.
  - rewrite (bind_run _ _ _ _ _ Hm).
    unfold property, pollution, bind at 1 2, ret. simpl.
    destruct (hashDiffers _ _).
    + destruct (upload_faultFree file w1 Hff1) as (w2 & Hup & Hff2).
      destruct (payload p file) as [e|z] eqn:Hpay.
      * rewrite (bind_fail _ _ _ _ _ Hup). exists (inl e), w2.
        split; [done|]. split; [done|]. right. right. exists file.
        unfold payload in Hpay. split; [by left|].
        destruct (gzips p file); [done|discriminate Hpay].
      * rewrite (bind_run _ _ _ _ _ Hup). by eexists (inr _), w2.
    + by eexists (inr _), w1.
Qed.

Lemma fileStep_faultFree (st : Fingerprints * FileFingerprintMap) (file : LocalFile)
    (w : World) :
  faultFree w → objectEntries (parsed st.1) →
  (logicalName p _outDir file = "__processed" →
   "__processed" ∈ ownKeys (parsed st.1)) →
  (changed p _outDir (parsed st.1) file = true → is_Some (assetPut p _outDir file)) →
  ∃ st' w', fileStep p _outDir st file w = (inr st', w')
            ∧ faultFree w' ∧ parsed st'.1 = parsed st.1.
Proof.
  intros Hff Hobj Hname Hsent. unfold fileStep.
  destruct (markProcessed_faultFree (logicalName p _outDir file) st.1 w Hobj)
    as (fp' & w1 & Hm & Hf & Hp).
  { intros E. rewrite E. by apply Hname. }
  assert (faultFree w1) as Hff1 by (unfold faultFree; by rewrite Hf).
  rewrite (bind_run _ _ _ _ _ Hm).
  unfold property, pollution, bind at 1 2, ret. simpl.
  rewrite Hp, hashDiffers_changed.
  destruct (changed p _outDir (parsed st.1) file).
  - destruct (upload_faultFree file w1 Hff1) as (w2 & Hup & Hff2).
    destruct (Hsent eq_refl) as [i Hi].
    unfold assetPut in Hi. destruct (payload p file); [done|].
    rewrite (bind_run _ _ _ _ _ Hup). by eexists _, w2.
  - by eexists _, w1.
Qed.

Lemma ownFailure_mono (files files' : list LocalFile) (e : Thrown) :
  files ⊆ files' → ownFailure p files e → ownFailure p files' e.
Proof.
  intros Hsub [->|[->|(f & Hin & Hgz & He)]]; [by left|by right; left|].
  right. right. exists f. split; [by apply Hsub|done].
Qed.

Lemma forFiles_outcome (files : list LocalFile)
    (st : Fingerprints * FileFingerprintMap) (w : World) :
  faultFree w →
  ∃ r w', forFiles p _outDir files st w = (r, w')
          ∧ faultFree w'
          ∧ match r with
            | inl e => ownFailure p files e
            | inr st' => parsed st'.1 = parsed st.1
            end.
Proof.
  revert st w. induction files as [|file rest IH]; intros st w Hff; simpl.
  - by exists (inr st), w.
  - destruct (fileStep_outcome st file w Hff) as ([e|st1] & w1 & Hstep & Hff1 & Hr).
    + rewrite (bind_fail _ _ _ _ _ Hstep). exists (inl e), w1.
      split; [done|]. split; [done|].
      apply (ownFailure_mono [file]); [|done].
      intros x ->%list_elem_of_singleton. by left.
    + rewrite (bind_run _ _ _ _ _ Hstep).
      destruct (IH st1 w1 Hff1) as (r & w2 & Hrun & Hff2 & Hr2).
      exists r, w2. split; [done|]. split; [done|].
      destruct r as [e|st2]; [|congruence].
      apply (ownFailure_mono rest); [|done]. intros x Hx. by right.
Qed.

Lemma forFiles_faultFree (files : list LocalFile)
    (st : Fingerprints * FileFingerprintMap) (w : World) :
  faultFree w → objectEntries (parsed st.1) →
  ("__processed" ∈ logicalName p _outDir <$> files →
   "__processed" ∈ ownKeys (parsed st.1)) →
  allSent p _outDir (parsed st.1) files →
  ∃ st' w', forFiles p _outDir files st w = (inr st', w')
            ∧ faultFree w' ∧ parsed st'.1 = parsed st.1.
Proof.
  revert st w. induction files as [|file rest IH];
    intros st w Hff Hobj Hnames Hpay; simpl.
  - by exists st, w.
  - rewrite fmap_cons in Hnames.
    apply Forall_cons in Hpay as [Hp1 Hpay].
    destruct (fileStep_faultFree st file w Hff Hobj) as (st1 & w1 & Hstep & Hff1 & Hp);
      [intros E; apply Hnames; rewrite <- E; by left|done|].
    rewrite (bind_run _ _ _ _ _ Hstep).
    destruct (IH st1 w1 Hff1) as (st2 & w2 & Hrun & Hff2 & Hp2);
      [by rewrite Hp|rewrite Hp; intros ?; apply Hnames; by right|by rewrite Hp|].
    exists st2, w2. split; [done|]. split; [done|]. congruence.
Qed.

(** With no fault of the transport, a pass that has its manifest fails
    only by itself, whatever the bucket holds. *)
Lemma syncFrom_outcome (doc : Json) (files : list LocalFile) (w : World) :
  faultFree w →
  match (syncFrom p _outDir doc files w).1 with
  | inl e => ownFailure p files e
  | inr _ => True
  end.
Proof.
  intros Hff. unfold syncFrom.
  destruct (forFiles_outcome files ({| parsed := doc; marked := [] |}, ∅) w Hff)
    as ([e|st] & w1 & Hf & Hff1 & Hr).
  { by rewrite (bind_fail _ _ _ _ _ Hf). }
  rewrite (bind_run _ _ _ _ _ Hf). unfold pollution, bind at 1. simpl.
  destruct (forStale_outcome st.1 (forIn (polluted w1) doc) w1 Hff1)
    as (r & w2 & Hs & Hff2 & Hout).
  destruct Hout as [->| ->].
  - rewrite (bind_run _ _ _ _ _ Hs).
    destruct (put_faultFree manifestKey (BodyString (JSON_stringify st.2))
                (Some manifestMeta) w2 Hff2) as (w3 & Hput & _).
    by rewrite (bind_run _ _ _ _ _ Hput).
  - rewrite (bind_fail _ _ _ _ _ Hs). by left.
Qed.

(** With no fault of the transport, a pass runs to its end from a manifest
    whose entries are objects, when a local file named [__processed] (if
    any) has an entry and every file that changed has a payload. *)
Lemma syncFrom_faultFree (doc : Json) (files : list LocalFile) (w : World) :
  faultFree w → objectEntries doc →
  ("__processed" ∈ logicalName p _outDir <$> files → "__processed" ∈ ownKeys doc) →
  allSent p _outDir doc files →
  ∃ w', syncFrom p _outDir doc files w = (inr tt, w') ∧ faultFree w'.
Proof.
  intros Hff Hobj Hnames Hpay. unfold syncFrom.
  destruct (forFiles_faultFree files ({| parsed := doc; marked := [] |}, ∅) w
              Hff Hobj Hnames Hpay) as (st & w1 & Hf & Hff1 & Hp).
  rewrite (bind_run _ _ _ _ _ Hf). unfold pollution, bind at 1. simpl.
  simpl in Hp. rewrite <- Hp.
  destruct (forStale_faultFree st.1 (forIn (polluted w1) (parsed st.1)) w1 Hff1)
    as (w2 & Hs & Hff2); [by rewrite Hp|done|].
  rewrite (bind_run _ _ _ _ _ Hs).
  destruct (put_faultFree manifestKey (BodyString (JSON_stringify st.2))
              (Some manifestMeta) w2 Hff2) as (w3 & Hput & _ & _ & Hff3).
  rewrite (bind_run _ _ _ _ _ Hput). by eexists.
Qed.

End FaultFree.

(** ** Reading the trace of a pass *)

Lemma omap_flat_map_nil {A B C} (f : B → option C) (g : A → list B) (l : list A) :
  (∀ x, omap f (g x) = []) → omap f (flat_map g l) = [].
Proof.
  intros Hg. induction l as [|x l IH]; simpl; [done|].
  by rewrite omap_app, Hg, IH.
Qed.

Lemma omap_flat_map_filter {A B C} (f : B → option C) (g : A → list B)
    (P : A → bool) (h : A → C) (l : list A) :
  (∀ x, omap f (g x) = if P x then [h x] else []) →
  omap f (flat_map g l) = h <$> List.filter P l.
Proof.
  intros Hg. induction l as [|x l IH]; simpl; [done|].
  rewrite omap_app, Hg, IH. by destruct (P x).
Qed.

Lemma omap_flat_map_omap {A B C} (f : B → option C) (g : A → list B)
    (P : A → bool) (h : A → option C) (l : list A) :
  (∀ x, omap f (g x) = if P x then option_list (h x) else []) →
  omap f (flat_map g l) = omap h (List.filter P l).
Proof.
  intros Hg. induction l as [|x l IH]; simpl; [done|].
  rewrite omap_app, Hg, IH. destruct (P x); [|done]. simpl.
  by destruct (h x).
Qed.

(** Where every element has an image, [omap] keeps them all. *)
Lemma omap_all_Some {A B} (f : A → option B) (l : list A) :
  Forall (fun x => is_Some (f x)) l → Some <$> omap f l = f <$> l.
Proof.
  induction 1 as [|x l [y Hy] _ IH]; simpl; [done|].
  rewrite Hy. simpl. f_equal. exact IH.
Qed.

Lemma elem_of_omap_prefix {A B} (f : A → option B) (l1 l2 : list A) (y : B) :
  l1 `prefix_of` l2 → y ∈ omap f l1 → y ∈ omap f l2.
Proof.
  intros [k ->] Hy. rewrite omap_app. apply elem_of_app. by left.
Qed.

Lemma filter_bool_decide {A} (P : A → Prop) `{!∀ x, Decision (P x)} (l : list A) :
  List.filter (fun x => bool_decide (P x)) l = filter P l.
Proof.
  induction l as [|x l IH]; simpl; [done|].
  rewrite filter_cons. destruct (decide (P x)) as [Hx|Hx].
  - rewrite bool_decide_eq_true_2 by done. by rewrite IH.
  - rewrite bool_decide_eq_false_2 by done. done.
Qed.

Lemma filter_ext_elem {A} (P Q : A → bool) (l : list A) :
  (∀ x, x ∈ l → P x = Q x) → List.filter P l = List.filter Q l.
Proof.
  induction l as [|x l IH]; intros Hext; simpl; [done|].
  rewrite (Hext x) by apply list_elem_of_here.
  rewrite IH; [done|]. intros y Hy. apply Hext. by apply list_elem_of_further.
Qed.

Lemma flat_map_nil {A B} (f : A → list B) (l : list A) :
  (∀ x, x ∈ l → f x = []) → flat_map f l = [].
Proof.
  induction l as [|x l IH]; intros Hf; simpl; [done|].
  rewrite (Hf x) by apply list_elem_of_here.
  apply IH. intros y Hy. apply Hf. by apply list_elem_of_further.
Qed.

Section Reading.
Context `{Host}.
Variable p : Plugin.
Variable _outDir : string.

Lemma assetPut_body (file : LocalFile) (i : PutObjectInput) :
  assetPut p _outDir file = Some i → ∃ b, Body i = BodyBytes b.
Proof.
  unfold assetPut. destruct (payload p file) as [e|data]; [done|].
  intros [= <-]. by eexists.
Qed.

Lemma assetPut_key (file : LocalFile) (i : PutObjectInput) :
  assetPut p _outDir file = Some i →
  Key i = Client.normalizeKey (s3 (options p)) (logicalName p _outDir file).
Proof.
  unfold assetPut. destruct (payload p file) as [e|data]; [done|].
  by intros [= <-].
Qed.

Lemma assetPuts_uploadEvents (file : LocalFile) :
  assetPuts (uploadEvents p _outDir file) = option_list (assetPut p _outDir file).
Proof.
  unfold uploadEvents, assetPuts. rewrite omap_app.
  replace (omap _ (if gzips p file then _ else _)) with (@nil PutObjectInput)
    by (destruct (gzips p file); [|done]; by destruct (zlib_gzip _ _)).
  destruct (assetPut p _outDir file) as [i|] eqn:E; [|done].
  destruct (assetPut_body file i E) as [b Hb]. simpl. by rewrite Hb.
Qed.

Lemma allPuts_uploadEvents (file : LocalFile) :
  allPuts (uploadEvents p _outDir file) = option_list (assetPut p _outDir file).
Proof.
  unfold uploadEvents, allPuts. rewrite omap_app.
  replace (omap _ (if gzips p file then _ else _)) with (@nil PutObjectInput)
    by (destruct (gzips p file); [|done]; by destruct (zlib_gzip _ _)).
  by destruct (assetPut p _outDir file).
Qed.

Lemma staleEvents_no_put (f : Event → option PutObjectInput)
    (pol : list Kind) (doc : Json) (marks : list string) (k : string) :
  (∀ e, (∀ i, e ≠ EvS3 (PutObject i)) → f e = None) →
  omap f (staleEvents p pol doc marks k) = [].
Proof.
  intros Hf. unfold staleEvents, staleRequest.
  destruct (retired _ _ _ _); [|done].
  destruct (resolvedDeleteUseTag p); simpl; rewrite !Hf; done.
Qed.

Lemma assetPuts_loopEvents (pol : list Kind) (doc : Json) (files : list LocalFile) :
  assetPuts (loopEvents p _outDir pol doc files)
  = omap (assetPut p _outDir) (List.filter (changed p _outDir doc) files).
Proof.
  unfold loopEvents, assetPuts. rewrite omap_app.
  rewrite (omap_flat_map_omap _ _ (changed p _outDir doc) (assetPut p _outDir)).
  - rewrite omap_flat_map_nil; [by rewrite app_nil_r|].
    intros k. apply staleEvents_no_put. intros e Hne.
    destruct e as [r| |]; try done. destruct r; try done.
    exfalso. by eapply Hne.
  - intros f. unfold fileEvents. destruct (changed _ _ _ f); [|done].
    apply assetPuts_uploadEvents.
Qed.

Lemma assetPuts_passEvents (pol : list Kind) (doc : Json) (files : list LocalFile) :
  assetPuts (passEvents p _outDir pol doc files)
  = omap (assetPut p _outDir) (List.filter (changed p _outDir doc) files).
Proof.
  unfold passEvents. unfold assetPuts at 1. rewrite omap_app.
  fold (assetPuts (loopEvents p _outDir pol doc files)).
  rewrite assetPuts_loopEvents. simpl. by rewrite app_nil_r.
Qed.

Lemma allPuts_loopEvents (pol : list Kind) (doc : Json) (files : list LocalFile) :
  allPuts (loopEvents p _outDir pol doc files)
  = omap (assetPut p _outDir) (List.filter (changed p _outDir doc) files).
Proof.
  unfold loopEvents, allPuts. rewrite omap_app.
  rewrite (omap_flat_map_omap _ _ (changed p _outDir doc) (assetPut p _outDir)).
  - rewrite omap_flat_map_nil; [by rewrite app_nil_r|].
    intros k. apply staleEvents_no_put. intros e Hne.
    destruct e as [r| |]; try done. destruct r; try done.
    exfalso. by eapply Hne.
  - intros f. unfold fileEvents. destruct (changed _ _ _ f); [|done].
    apply allPuts_uploadEvents.
Qed.

Lemma gzipCalls_passEvents (pol : list Kind) (doc : Json) (files : list LocalFile) :
  gzipCalls (passEvents p _outDir pol doc files)
  = (fun f => (readFile f, gzip_params (options p)))
    <$> List.filter (fun f => changed p _outDir doc f && gzips p f) files.
Proof.
  unfold passEvents, loopEvents, gzipCalls. rewrite !omap_app.
  rewrite (omap_flat_map_filter _ _
             (fun f => changed p _outDir doc f && gzips p f)
             (fun f => (readFile f, gzip_params (options p)))).
  - rewrite omap_flat_map_nil; [simpl; by rewrite !app_nil_r|].
    intros k. unfold staleEvents, staleRequest.
    destruct (retired _ _ _ _); [|done].
    by destruct (resolvedDeleteUseTag p).
  - intros f. unfold fileEvents, uploadEvents.
    destruct (changed _ _ _ f); [|done]. rewrite omap_app.
    replace (omap _ (match assetPut p _outDir f with Some _ => _ | None => _ end))
      with (@nil (list byte * option ZlibOptions))
      by (by destruct (assetPut p _outDir f)).
    rewrite app_nil_r.
    destruct (gzips p f); [|done]. simpl. by destruct (zlib_gzip _ _).
Qed.

Lemma manifestPuts_loopEvents (pol : list Kind) (doc : Json) (files : list LocalFile) :
  manifestPuts (loopEvents p _outDir pol doc files) = [].
Proof.
  unfold loopEvents, manifestPuts. rewrite omap_app.
  rewrite !omap_flat_map_nil; [done| |].
  - intros k. apply staleEvents_no_put. intros e Hne.
    destruct e as [r| |]; try done. destruct r; try done.
    exfalso. by eapply Hne.
  - intros f. unfold fileEvents, uploadEvents.
    destruct (changed _ _ _ f); [|done]. rewrite omap_app.
    replace (omap _ (if gzips p f then _ else _)) with (@nil PutObjectInput)
      by (destruct (gzips p f); [|done]; by destruct (zlib_gzip _ _)).
    destruct (assetPut p _outDir f) as [i|] eqn:E; [|done].
    destruct (assetPut_body f i E) as [b Hb]. simpl. by rewrite Hb.
Qed.

Lemma manifestPuts_passEvents (pol : list Kind) (doc : Json) (files : list LocalFile) :
  manifestPuts (passEvents p _outDir pol doc files)
  = [manifestPut p (newManifest p _outDir files)].
Proof.
  unfold passEvents. unfold manifestPuts at 1. rewrite omap_app.
  fold (manifestPuts (loopEvents p _outDir pol doc files)).
  by rewrite manifestPuts_loopEvents.
Qed.

Lemma mutations_passEvents (pol : list Kind) (doc : Json) (files : list LocalFile) :
  mutations (passEvents p _outDir pol doc files)
  = staleRequest p <$> staleNames p _outDir pol doc files.
Proof.
  unfold passEvents, loopEvents, mutations, staleNames. rewrite !omap_app.
  rewrite omap_flat_map_nil.
  - rewrite (omap_flat_map_filter _ _
               (retired (polluteAll p _outDir doc files pol) doc
                  (markAll p _outDir doc files []))
               (staleRequest p)).
    + simpl. by rewrite !app_nil_r.
    + intros k. unfold staleEvents, staleRequest.
      destruct (retired _ _ _ _); [|done].
      by destruct (resolvedDeleteUseTag p).
  - intros f. unfold fileEvents, uploadEvents.
    destruct (changed _ _ _ f); [|done]. rewrite omap_app.
    replace (omap _ (if gzips p f then _ else _)) with (@nil S3Request)
      by (destruct (gzips p f); [|done]; by destruct (zlib_gzip _ _)).
    by destruct (assetPut p _outDir f).
Qed.

End Reading.

(** ** The new manifest *)

Section Manifest.
Context `{Host}.
Variable p : Plugin.
Variable _outDir : string.

Lemma rebuild_lookup (files : list LocalFile) (acc : FileFingerprintMap) (n : string) :
  rebuild p _outDir files acc !! n
  = if String.eqb n "__proto__" then acc !! n
    else match last (named p _outDir n files) with
         | Some f => Some (fingerprintOf f)
         | None => acc !! n
         end.
Proof.
  revert acc. induction files as [|x l IH]; intros acc.
  { simpl. by destruct (String.eqb n "__proto__"). }
  unfold rebuild, named in *. simpl. rewrite IH. unfold assign.
  destruct (String.eqb_spec n "__proto__") as [E|Hn].
  - destruct (String.eqb_spec (logicalName p _outDir x) "__proto__") as [|Hne]; [done|].
    rewrite lookup_insert_ne; [done|]. by rewrite E.
  - destruct (String.eqb_spec (logicalName p _outDir x) n) as [E|Hne].
    + rewrite last_cons. destruct (last _); [done|].
      destruct (String.eqb_spec (logicalName p _outDir x) "__proto__") as [E'|_];
        [congruence|].
      by rewrite E, lookup_insert_eq.
    + destruct (last _); [done|].
      destruct (String.eqb (logicalName p _outDir x) "__proto__"); [done|].
      by rewrite lookup_insert_ne.
Qed.

(** The new manifest holds, under each name other than [__proto__], the
    record of the last file that goes by it, and nothing else. *)
Lemma newManifest_lookup (files : list LocalFile) (n : string) :
  newManifest p _outDir files !! n
  = if String.eqb n "__proto__" then None
    else fingerprintOf <$> last (named p _outDir n files).
Proof.
  unfold newManifest. rewrite rebuild_lookup.
  destruct (String.eqb n "__proto__"); [done|]. by destruct (last _).
Qed.


Lemma named_nil_iff (n : string) (files : list LocalFile) :
  named p _outDir n files = [] ↔ n ∉ logicalName p _outDir <$> files.
Proof.
  unfold named. induction files as [|x l IH]; simpl.
  - split; [|done]. intros _. apply not_elem_of_nil.
  - rewrite not_elem_of_cons.
    destruct (String.eqb_spec (logicalName p _outDir x) n) as [<-|Hne].
    + split; [done|]. by intros [? _].
    + rewrite IH. split; [by intros ?; split|by intros [_ ?]].
Qed.

Lemma newManifest_dom (files : list LocalFile) (n : string) :
  is_Some (newManifest p _outDir files !! n)
  ↔ n ∈ logicalName p _outDir <$> files ∧ n ≠ "__proto__".
Proof.
  rewrite newManifest_lookup.
  destruct (String.eqb_spec n "__proto__") as [->|Hn].
  { split; [by intros [? [=]]|by intros [_ ?]]. }
  destruct (decide (n ∈ logicalName p _outDir <$> files)) as [Hin|Hout].
  - split; [done|]. intros _.
    destruct (last (named p _outDir n files)) eqn:E; [by eexists|].
    apply last_None in E. by apply named_nil_iff in E.
  - split; [|by intros [? _]]. apply named_nil_iff in Hout. rewrite Hout. simpl.
    by intros [? [=]].
Qed.

(** When no two files share a name, each file is recorded under its own,
    unless that is [__proto__]. *)
Lemma newManifest_file (files : list LocalFile) (file : LocalFile) :
  NoDup (logicalName p _outDir <$> files) →
  file ∈ files →
  logicalName p _outDir file ≠ "__proto__" →
  newManifest p _outDir files !! logicalName p _outDir file = Some (fingerprintOf file).
Proof.
  intros Hnd Hin Hn. rewrite newManifest_lookup.
  destruct (String.eqb_spec (logicalName p _outDir file) "__proto__"); [done|].
  assert (named p _outDir (logicalName p _outDir file) files = [file]) as ->; [|done].
  clear Hn n.
  unfold named. induction files as [|x l IH]; [by apply elem_of_nil in Hin|].
  apply NoDup_cons in Hnd as [Hx Hnd]. simpl in *.
  apply elem_of_cons in Hin as [<-|Hin].
  - rewrite String.eqb_refl. f_equal.
    apply (named_nil_iff (logicalName p _outDir file) l), Hx.
  - destruct (String.eqb_spec (logicalName p _outDir x) (logicalName p _outDir file))
      as [E|_]; [|by apply IH].
    exfalso. apply Hx. rewrite E. by apply list_elem_of_fmap_2.
Qed.

(** What a pass that runs to its end wrote is the manifest of its files. *)
Lemma wroteManifest_newManifest (tree : list (string * list byte)) (w w' : World) :
  writeBundle p _outDir tree w = (inr tt, w') →
  wroteManifest p (newManifest p _outDir (getFiles _outDir tree)) w w'.
Proof.
  intros Hrun.
  destruct (writeBundle_ok p _outDir tree w w' Hrun) as (r & w1 & _ & Hget & Htr & _).
  exists ([EvS3 (manifestGet p)]
          ++ passEvents p _outDir (polluted w) (orEmpty r) (getFiles _outDir tree)).
  split; [by rewrite Htr, Hget, <- app_assoc|].
  unfold manifestPuts. rewrite omap_app. simpl.
  apply manifestPuts_passEvents.
Qed.

End Manifest.

(** ** Marks and pollution *)

Section Marks.
Context `{Host}.
Variable p : Plugin.
Variable _outDir : string.

Lemma lookup_ThePrototype (pol : list Kind) (doc : Json) (name : string) (k : Kind) :
  lookup pol doc name = ThePrototype k → name = "__proto__".
Proof.
  unfold lookup, ownProperty, inherited.
  destruct doc as [| | |s|items|props]; simpl;
    try (destruct (String.eqb_spec name "__proto__") as [->|]; [done|];
         by destruct (_ && _)).
  - destruct (bool_decide _); [done|]. destruct (String.eqb name "length"); [done|].
    destruct (String.eqb_spec name "__proto__") as [->|]; [done|].
    by destruct (_ && _).
  - destruct (element name items); [done|].
    destruct (String.eqb name "length"); [done|].
    destruct (String.eqb_spec name "__proto__") as [->|]; [done|].
    by destruct (_ && _).
  - destruct (own name props); [done|]. simpl.
    destruct (String.eqb_spec name "__proto__") as [->|]; [done|].
    by destruct (_ && _).
Qed.

Lemma polluteAll_id (doc : Json) (files : list LocalFile) (pol : list Kind) :
  "__proto__" ∉ logicalName p _outDir <$> files →
  polluteAll p _outDir doc files pol = pol.
Proof.
  revert pol. induction files as [|f l IH]; intros pol Hn; [done|].
  rewrite fmap_cons in Hn. apply not_elem_of_cons in Hn as [Hf Hl].
  unfold polluteAll in *. simpl. rewrite IH by done.
  unfold polluteOne.
  destruct (lookup [] doc (logicalName p _outDir f)) eqn:E; try done.
  by apply lookup_ThePrototype in E.
Qed.

(** The names marked after the file loop: those of the local files whose
    entry is an object. *)
Lemma markAll_elem (doc : Json) (files : list LocalFile) (marks : list string)
    (k : string) :
  k ∈ markAll p _outDir doc files marks
  ↔ k ∈ marks
    ∨ (k ∈ logicalName p _outDir <$> files
       ∧ ∃ v, lookup [] doc k = Value v ∧ is_object v = true).
Proof.
  revert marks. induction files as [|f l IH]; intros marks.
  { simpl. split; [by left|]. intros [|[Hin _]]; [done|].
    by apply elem_of_nil in Hin. }
  unfold markAll in *. rewrite fmap_cons. cbn [foldl]. rewrite IH. unfold markOne.
  split.
  - intros [Hk|[Hin Hv]]; [|right; split; [by right|done]].
    destruct (lookup [] doc (logicalName p _outDir f)) as [|v| |] eqn:E;
      try by left.
    destruct (is_object v) eqn:Ho; [|by left].
    apply elem_of_cons in Hk as [->|Hk]; [|by left].
    right. split; [by left|]. by exists v.
  - intros [Hk|[Hin (v & Hv & Ho)]].
    + left. destruct (lookup [] doc (logicalName p _outDir f)) as [|x| |];
        try done. destruct (is_object x); [by right|done].
    + apply elem_of_cons in Hin as [->|Hin]; [|right; split; [done|by exists v]].
      left. rewrite Hv, Ho. by left.
Qed.

Lemma own_elem (k : string) (props : list (string * Json)) :
  is_Some (own k props) ↔ k ∈ props.*1.
Proof.
  split; [|apply own_is_Some].
  induction props as [|[n v] l IH]; simpl; [by intros [? [=]]|].
  destruct (String.eqb_spec n k) as [->|Hne]; [by left|].
  intros Hs. right. by apply IH.
Qed.

(** With untouched prototypes and no local file named [__proto__], and a
    manifest whose entries are objects without a marker of their own, the
    stale loop retires the entries that no local file goes by. *)
Lemma staleNames_unmarked (doc : Json) (files : list LocalFile) :
  unmarkedEntries doc →
  "__proto__" ∉ logicalName p _outDir <$> files →
  staleNames p _outDir [] doc files
  = filter (fun k => k ∉ logicalName p _outDir <$> files) (ownKeys doc).
Proof.
  intros (props & -> & Hentries) Hproto. unfold staleNames.
  rewrite (polluteAll_id _ _ _ Hproto). unfold forIn. simpl. rewrite app_nil_r.
  rewrite <- filter_bool_decide. apply filter_ext_elem.
  intros k Hk. apply elem_of_remove_dups, own_elem in Hk as [v Hv].
  destruct (Hentries _ _ Hv) as (q & -> & Hq).
  unfold retired, lookup. simpl. rewrite Hv. simpl. rewrite Hq.
  unfold inherits. simpl. rewrite orb_false_r.
  destruct (decide (k ∈ logicalName p _outDir <$> files)) as [Hin|Hout].
  - rewrite (bool_decide_eq_false_2 (k ∉ _)) by (by intros ?).
    rewrite bool_decide_eq_true_2; [done|].
    apply markAll_elem. right. split; [done|]. exists (JObject q).
    unfold lookup. simpl. by rewrite Hv.
  - rewrite (bool_decide_eq_true_2 (k ∉ _)) by done.
    rewrite bool_decide_eq_false_2; [done|].
    intros [Hm|[Hin _]]%markAll_elem; [by apply elem_of_nil in Hm|done].
Qed.

End Marks.

(** ** A pass over what the last one left *)

Section Idempotence.
Context `{Host}.
Variable p : Plugin.
Variable _outDir : string.

Lemma isManifest_lookup (pol : list Kind) (doc : Json) (m : FileFingerprintMap)
    (n : string) (fp : FileFingerprint) :
  isManifest doc m → m !! n = Some fp → lookup pol doc n = Value (entryOf fp).
Proof.
  intros (props & -> & Hprops) Hn. unfold lookup. simpl.
  by rewrite Hprops, Hn.
Qed.

Lemma unchanged_after_rebuild (doc : Json) (files : list LocalFile) (file : LocalFile) :
  isManifest doc (newManifest p _outDir files) →
  NoDup (logicalName p _outDir <$> files) →
  "__proto__" ∉ logicalName p _outDir <$> files →
  file ∈ files →
  changed p _outDir doc file = false.
Proof.
  intros Hdoc Hnd Hproto Hin. unfold changed, recordedHash.
  rewrite (isManifest_lookup [] doc _ _ (fingerprintOf file) Hdoc).
  - simpl. by rewrite String.eqb_refl.
  - apply newManifest_file; [done|done|].
    intros E. apply Hproto. rewrite <- E. by apply list_elem_of_fmap_2.
Qed.

Lemma no_stale_after_rebuild (pol : list Kind) (doc : Json) (files : list LocalFile)
    (k : string) :
  isManifest doc (newManifest p _outDir files) →
  k ∈ forIn pol doc →
  retired pol doc (markAll p _outDir doc files []) k = false.
Proof.
  intros Hdoc Hk. pose proof Hdoc as (props & -> & Hprops).
  unfold forIn in Hk. apply elem_of_app in Hk as [Hk|Hk].
  - simpl in Hk. apply elem_of_remove_dups, own_elem in Hk as [v Hv].
    pose proof Hv as Hv'. rewrite Hprops in Hv'.
    destruct (newManifest p _outDir files !! k) as [fp|] eqn:E; [|done].
    injection Hv' as <-.
    unfold retired, lookup. simpl. rewrite Hv. simpl.
    rewrite bool_decide_eq_true_2; [done|].
    apply markAll_elem. right. split.
    + apply (newManifest_dom p _outDir files k). by eexists.
    + exists (entryOf fp). unfold lookup. simpl. by rewrite Hv.
  - destruct (inherits pol (kind_of (JObject props))) eqn:Hinh; simpl in Hk;
      [|by apply elem_of_nil in Hk].
    destruct (bool_decide _) eqn:Hown; simpl in Hk; [by apply elem_of_nil in Hk|].
    apply list_elem_of_singleton in Hk as ->.
    apply bool_decide_eq_false in Hown. simpl in Hown.
    unfold retired, lookup. simpl.
    destruct (own "__processed" props) as [v|] eqn:Hv.
    + exfalso. apply Hown, elem_of_remove_dups, own_elem. by eexists.
    + simpl. unfold inherited. simpl. simpl in Hinh. rewrite Hinh. simpl.
      unfold inherits in *. apply orb_prop in Hinh as [Hi|Hi]; rewrite Hi;
        by rewrite orb_true_r.
Qed.

Lemma passEvents_rebuilt (pol : list Kind) (doc : Json) (files : list LocalFile) :
  isManifest doc (newManifest p _outDir files) →
  NoDup (logicalName p _outDir <$> files) →
  "__proto__" ∉ logicalName p _outDir <$> files →
  passEvents p _outDir pol doc files
  = [EvS3 (PutObject (manifestPut p (newManifest p _outDir files)));
     EvLog "Deployed"].
Proof.
  intros Hdoc Hnd Hproto. unfold passEvents, loopEvents.
  rewrite !flat_map_nil; [done| |].
  - intros k Hk. unfold staleEvents. by rewrite no_stale_after_rebuild.
  - intros f Hf. unfold fileEvents. by rewrite (unchanged_after_rebuild doc files).
Qed.

End Idempotence.

(** ** Documents in the format the plugin writes *)

Lemma own_fmap_inv {A} (g : A → Json) (l : list (string * A)) (k : string) (v : Json) :
  own k ((fun e => (e.1, g e.2)) <$> l) = Some v → ∃ x, (k, x) ∈ l ∧ v = g x.
Proof.
  induction l as [|[n x] l IH]; simpl; [done|].
  destruct (String.eqb_spec n k) as [->|Hne].
  - intros [= <-]. exists x. split; [by left|done].
  - intros (y & Hin & ->)%IH. exists y. split; [by right|done].
Qed.

Lemma own_fmap_NoDup {A} (g : A → Json) (l : list (string * A)) (k : string) (x : A) :
  NoDup l.*1 → (k, x) ∈ l → own k ((fun e => (e.1, g e.2)) <$> l) = Some (g x).
Proof.
  induction l as [|[n y] l IH]; simpl; [by intros _ ?%elem_of_nil|].
  intros [Hn Hnd]%NoDup_cons [[= -> ->]|Hin]%elem_of_cons.
  - by rewrite String.eqb_refl.
  - destruct (String.eqb_spec n k) as [->|Hne]; [|by apply IH].
    exfalso. apply Hn. apply list_elem_of_fmap. by exists (k, x).
Qed.

Lemma isManifest_documentOf (m : FileFingerprintMap) : isManifest (documentOf m) m.
Proof.
  eexists. split; [done|]. intros n.
  destruct (m !! n) as [fp|] eqn:E; simpl.
  - apply (own_fmap_NoDup entryOf); [apply NoDup_fst_map_to_list|].
    by apply elem_of_map_to_list.
  - destruct (own n _) as [v|] eqn:Hv; [|done].
    apply (own_fmap_inv entryOf) in Hv as (x & Hin & _).
    apply elem_of_map_to_list in Hin. congruence.
Qed.

Lemma isManifest_unmarked (doc : Json) (m : FileFingerprintMap) :
  isManifest doc m → unmarkedEntries doc.
Proof.
  intros (props & -> & Hprops). exists props. split; [done|].
  intros k v Hv. rewrite Hprops in Hv.
  destruct (m !! k) as [fp|]; [|done]. injection Hv as <-. by eexists.
Qed.

Lemma unmarked_objectEntries (doc : Json) : unmarkedEntries doc → objectEntries doc.
Proof.
  intros (props & -> & Hprops). exists props. split; [done|].
  intros k v Hv. by destruct (Hprops k v Hv) as (q & -> & _).
Qed.

(** ** Keys ([Client.normalizeKey]) *)

Lemma dropTrailingSlashes_id (s : string) :
  JS.endsWith s "/" = false → dropTrailingSlashes s = s.
Proof.
  induction s as [|c s IH]; [done|].
  rewrite endsWith_cons.
  destruct (String.eqb_spec (String c s) "/") as [|Hne]; [done|].
  intros Hs. simpl. rewrite (IH Hs).
  destruct (Ascii.eqb_spec c "/") as [->|]; [|done].
  destruct (String.eqb_spec s "") as [->|]; [|done]. done.
Qed.

Lemma prefix_nil (s : string) : String.prefix "" s = true.
Proof. by destruct s. Qed.

Lemma startsWith_cons (c a : ascii) (s q : string) :
  JS.startsWith (String c s) (String a q)
  = Ascii.eqb c a && String.prefix q s.
Proof.
  unfold JS.startsWith. cbn [String.prefix].
  destruct (ascii_dec a c) as [->|Hne].
  - by rewrite Ascii.eqb_refl.
  - destruct (Ascii.eqb_spec c a) as [->|]; done.
Qed.

(** With a prefix that does not end in a slash and a key that does not
    start with two, the key is the prefix, one slash, and the key. *)
Lemma normalizeKey_one_slash (o : S3Options) (k : string) :
  JS.endsWith (prefix o) "/" = false →
  JS.startsWith k "//" = false →
  Client.normalizeKey o k = joinedByOneSlash (prefix o) k.
Proof.
  intros Hp Hk. unfold Client.normalizeKey, joinedByOneSlash.
  rewrite (dropTrailingSlashes_id _ Hp). f_equal.
  destruct k as [|c k]; [done|].
  rewrite startsWith_cons. rewrite startsWith_cons in Hk.
  change (dropLeadingSlashes (String c k))
    with (if Ascii.eqb c "/" then dropLeadingSlashes k else String c k).
  destruct (Ascii.eqb_spec c "/") as [->|_]; simpl in *; [|done].
  rewrite prefix_nil. destruct k as [|c' k]; [done|].
  change (String.prefix "/" (String c' k)) with (JS.startsWith (String c' k) "/") in Hk.
  rewrite startsWith_cons, prefix_nil in Hk.
  change (dropLeadingSlashes (String c' k))
    with (if Ascii.eqb c' "/" then dropLeadingSlashes k else String c' k).
  destruct (Ascii.eqb c' "/"); simpl in *; done.
Qed.

Lemma normalizeKey_one_slash_witness :
  Client.normalizeKey (Sample.s3Options "app") "assets/app.js"
  = joinedByOneSlash (prefix (Sample.s3Options "app")) "assets/app.js".
Proof.
  apply (normalizeKey_one_slash (Sample.s3Options "app") "assets/app.js");
    reflexivity.
Defined.

(** C7 (as the code has it).  A configured prefix that ends with a slash
    is joined to the key by two slashes: for the prefix [assets/] and the
    logical key [index.html], [normalizeKey] yields [assets//index.html],
    where exactly one separating slash would give [assets/index.html]. *)
Theorem normalizeKey_trailing_slash_prefix :
  Client.normalizeKey (Sample.s3Options "assets/") "index.html"
    = "assets//index.html"
  ∧ joinedByOneSlash (prefix (Sample.s3Options "assets/")) "index.html"
    = "assets/index.html".
Proof. split; reflexivity. Qed.

(** ** Fetching ([Client.get], [Client.getJson]) *)

(** C5, amended.  [Client.get] yields an absent result exactly when the
    store operation fails with an error named [NoSuchKey] or
    [AccessDenied], and throws any other failure on; [Client.getJson]
    passes absence on and throws the parse error when the bytes are not
    JSON.  For the pass: a manifest that does not parse aborts
    [writeBundle] with that error straight after the fetch; an absent one
    makes it run from the empty mapping, and so does one whose text is the
    JSON [null]; any other value is what the pass runs from, as it was
    parsed. *)
Theorem fetch_absence_and_parse `{Host} (p : Plugin) (_outDir : string)
    (tree : list (string * list byte)) (k : string) (w w' : World) :
  let o := s3 (options p) in
  let absent e :=
    is_error_named "NoSuchKey" e || is_error_named "AccessDenied" e in
  (Client.get o k w = (inr None, w')
   ↔ ∃ e, S3.send (GetObject (bucket o) (Client.normalizeKey o k)) w = (inl e, w')
          ∧ absent e = true)
  ∧ (∀ e, S3.send (GetObject (bucket o) (Client.normalizeKey o k)) w = (inl e, w') →
          absent e = false →
          Client.get o k w = (inl e, w'))
  ∧ (Client.get o k w = (inr None, w') → Client.getJson o k w = (inr None, w'))
  ∧ (∀ b e, Client.get o k w = (inr (Some b), w') →
            JSON_parse (string_of_list_byte b) = inl e →
            Client.getJson o k w = (inl e, w'))
  ∧ (∀ b v, Client.get o k w = (inr (Some b), w') →
            JSON_parse (string_of_list_byte b) = inr v →
            Client.getJson o k w = (inr (Some v), w'))
  ∧ (∀ b e, Client.get o manifestKey w = (inr (Some b), w') →
            JSON_parse (string_of_list_byte b) = inl e →
            writeBundle p _outDir tree w = (inl e, w'))
  ∧ (Client.get o manifestKey w = (inr None, w') →
     writeBundle p _outDir tree w
     = syncFrom p _outDir (JObject []) (getFiles _outDir tree) w')
  ∧ (∀ b, Client.get o manifestKey w = (inr (Some b), w') →
          JSON_parse (string_of_list_byte b) = inr JNull →
          writeBundle p _outDir tree w
          = syncFrom p _outDir (JObject []) (getFiles _outDir tree) w')
  ∧ (∀ b v, Client.get o manifestKey w = (inr (Some b), w') →
            JSON_parse (string_of_list_byte b) = inr v →
            v ≠ JNull →
            writeBundle p _outDir tree w
            = syncFrom p _outDir v (getFiles _outDir tree) w').
Proof.
  intros o absent. subst o.
  assert (Hjson : ∀ k0 r, Client.get (s3 (options p)) k0 w = (inr r, w') →
            Client.getJson (s3 (options p)) k0 w
            = match r with
              | None => (inr None, w')
              | Some b =>
                  match JSON_parse (string_of_list_byte b) with
                  | inr v => (inr (Some v), w')
                  | inl e => (inl e, w')
                  end
              end).
  { intros k0 r Hg. unfold Client.getJson. rewrite (bind_run _ _ _ _ _ Hg).
    destruct r as [b|]; [|done]. by destruct (JSON_parse _). }
  assert (Hpass : ∀ b v, Client.get (s3 (options p)) manifestKey w = (inr (Some b), w') →
            JSON_parse (string_of_list_byte b) = inr v →
            writeBundle p _outDir tree w
            = syncFrom p _outDir (orEmpty (Some v)) (getFiles _outDir tree) w').
  { intros b v Hg Hp. unfold writeBundle.
    assert (Client.getJson (s3 (options p)) manifestKey w = (inr (Some v), w')) as Hj
      by (by rewrite (Hjson _ _ Hg), Hp).
    by rewrite (bind_run _ _ _ _ _ Hj). }
  split; [split|].
  - unfold Client.get, try_catch, bind.
    destruct (S3.send _ w) as [[e|r] w1].
    + destruct (is_error_named "NoSuchKey" e || is_error_named "AccessDenied" e) eqn:E.
      * intros [= <-]. by exists e.
      * unfold throw. intros [=].
    + destruct r as [b|]; unfold Client.transformToByteArray, ret, throw; simpl; intros [=].
  - intros (e & Hs & Habs). unfold Client.get, try_catch, bind. rewrite Hs.
    fold (absent e). by rewrite Habs.
  - split; [|split; [|split; [|split; [|split; [|split; [|split]]]]]].
    + intros e Hs Habs. unfold Client.get, try_catch, bind. rewrite Hs.
      fold (absent e). by rewrite Habs.
    + intros Hg. by rewrite (Hjson _ _ Hg).
    + intros b e Hg Hp. by rewrite (Hjson _ _ Hg), Hp.
    + intros b v Hg Hp. by rewrite (Hjson _ _ Hg), Hp.
    + intros b e Hg Hp. unfold writeBundle.
      apply bind_fail. by rewrite (Hjson _ _ Hg), Hp.
    + intros Hg. unfold writeBundle.
      by rewrite (bind_run _ _ _ _ None (Hjson _ _ Hg)).
    + intros b Hg Hp. by rewrite (Hpass b JNull Hg Hp).
    + intros b v Hg Hp Hv. rewrite (Hpass b v Hg Hp). by destruct v.
Qed.

Lemma fetch_absence_and_parse_witness :
  @writeBundle Sample.host Sample.cleanGzipPlugin Sample.outDir Sample.site
    Sample.emptyWorld
  = @syncFrom Sample.host Sample.cleanGzipPlugin Sample.outDir (JObject [])
      (getFiles Sample.outDir Sample.site)
      (@Client.get (s3 (options Sample.cleanGzipPlugin)) manifestKey
         Sample.emptyWorld).2
  ∧ @writeBundle Sample.host Sample.cleanGzipPlugin Sample.outDir Sample.site
      Sample.corruptWorld
    = (inl (ErrorObj "SyntaxError" "Unexpected token in JSON"),
       (@Client.get (s3 (options Sample.cleanGzipPlugin)) manifestKey
          Sample.corruptWorld).2)
  ∧ @writeBundle Sample.host Sample.cleanGzipPlugin Sample.outDir Sample.site
      Sample.nullWorld
    = @syncFrom Sample.host Sample.cleanGzipPlugin Sample.outDir (JObject [])
        (getFiles Sample.outDir Sample.site)
        (@Client.get (s3 (options Sample.cleanGzipPlugin)) manifestKey
           Sample.nullWorld).2.
Proof.
  split; [|split].
  - apply (@fetch_absence_and_parse Sample.host Sample.cleanGzipPlugin Sample.outDir
             Sample.site manifestKey Sample.emptyWorld).
    vm_compute; reflexivity.
  - apply (proj1 (proj2 (proj2 (proj2 (proj2 (proj2
             (@fetch_absence_and_parse Sample.host Sample.cleanGzipPlugin Sample.outDir
                Sample.site manifestKey Sample.corruptWorld
                (@Client.get (s3 (options Sample.cleanGzipPlugin)) manifestKey
                   Sample.corruptWorld).2)))))) (Sample.bytes "{ not json"));
      vm_compute; reflexivity.
  - apply (proj1 (proj2 (proj2 (proj2 (proj2 (proj2 (proj2 (proj2
             (@fetch_absence_and_parse Sample.host Sample.cleanGzipPlugin Sample.outDir
                Sample.site manifestKey Sample.nullWorld
                (@Client.get (s3 (options Sample.cleanGzipPlugin)) manifestKey
                   Sample.nullWorld).2)))))))) (Sample.bytes "null"));
      vm_compute; reflexivity.
Defined.

(** C5 fails as stated.  A manifest whose text is [null] parses, and
    [?? {}] makes the empty mapping of it: the pass then runs as on a first
    deployment, with a manifest that was there. *)
Lemma null_manifest_read_as_empty : ¬ onlyAbsenceAsStated.
Proof.
  intros Hclaim.
  destruct (Hclaim Sample.host Sample.cleanGzipPlugin (Some JNull) Sample.nullWorld
              (@Client.getJson Sample.host (s3 (options Sample.cleanGzipPlugin))
                 manifestKey Sample.nullWorld).2) as [E|E].
  - vm_compute; reflexivity.
  - reflexivity.
  - discriminate E.
  - discriminate E.
Qed.

(** ** Deleting and tagging ([Client.del], [Client.tag]) *)

(** C6.  Deleting an object that is not there succeeds and leaves the
    bucket as it was; tagging returns normally whenever the store answers
    [NoSuchKey], in particular for an object that is not there.  With no
    failure of the transport and whatever the bucket holds, the stale loop
    ends normally or with the [TypeError] of reading an entry that is
    [null], and runs to its end over a manifest whose entries are objects;
    the whole pass after the manifest is loaded fails only by itself (an
    entry that is no object, gzip refusing its options), never on an object
    that is not there.  [del] has no handler of its own: it relies on the
    store's DeleteObject succeeding on a missing key. *)
Theorem not_found_during_mutation `{Host} (p : Plugin) (_outDir : string) :
  let o := s3 (options p) in
  (∀ k w, faultFree w → objects w !! Client.normalizeKey o k = None →
          ∃ w', Client.del o k w = (inr tt, w') ∧ objects w' = objects w)
  ∧ (∀ k tk tv w w1 e,
       S3.send (PutObjectTagging (bucket o) (Client.normalizeKey o k)
                  [{| key := tk; value := tv |}]) w = (inl e, w1) →
       is_error_named "NoSuchKey" e = true →
       Client.tag o k tk tv w = (inr tt, w1))
  ∧ (∀ k tk tv w, faultFree w → objects w !! Client.normalizeKey o k = None →
          ∃ w', Client.tag o k tk tv w = (inr tt, w') ∧ objects w' = objects w)
  ∧ (∀ fingerprints keys w, faultFree w →
          (forStale p fingerprints keys w).1 = inr tt
          ∨ (forStale p fingerprints keys w).1 = inl cannot_read)
  ∧ (∀ fingerprints keys w, faultFree w →
          objectEntries (parsed fingerprints) →
          keys ⊆ forIn (polluted w) (parsed fingerprints) →
          ∃ w', forStale p fingerprints keys w = (inr tt, w'))
  ∧ (∀ fingerprints files w, faultFree w →
          match (syncFrom p _outDir fingerprints files w).1 with
          | inl e => ownFailure p files e
          | inr _ => True
          end).
Proof.
  intros o. subst o. repeat split.
  - intros k w Hff Habs.
    destruct (del_faultFree p k w Hff) as (w' & Hr & Ho & _).
    exists w'. split; [done|]. rewrite Ho. by apply delete_id.
  - intros k tk tv w w1 e Hs He. unfold Client.tag, try_catch.
    rewrite (bind_fail _ _ _ _ _ Hs). by rewrite He.
  - intros k tk tv w Hff Habs. unfold Client.tag, try_catch.
    destruct (send_faultFree
                (PutObjectTagging (bucket (s3 (options p)))
                   (Client.normalizeKey (s3 (options p)) k)
                   [{| key := tk; value := tv |}]) w Hff)
      as (w' & Hs & Ho & _).
    simpl in Hs, Ho. rewrite Habs in Hs, Ho. simpl in Hs, Ho.
    exists w'. by rewrite (bind_fail _ _ _ _ _ Hs).
  - intros fp keys w Hff.
    destruct (forStale_outcome p fp keys w Hff) as (r & w' & Hr & _ & Hout).
    rewrite Hr. simpl. destruct Hout as [->| ->]; [by left|by right].
  - intros fp keys w Hff Hobj Hsub.
    destruct (forStale_faultFree p fp keys w Hff Hobj Hsub) as (w' & Hr & _).
    by exists w'.
  - intros doc files w Hff. by apply syncFrom_outcome.
Qed.

Lemma not_found_during_mutation_witness :
  (∃ w', @Client.del (s3 (options Sample.plainPlugin)) "old.js" Sample.emptyWorld
         = (inr tt, w')
         ∧ objects w' = objects Sample.emptyWorld)
  ∧ (∃ w', @Client.tag (s3 (options Sample.tagPlugin)) "old.js" "stale" "stale"
             Sample.emptyWorld
           = (inr tt, w')
           ∧ objects w' = objects Sample.emptyWorld).
Proof.
  split.
  - apply (proj1 (@not_found_during_mutation Sample.host Sample.plainPlugin
                    Sample.outDir));
      [constructor|reflexivity].
  - apply (proj1 (proj2 (proj2 (@not_found_during_mutation Sample.host
                                   Sample.tagPlugin Sample.outDir))));
      [constructor|reflexivity].
Defined.

(** ** What a pass uploads *)

(** C2.  In a pass that runs to its end, the asset uploads are, in order,
    those of the local files that changed: the files for which the loaded
    manifest has no entry under the logical name, or an entry whose hash is
    not the SHA-256 hex digest of the current bytes.  Each of them is sent,
    and a file whose recorded hash is its current hash is neither uploaded
    nor compressed: gzip is called exactly for the changed files that are
    sent compressed. *)
Theorem upload_iff_changed `{Host} (p : Plugin) (_outDir : string)
    (tree : list (string * list byte)) (r : option Json)
    (w w1 w' : World) :
  Client.getJson (s3 (options p)) manifestKey w = (inr r, w1) →
  writeBundle p _outDir tree w = (inr tt, w') →
  ∃ evs,
    trace w' = trace w1 ++ evs
    ∧ Some <$> assetPuts evs
      = assetPut p _outDir
        <$> List.filter (changed p _outDir (orEmpty r)) (getFiles _outDir tree)
    ∧ gzipCalls evs
      = (fun f => (readFile f, gzip_params (options p)))
        <$> List.filter (fun f => changed p _outDir (orEmpty r) f && gzips p f)
              (getFiles _outDir tree).
Proof.
  intros Hload Hrun.
  destruct (writeBundle_ok p _outDir tree w w' Hrun)
    as (r' & w1' & Hload' & _ & Htr & Hsent).
  rewrite Hload in Hload'. injection Hload' as <- <-.
  eexists. split; [exact Htr|]. split.
  - rewrite assetPuts_passEvents. apply omap_all_Some.
    apply Forall_forall. intros f Hf.
    apply list_elem_of_In, filter_In in Hf as [Hf Hc].
    apply list_elem_of_In in Hf.
    by apply (proj1 (Forall_forall _ _) Hsent f Hf).
  - apply gzipCalls_passEvents.
Qed.

Lemma upload_iff_changed_witness :
  ∃ evs,
    trace (Sample.after
             (@writeBundle Sample.host Sample.cleanGzipPlugin Sample.outDir Sample.siteV2)
             Sample.deployed)
    = trace (@Client.getJson Sample.host (s3 (options Sample.cleanGzipPlugin))
               manifestKey Sample.deployed).2 ++ evs
    ∧ Some <$> assetPuts evs
      = @assetPut Sample.host Sample.cleanGzipPlugin Sample.outDir
        <$> List.filter
              (@changed Sample.host Sample.cleanGzipPlugin Sample.outDir
                 (orEmpty (Some (documentOf Sample.deployedManifest))))
              (getFiles Sample.outDir Sample.siteV2)
    ∧ gzipCalls evs
      = (fun f => (readFile f, gzip_params (options Sample.cleanGzipPlugin)))
        <$> List.filter
              (fun f =>
                 @changed Sample.host Sample.cleanGzipPlugin Sample.outDir
                   (orEmpty (Some (documentOf Sample.deployedManifest))) f
                 && gzips Sample.cleanGzipPlugin f)
              (getFiles Sample.outDir Sample.siteV2).
Proof.
  apply (@upload_iff_changed Sample.host Sample.cleanGzipPlugin Sample.outDir
           Sample.siteV2 (Some (documentOf Sample.deployedManifest))
           Sample.deployed);
    vm_compute; reflexivity.
Defined.

(** ** The manifest a pass writes *)




(** ** The metadata of an upload *)

Lemma assetPut_policy `{Host} (p : Plugin) (_outDir : string) (file : LocalFile)
    (i : PutObjectInput) :
  assetPut p _outDir file = Some i → uploadPolicy p _outDir file i.
Proof.
  unfold uploadPolicy, assetPut, payload, gzips, getFileMeta.
  destruct (JS.endsWith (path file) ".html"), (gzip_on (options p)); simpl.
  - intros [= <-]. simpl. repeat split; try done;
      by destruct (mime_lookup (Path.extname (path file))).
  - intros [= <-]. simpl. repeat split; try done;
      by destruct (mime_lookup (Path.extname (path file))).
  - destruct (zlib_gzip (readFile file) (gzip_params (options p))) as [e|z] eqn:Hz;
      [done|].
    intros [= <-]. simpl.
    split; [done|]. split; [by destruct (mime_lookup _)|].
    split; [done|]. split; [done|]. split; [|done].
    intros _. split; [done|]. split; [|done].
    intros _. split; [|done]. by exists z.
  - intros [= <-]. simpl. repeat split; try done;
      by destruct (mime_lookup (Path.extname (path file))).
Qed.

(** C8.  In a pass, whatever its outcome, every asset upload is the upload
    of a local file and carries: the content type that the MIME table
    gives for the extension of the file's path, or
    [application/octet-stream]; public-read access; for a path that does
    not end in [.html], the immutable cache-control directive and, with the
    gzip option on, the compressed payload and the [gzip] content
    encoding; for a path that ends in [.html], the bytes as they are, no
    content encoding and no cache-control, whatever the gzip option.  Gzip
    is never called on an [.html] file, nor with the option off. *)
Theorem upload_metadata_policy `{Host} (p : Plugin) (_outDir : string)
    (tree : list (string * list byte)) (w : World) :
  ∃ evs,
    trace (writeBundle p _outDir tree w).2 = trace w ++ evs
    ∧ (∀ i, i ∈ assetPuts evs →
            ∃ file, file ∈ getFiles _outDir tree ∧ uploadPolicy p _outDir file i)
    ∧ (∀ d z, (d, z) ∈ gzipCalls evs →
              ∃ file, file ∈ getFiles _outDir tree
                      ∧ d = readFile file
                      ∧ z = gzip_params (options p)
                      ∧ JS.endsWith (path file) ".html" = false
                      ∧ gzip_on (options p) = true).
Proof.
  assert (Hputs : ∀ pol r i,
            i ∈ assetPuts (passEvents p _outDir pol (orEmpty r) (getFiles _outDir tree)) →
            ∃ file, file ∈ getFiles _outDir tree ∧ uploadPolicy p _outDir file i).
  { intros pol r i. rewrite assetPuts_passEvents.
    intros (file & Hin & Hi)%list_elem_of_omap.
    exists file. split; [|by apply assetPut_policy].
    apply list_elem_of_In, filter_In in Hin as [Hin _]. by apply list_elem_of_In. }
  assert (Hgz : ∀ pol r d z,
            (d, z) ∈ gzipCalls (passEvents p _outDir pol (orEmpty r)
                                  (getFiles _outDir tree)) →
            ∃ file, file ∈ getFiles _outDir tree
                    ∧ d = readFile file
                    ∧ z = gzip_params (options p)
                    ∧ JS.endsWith (path file) ".html" = false
                    ∧ gzip_on (options p) = true).
  { intros pol r d z. rewrite gzipCalls_passEvents.
    intros (file & [= -> ->] & Hin)%list_elem_of_fmap.
    apply list_elem_of_In, filter_In in Hin as [Hin Hc].
    exists file. split; [by apply list_elem_of_In|].
    apply andb_prop in Hc as [_ Hg]. unfold gzips in Hg.
    apply andb_prop in Hg as [Hh Hg]. repeat split; try done.
    by destruct (JS.endsWith (path file) ".html"). }
  destruct (writeBundle_any p _outDir tree w) as [Hget Hrest].
  destruct ((Client.getJson (s3 (options p)) manifestKey w).1) as [e|r].
  - exists [EvS3 (manifestGet p)]. rewrite Hrest. simpl. split; [done|].
    split; [intros i Hi|intros d z Hi]; by apply elem_of_nil in Hi.
  - destruct Hrest as (evs & Htr & Hr).
    assert (Hpre : evs `prefix_of`
                     passEvents p _outDir (polluted w) (orEmpty r)
                       (getFiles _outDir tree)).
    { destruct ((writeBundle p _outDir tree w).1); [done|]. by rewrite Hr. }
    exists ([EvS3 (manifestGet p)] ++ evs).
    split; [by rewrite Htr, Hget, <- app_assoc|]. split.
    + intros i Hi. apply (Hputs (polluted w) r).
      by apply (elem_of_omap_prefix _ evs).
    + intros d z Hi. apply (Hgz (polluted w) r).
      by apply (elem_of_omap_prefix _ evs).
Qed.

Lemma upload_metadata_policy_witness :
  ∃ evs,
    trace (@writeBundle Sample.host Sample.cleanGzipPlugin Sample.outDir Sample.site
             Sample.emptyWorld).2
    = trace Sample.emptyWorld ++ evs
    ∧ (∀ i, i ∈ assetPuts evs →
            ∃ file, file ∈ getFiles Sample.outDir Sample.site
                    ∧ @uploadPolicy Sample.host Sample.cleanGzipPlugin Sample.outDir file i)
    ∧ (∀ d z, (d, z) ∈ gzipCalls evs →
              ∃ file, file ∈ getFiles Sample.outDir Sample.site
                      ∧ d = readFile file
                      ∧ z = gzip_params (options Sample.cleanGzipPlugin)
                      ∧ JS.endsWith (path file) ".html" = false
                      ∧ gzip_on (options Sample.cleanGzipPlugin) = true).
Proof.
  exact (@upload_metadata_policy Sample.host Sample.cleanGzipPlugin Sample.outDir
           Sample.site Sample.emptyWorld).
Defined.

(** ** Stale entries *)

Lemma deploy_options (o : DeployOptions) (p : Plugin) :
  deploy o = inr p →
  options p = o ∧ deploy_deleteUseTag o = inr (resolvedDeleteUseTag p).
Proof.
  unfold deploy. destruct (deploy_deleteUseTag o) as [e|t]; [done|].
  destruct (negb _); [done|].
  destruct (replace_placeholders _ _ _) as [e|e1]; [done|].
  destruct (negb _); [done|]. by intros [= <-].
Qed.

Lemma deploy_staleRequest (o : DeployOptions) (p : Plugin) (k : string) :
  deploy o = inr p → staleRequest p k = configuredStaleRequest o k.
Proof.
  intros [Ho Ht]%deploy_options. unfold staleRequest, configuredStaleRequest.
  rewrite Ho. unfold deploy_deleteUseTag in Ht.
  destruct (deleteUseTag o) as [[s|t]|].
  - destruct s as [|c s]; [by injection Ht as <-|].
    simpl in Ht. by injection Ht as <-.
  - destruct (negb (JS.truthy (key t))); [done|].
    destruct (negb (JS.truthy (value t))); [done|].
    injection Ht as <-. by destruct t.
  - by injection Ht as <-.
Qed.

(** C4, amended.  Take a plugin made by [deploy], prototypes that no
    earlier pass has touched, no local file named [__proto__], and a
    loaded manifest whose entries are objects without a [__processed] of
    their own (as in every manifest the plugin writes).  Then a pass that
    runs to its end sends, in the order of the manifest, one delete-or-tag
    request for each entry whose name no local file goes by, and no other:
    a tag with the configured key and value when a delete-tag is
    configured, a delete otherwise.  None of these names is in the new
    manifest. *)
Theorem stale_entries_retired `{Host} (o : DeployOptions) (p : Plugin)
    (_outDir : string) (tree : list (string * list byte))
    (r : option Json) (w w1 w' : World) :
  deploy o = inr p →
  unpolluted w →
  "__proto__" ∉ logicalName p _outDir <$> getFiles _outDir tree →
  Client.getJson (s3 (options p)) manifestKey w = (inr r, w1) →
  unmarkedEntries (orEmpty r) →
  writeBundle p _outDir tree w = (inr tt, w') →
  let files := getFiles _outDir tree in
  let stale :=
    filter (fun k => k ∉ logicalName p _outDir <$> files) (ownKeys (orEmpty r)) in
  ∃ evs,
    trace w' = trace w1 ++ evs
    ∧ NoDup stale
    ∧ mutations evs = configuredStaleRequest o <$> stale
    ∧ (∀ k, k ∈ stale → newManifest p _outDir files !! k = None).
Proof.
  intros Hdep Hpol Hproto Hload Hfmt Hrun files stale. subst files stale.
  destruct (writeBundle_ok p _outDir tree w w' Hrun)
    as (r' & w1' & Hload' & _ & Htr & _).
  rewrite Hload in Hload'. injection Hload' as <- <-.
  eexists. split; [exact Htr|]. split; [|split].
  - apply NoDup_filter. destruct Hfmt as (props & -> & _). simpl.
    apply NoDup_remove_dups.
  - rewrite mutations_passEvents, Hpol.
    rewrite (staleNames_unmarked p _outDir _ _ Hfmt Hproto).
    apply list_fmap_ext. intros _ k _. by apply deploy_staleRequest.
  - intros k [Hout _]%list_elem_of_filter.
    destruct (newManifest p _outDir (getFiles _outDir tree) !! k) eqn:E; [|done].
    exfalso. apply Hout. apply (newManifest_dom p _outDir). by eexists.
Qed.

Lemma stale_entries_retired_witness :
  ∃ evs,
    trace (Sample.after
             (@writeBundle Sample.host Sample.tagPlugin Sample.outDir Sample.siteV2)
             Sample.deployedWithTag)
    = trace (@Client.getJson Sample.host (s3 (options Sample.tagPlugin))
               manifestKey Sample.deployedWithTag).2 ++ evs
    ∧ NoDup ["assets/app.js"]
    ∧ mutations evs
      = [PutObjectTagging "site-bucket" "app/assets/app.js"
           [{| key := "stale"; value := "stale" |}]]
    ∧ (∀ k, k ∈ ["assets/app.js"] →
            @newManifest Sample.host Sample.tagPlugin Sample.outDir
              (getFiles Sample.outDir Sample.siteV2) !! k = None).
Proof.
  apply (@stale_entries_retired Sample.host
           (Sample.deployOptions None (Some (TagString "stale")) None)
           Sample.tagPlugin Sample.outDir Sample.siteV2
           (Some (documentOf Sample.deployedWithTagManifest)) Sample.deployedWithTag).
  - vm_compute; reflexivity.
  - reflexivity.
  - apply (bool_decide_unpack _). vm_compute; reflexivity.
  - vm_compute; reflexivity.
  - apply (isManifest_unmarked _ Sample.deployedWithTagManifest),
      isManifest_documentOf.
  - vm_compute; reflexivity.
Defined.

(** C4 fails as stated.  An entry of the loaded manifest that carries a
    [__processed] of its own reads as processed whether or not a local file
    goes by its name: it is neither deleted nor tagged. *)
Lemma marked_entry_not_retired : ¬ staleHandlingAsStated.
Proof.
  intros Hclaim.
  destruct (Hclaim Sample.host (Sample.deployOptions None None None)
              Sample.plainPlugin Sample.outDir Sample.site
              (Some (JObject [("old.js", JObject [("hash", JString "00");
                                                 ("__processed", JBool true)])]))
              Sample.markedWorld
              (@Client.getJson Sample.host (s3 (options Sample.plainPlugin))
                 manifestKey Sample.markedWorld).2
              (Sample.after
                 (@writeBundle Sample.host Sample.plainPlugin Sample.outDir Sample.site)
                 Sample.markedWorld))
    as (evs & Htr & Hmut).
  - vm_compute; reflexivity.
  - vm_compute; reflexivity.
  - vm_compute; reflexivity.
  - apply (f_equal (drop (length (trace
             (@Client.getJson Sample.host (s3 (options Sample.plainPlugin))
                manifestKey Sample.markedWorld).2)))) in Htr.
    rewrite drop_app_length in Htr. vm_compute in Htr. subst evs.
    apply Permutation_length in Hmut. vm_compute in Hmut. discriminate Hmut.
Qed.

(** ** Logical names and suffix stripping *)

Lemma logicalName_getFiles `{Host} (p : Plugin) (_outDir rel : string) (data : list byte) :
  logicalName p _outDir {| path := _outDir +:+ "/" +:+ rel; readFile := data |}
  = if cleanHtmlSuffix_on (options p) && JS.endsWith rel ".html"
    then JS.slice_0_neg rel 5
    else rel.
Proof.
  unfold logicalName, Path.normalizePath. simpl. by rewrite relative_join.
Qed.

(** What [upload] sends, whatever its outcome: no request but the one for
    the file, and that one when it returns. *)
Lemma upload_puts `{Host} (p : Plugin) (_outDir : string) (file : LocalFile)
    (w : World) :
  ∃ evs,
    trace (upload p (logicalName p _outDir file) file w).2 = trace w ++ evs
    ∧ (∀ i, i ∈ allPuts evs → assetPut p _outDir file = Some i)
    ∧ ((upload p (logicalName p _outDir file) file w).1 = inr tt →
       ∃ i, allPuts evs = [i]).
Proof.
  destruct (runs_upload p _outDir file w) as (evs & Htr & Hr).
  exists evs. split; [done|].
  pose proof (allPuts_uploadEvents p _outDir file) as Hputs.
  destruct ((upload p (logicalName p _outDir file) file w).1) as [e|[]].
  - split; [|done]. intros i Hi.
    apply (elem_of_omap_prefix _ _ _ _ Hr) in Hi. fold (allPuts (uploadEvents p _outDir file)) in Hi.
    rewrite Hputs in Hi. destruct (assetPut p _outDir file); simpl in Hi.
    + by apply list_elem_of_singleton in Hi as ->.
    + by apply elem_of_nil in Hi.
  - destruct Hr as (-> & _ & [i Hi]). rewrite Hputs, Hi. simpl. split.
    + by intros ? ->%list_elem_of_singleton.
    + by exists i.
Qed.

(** C9.  For the file the glob reports for the relative path [rel]: with
    [cleanHtmlSuffix] on, its logical name is [rel] without a trailing
    [.html] exactly when [rel] ends with [.html] (the five characters are
    what is removed), and [rel] itself otherwise; with the option off the
    name is always [rel].  [upload], called as the loop calls it and
    whatever its outcome, sends no PutObject but to the key of the logical
    name, with the content type of the extension of the file's own path,
    and sends exactly one such request when it returns: for [about.html],
    stored as [about], the type is the one the MIME table gives for
    [.html]. *)
Theorem suffix_stripping `{Host} (p : Plugin) (_outDir rel : string) (data : list byte) :
  let file := {| path := _outDir +:+ "/" +:+ rel; readFile := data |} in
  let name := logicalName p _outDir file in
  (cleanHtmlSuffix_on (options p) = true →
   ((∃ q, rel = q +:+ ".html" ∧ name = q) ↔ JS.endsWith rel ".html" = true)
   ∧ (JS.endsWith rel ".html" = true →
      name = JS.slice_0_neg rel 5 ∧ rel = name +:+ ".html")
   ∧ (JS.endsWith rel ".html" = false → name = rel))
  ∧ (cleanHtmlSuffix_on (options p) = false → name = rel)
  ∧ (∀ w, ∃ evs,
       trace (upload p name file w).2 = trace w ++ evs
       ∧ (∀ i, i ∈ allPuts evs →
               Key i = Client.normalizeKey (s3 (options p)) name
               ∧ ContentType i
                 = Some (default "application/octet-stream"
                           (mime_lookup (Path.extname rel))))
       ∧ ((upload p name file w).1 = inr tt → ∃ i, allPuts evs = [i]))
  ∧ (rel = "about.html" → cleanHtmlSuffix_on (options p) = true →
     name = "about"
     ∧ ∀ w w', upload p "about" file w = (inr tt, w') →
         ∃ evs i,
           trace w' = trace w ++ evs
           ∧ allPuts evs = [i]
           ∧ Key i = Client.normalizeKey (s3 (options p)) "about"
           ∧ ContentType i
             = Some (default "application/octet-stream" (mime_lookup ".html"))).
Proof.
  intros file name.
  assert (Hname : name = if cleanHtmlSuffix_on (options p) && JS.endsWith rel ".html"
                         then JS.slice_0_neg rel 5 else rel)
    by apply logicalName_getFiles.
  assert (Hput : ∀ i, assetPut p _outDir file = Some i →
                      Key i = Client.normalizeKey (s3 (options p)) name
                      ∧ ContentType i
                        = Some (default "application/octet-stream"
                                  (mime_lookup (Path.extname rel)))).
  { intros i Hi. split; [by apply (assetPut_key p _outDir file)|].
    destruct (assetPut_policy p _outDir file i Hi) as (_ & -> & _).
    simpl. by rewrite extname_join. }
  assert (Hup : ∀ w, ∃ evs,
       trace (upload p name file w).2 = trace w ++ evs
       ∧ (∀ i, i ∈ allPuts evs →
               Key i = Client.normalizeKey (s3 (options p)) name
               ∧ ContentType i
                 = Some (default "application/octet-stream"
                           (mime_lookup (Path.extname rel))))
       ∧ ((upload p name file w).1 = inr tt → ∃ i, allPuts evs = [i])).
  { intros w. destruct (upload_puts p _outDir file w) as (evs & Htr & Hall & Hone).
    exists evs. split; [done|]. split; [|done].
    intros i Hi. by apply Hput, Hall. }
  assert (Hstrip : ∀ q, rel = q +:+ ".html" → JS.slice_0_neg rel 5 = q).
  { intros q ->. apply (slice_0_neg_app q ".html"). }
  split; [|split; [|split; [done|]]].
  - intros Hon. rewrite Hon in Hname. simpl in Hname. split; [|split].
    + split.
      * intros (q & -> & _). apply endsWith_app.
      * intros Hends. rewrite Hends in Hname.
        destruct (endsWith_inv _ _ Hends) as [q Hq].
        exists q. split; [done|]. by rewrite Hname, (Hstrip q Hq).
    + intros Hends. rewrite Hends in Hname. split; [done|].
      destruct (endsWith_inv _ _ Hends) as [q Hq].
      by rewrite Hname, (Hstrip q Hq).
    + intros Hends. by rewrite Hends in Hname.
  - intros Hoff. by rewrite Hoff in Hname.
  - intros Hrel Hon. rewrite Hon, Hrel in Hname. simpl in Hname.
    split; [exact Hname|]. intros w w' Hrun.
    destruct (Hup w) as (evs & Htr & Hall & Hone).
    change (JS.slice_0_neg "about.html" 5) with "about" in Hname.
    rewrite Hname in Htr, Hall, Hone. rewrite Hrun in Htr, Hone. simpl in Htr, Hone.
    destruct (Hone eq_refl) as [i Hi]. exists evs, i.
    split; [done|]. split; [done|].
    destruct (Hall i) as [Hk Ht]; [rewrite Hi; by left|].
    split; [done|]. rewrite Ht. by rewrite Hrel.
Qed.

Lemma suffix_stripping_witness :
  logicalName Sample.cleanGzipPlugin Sample.outDir
    {| path := "/proj/dist/about.html"; readFile := Sample.bytes "<p>about</p>" |}
  = "about"
  ∧ ∀ w w',
      @upload Sample.host Sample.cleanGzipPlugin "about"
        {| path := "/proj/dist/about.html"; readFile := Sample.bytes "<p>about</p>" |} w
      = (inr tt, w') →
      ∃ evs i,
        trace w' = trace w ++ evs
        ∧ allPuts evs = [i]
        ∧ Key i = "app/about"
        ∧ ContentType i = Some "text/html".
Proof.
  apply (@suffix_stripping Sample.host Sample.cleanGzipPlugin Sample.outDir
           "about.html" (Sample.bytes "<p>about</p>")); reflexivity.
Defined.

(** ** Idempotence *)

(** C1, amended.  Let no two local files share a logical name and none be
    named [__proto__].  If a pass has run over the files, and a further
    pass over the same files loads the manifest of those files (the one the
    first pass wrote), then the further pass does nothing after loading but
    write that same manifest again: no asset upload, no delete, no tag. *)
Theorem idempotent_without_collisions `{Host} (p : Plugin) (_outDir : string)
    (tree : list (string * list byte)) (doc : Json) (w0 w0' w w1 w' : World) :
  NoDup (logicalName p _outDir <$> getFiles _outDir tree) →
  "__proto__" ∉ logicalName p _outDir <$> getFiles _outDir tree →
  writeBundle p _outDir tree w0 = (inr tt, w0') →
  isManifest doc (newManifest p _outDir (getFiles _outDir tree)) →
  Client.getJson (s3 (options p)) manifestKey w = (inr (Some doc), w1) →
  writeBundle p _outDir tree w = (inr tt, w') →
  wroteManifest p (newManifest p _outDir (getFiles _outDir tree)) w0 w0'
  ∧ trace w' = trace w1
               ++ [EvS3 (PutObject (manifestPut p (newManifest p _outDir
                                                   (getFiles _outDir tree))));
                   EvLog "Deployed"]
  ∧ quietPass p (newManifest p _outDir (getFiles _outDir tree)) w1 w'.
Proof.
  intros Hnd Hproto Hfirst Hdoc Hload Hrun.
  split; [by apply wroteManifest_newManifest|].
  destruct (writeBundle_ok p _outDir tree w w' Hrun)
    as (r' & w1' & Hload' & _ & Htr & _).
  rewrite Hload in Hload'. injection Hload' as <- <-.
  assert (orEmpty (Some doc) = doc) as Hor
    by (destruct Hdoc as (props & -> & _); done).
  rewrite Hor in Htr.
  rewrite (passEvents_rebuilt p _outDir _ _ _ Hdoc Hnd Hproto) in Htr.
  split; [done|]. eexists. split; [exact Htr|]. done.
Qed.

Lemma idempotent_without_collisions_witness :
  @wroteManifest Sample.host Sample.cleanGzipPlugin Sample.deployedManifest
    Sample.emptyWorld Sample.deployed
  ∧ trace (Sample.after
             (@writeBundle Sample.host Sample.cleanGzipPlugin Sample.outDir Sample.site)
             Sample.deployed)
    = trace (@Client.getJson Sample.host (s3 (options Sample.cleanGzipPlugin))
               manifestKey Sample.deployed).2
      ++ [EvS3 (PutObject (@manifestPut Sample.host Sample.cleanGzipPlugin
                             Sample.deployedManifest));
          EvLog "Deployed"]
  ∧ @quietPass Sample.host Sample.cleanGzipPlugin Sample.deployedManifest
      (@Client.getJson Sample.host (s3 (options Sample.cleanGzipPlugin))
         manifestKey Sample.deployed).2
      (Sample.after
         (@writeBundle Sample.host Sample.cleanGzipPlugin Sample.outDir Sample.site)
         Sample.deployed).
Proof.
  apply (@idempotent_without_collisions Sample.host Sample.cleanGzipPlugin
           Sample.outDir Sample.site (documentOf Sample.deployedManifest)
           Sample.emptyWorld Sample.deployed Sample.deployed).
  - apply (bool_decide_unpack _). vm_compute; reflexivity.
  - apply (bool_decide_unpack _). vm_compute; reflexivity.
  - vm_compute; reflexivity.
  - apply isManifest_documentOf.
  - vm_compute; reflexivity.
  - vm_compute; reflexivity.
Defined.

(** C1 fails as stated.  With [cleanHtmlSuffix] on, the files [about] and
    [about.html] both go by the name [about]; the manifest keeps the hash
    of [about.html], so the further pass finds [about] changed and uploads
    it again. *)
Lemma idempotence_fails_on_collision : ¬ idempotenceAsStated.
Proof.
  intros Hclaim.
  pose (w1 := Sample.after
                (@writeBundle Sample.host Sample.cleanGzipPlugin Sample.outDir
                   Sample.collidingSite) Sample.emptyWorld).
  destruct (Hclaim Sample.host Sample.cleanGzipPlugin Sample.outDir
              Sample.collidingSite
              (@newManifest Sample.host Sample.cleanGzipPlugin Sample.outDir
                 (getFiles Sample.outDir Sample.collidingSite))
              (documentOf
                 (@newManifest Sample.host Sample.cleanGzipPlugin Sample.outDir
                    (getFiles Sample.outDir Sample.collidingSite)))
              Sample.emptyWorld w1 w1
              (@Client.getJson Sample.host (s3 (options Sample.cleanGzipPlugin))
                 manifestKey w1).2
              (Sample.after
                 (@writeBundle Sample.host Sample.cleanGzipPlugin Sample.outDir
                    Sample.collidingSite) w1))
    as (evs & Htr & Hnone & _).
  - vm_compute; reflexivity.
  - apply (@wroteManifest_newManifest Sample.host). vm_compute; reflexivity.
  - apply isManifest_documentOf.
  - vm_compute; reflexivity.
  - vm_compute; reflexivity.
  - apply (f_equal (drop (length (trace
             (@Client.getJson Sample.host (s3 (options Sample.cleanGzipPlugin))
                manifestKey w1).2)))) in Htr.
    rewrite drop_app_length in Htr. vm_compute in Htr. subst evs.
    vm_compute in Hnone. discriminate Hnone.
Qed.

(** A file named [__proto__] is uploaded by every pass: the manifest never
    records it. *)
Example proto_uploaded_again :
  let w1 := Sample.after
              (@writeBundle Sample.host Sample.plainPlugin Sample.outDir
                 Sample.siteWithProto) Sample.emptyWorld in
  length (assetPuts (trace w1)) = 1
  ∧ length (assetPuts
              (trace (Sample.after
                        (@writeBundle Sample.host Sample.plainPlugin Sample.outDir
                           Sample.siteWithProto) w1))) = 2.
Proof. vm_compute. split; reflexivity. Qed.

(** ** Writes to the manifest key *)

Section ManifestKey.
Context `{Host}.
Variable p : Plugin.
Variable _outDir : string.

Lemma writesTo_app (K : string) (evs1 evs2 : list Event) :
  writesTo K (evs1 ++ evs2) = writesTo K evs1 ++ writesTo K evs2.
Proof. unfold writesTo. by rewrite omap_app. Qed.

Lemma writesTo_uploadEvents (K : string) (file : LocalFile) :
  Client.normalizeKey (s3 (options p)) (logicalName p _outDir file) ≠ K →
  writesTo K (uploadEvents p _outDir file) = [].
Proof.
  intros Hne. unfold uploadEvents. rewrite writesTo_app.
  replace (writesTo K (if gzips p file then _ else _)) with (@nil S3Request)
    by (destruct (gzips p file); [|done]; by destruct (zlib_gzip _ _)).
  destruct (assetPut p _outDir file) as [i|] eqn:E; [|done].
  unfold writesTo. simpl. rewrite (assetPut_key p _outDir file i E).
  rewrite bool_decide_eq_false_2; [done|]. by intros [= ?].
Qed.

Lemma writesTo_staleEvents (K : string) (pol : list Kind) (doc : Json)
    (marks : list string) (k : string) :
  Client.normalizeKey (s3 (options p)) k ≠ K →
  writesTo K (staleEvents p pol doc marks k) = [].
Proof.
  intros Hne. unfold staleEvents, staleRequest.
  destruct (retired _ _ _ _); [|done]. unfold writesTo.
  destruct (resolvedDeleteUseTag p); simpl;
    (rewrite bool_decide_eq_false_2; [done|]); by intros [= ?].
Qed.

Lemma processed_not_manifest :
  Client.normalizeKey (s3 (options p)) "__processed"
  ≠ Client.normalizeKey (s3 (options p)) manifestKey.
Proof. unfold Client.normalizeKey. simpl. by intros [=]%append_inv_head. Qed.

Lemma manifestKeyWrites_loopEvents (pol : list Kind) (doc : Json)
    (files : list LocalFile) :
  Forall (notTheManifest p _outDir) files →
  Forall (fun k => Client.normalizeKey (s3 (options p)) k
                   ≠ Client.normalizeKey (s3 (options p)) manifestKey)
    (ownKeys doc) →
  manifestKeyWrites p (loopEvents p _outDir pol doc files) = [].
Proof.
  intros Hfiles Hkeys. unfold manifestKeyWrites, loopEvents.
  rewrite writesTo_app.
  assert (∀ l, Forall (notTheManifest p _outDir) l →
            writesTo (Client.normalizeKey (s3 (options p)) manifestKey)
              (flat_map (fileEvents p _outDir doc) l) = []) as Hup.
  { induction 1 as [|f l Hf _ IH]; simpl; [done|].
    rewrite writesTo_app, IH, app_nil_r. unfold fileEvents.
    destruct (changed p _outDir doc f); [|done].
    by apply writesTo_uploadEvents. }
  rewrite (Hup files Hfiles). simpl.
  assert (∀ marks pol' l,
            Forall (fun k => Client.normalizeKey (s3 (options p)) k
                             ≠ Client.normalizeKey (s3 (options p)) manifestKey) l →
            writesTo (Client.normalizeKey (s3 (options p)) manifestKey)
              (flat_map (staleEvents p pol' doc marks) l) = []) as Hst.
  { intros marks pol'. induction 1 as [|k l Hk _ IH]; simpl; [done|].
    rewrite writesTo_app, IH, app_nil_r. by apply writesTo_staleEvents. }
  apply Hst. unfold forIn. apply Forall_app. split; [done|].
  destruct (_ && _); [|done]. repeat constructor. apply processed_not_manifest.
Qed.

Lemma manifestKeyWrites_final (m : FileFingerprintMap) :
  manifestKeyWrites p [EvS3 (PutObject (manifestPut p m)); EvLog "Deployed"]
  = [PutObject (manifestPut p m)].
Proof.
  unfold manifestKeyWrites, writesTo. simpl.
  by rewrite bool_decide_eq_true_2.
Qed.

End ManifestKey.

(** C10, amended.  The manifest is written by the last request of a pass
    that runs to its end, after the loops over the local files and the old
    entries.  The loops send a request to the manifest key only for a local
    file, or for an entry of the loaded manifest, whose key is the
    manifest's; when no enumerated file and no loaded entry is one, a pass,
    whatever its outcome, sends no upload, delete or tag to the manifest
    key but that final write, and exactly that when it runs to its end. *)
Theorem manifest_key_written_once `{Host} (p : Plugin) (_outDir : string)
    (tree : list (string * list byte)) (w : World) :
  Forall (notTheManifest p _outDir) (getFiles _outDir tree) →
  (∀ r, (Client.getJson (s3 (options p)) manifestKey w).1 = inr r →
        Forall (fun k => Client.normalizeKey (s3 (options p)) k
                         ≠ Client.normalizeKey (s3 (options p)) manifestKey)
          (ownKeys (orEmpty r))) →
  let final :=
    [EvS3 (PutObject (manifestPut p (newManifest p _outDir (getFiles _outDir tree))));
     EvLog "Deployed"] in
  ∃ evs,
    trace (writeBundle p _outDir tree w).2 = trace w ++ evs
    ∧ (∀ q, q ∈ manifestKeyWrites p evs →
            q = PutObject (manifestPut p (newManifest p _outDir (getFiles _outDir tree))))
    ∧ ((writeBundle p _outDir tree w).1 = inr tt →
       ∃ loops,
         evs = loops ++ final
         ∧ manifestKeyWrites p loops = []
         ∧ manifestKeyWrites p evs
           = [PutObject (manifestPut p (newManifest p _outDir (getFiles _outDir tree)))]).
Proof.
  intros Hnot Hkeys final.
  destruct (writeBundle_any p _outDir tree w) as [Hget Hrest].
  destruct ((Client.getJson (s3 (options p)) manifestKey w).1) as [e|r].
  - exists [EvS3 (manifestGet p)]. rewrite Hrest. simpl. split; [done|].
    split; [|done]. intros i Hi. by apply elem_of_nil in Hi.
  - destruct Hrest as (evs & Htr & Hr).
    set (files := getFiles _outDir tree) in *.
    set (loops := loopEvents p _outDir (polluted w) (orEmpty r) files).
    assert (Hloops : manifestKeyWrites p loops = [])
      by (apply manifestKeyWrites_loopEvents; [done|by apply Hkeys]).
    assert (Hplan : manifestKeyWrites p
                      (passEvents p _outDir (polluted w) (orEmpty r) files)
                    = [PutObject (manifestPut p (newManifest p _outDir files))]).
    { unfold passEvents. fold loops. unfold manifestKeyWrites in *.
      rewrite writesTo_app, Hloops. apply manifestKeyWrites_final. }
    exists ([EvS3 (manifestGet p)] ++ evs).
    split; [by rewrite Htr, Hget, <- app_assoc|]. split.
    + intros i Hi. unfold manifestKeyWrites in Hi. rewrite writesTo_app in Hi.
      simpl in Hi.
      assert (evs `prefix_of` passEvents p _outDir (polluted w) (orEmpty r) files)
        as [k Hk].
      { destruct ((writeBundle p _outDir tree w).1); [done|]. by rewrite Hr. }
      assert (i ∈ manifestKeyWrites p
                    (passEvents p _outDir (polluted w) (orEmpty r) files)) as Hin.
      { rewrite Hk. unfold manifestKeyWrites. rewrite writesTo_app.
        apply elem_of_app. by left. }
      rewrite Hplan in Hin. by apply list_elem_of_singleton in Hin.
    + intros Hok. rewrite Hok in Hr. subst evs.
      exists ([EvS3 (manifestGet p)] ++ loops). split; [|split].
      * unfold passEvents. fold loops. subst final. by rewrite <- !app_assoc.
      * unfold manifestKeyWrites in *. by rewrite writesTo_app, Hloops.
      * unfold manifestKeyWrites in *. by rewrite writesTo_app, Hplan.
Qed.

Lemma manifest_key_written_once_witness :
  ∃ evs,
    trace (@writeBundle Sample.host Sample.cleanGzipPlugin Sample.outDir Sample.site
             Sample.emptyWorld).2
    = trace Sample.emptyWorld ++ evs
    ∧ (∀ q, q ∈ manifestKeyWrites Sample.cleanGzipPlugin evs →
            q = PutObject (@manifestPut Sample.host Sample.cleanGzipPlugin
                             Sample.deployedManifest))
    ∧ ((@writeBundle Sample.host Sample.cleanGzipPlugin Sample.outDir Sample.site
          Sample.emptyWorld).1 = inr tt →
       ∃ loops,
         evs = loops
               ++ [EvS3 (PutObject (@manifestPut Sample.host Sample.cleanGzipPlugin
                                      Sample.deployedManifest));
                   EvLog "Deployed"]
         ∧ manifestKeyWrites Sample.cleanGzipPlugin loops = []
         ∧ manifestKeyWrites Sample.cleanGzipPlugin evs
           = [PutObject (@manifestPut Sample.host Sample.cleanGzipPlugin
                           Sample.deployedManifest)]).
Proof.
  apply (@manifest_key_written_once Sample.host Sample.cleanGzipPlugin Sample.outDir
           Sample.site Sample.emptyWorld).
  - repeat constructor; by vm_compute.
  - intros r Hr. vm_compute in Hr. injection Hr as <-. constructor.
Defined.

(** C10 fails as stated.  An output directory that holds a file named
    [fingerprints.json] has it enumerated and uploaded like any other
    asset, to the key of the manifest; the pass then sends two requests to
    that key. *)
Lemma manifest_name_is_an_asset : ¬ manifestNeverAnAssetAsStated.
Proof.
  intros Hclaim.
  destruct (Hclaim Sample.host Sample.plainPlugin Sample.outDir
              Sample.siteWithManifestName Sample.emptyWorld
              (Sample.after
                 (@writeBundle Sample.host Sample.plainPlugin Sample.outDir
                    Sample.siteWithManifestName) Sample.emptyWorld))
    as [_ (evs & Htr & Hputs)].
  - vm_compute; reflexivity.
  - change (trace Sample.emptyWorld ++ evs) with evs in Htr. subst evs.
    apply (f_equal length) in Hputs. vm_compute in Hputs. discriminate Hputs.
Qed.

Example manifest_name_two_writes :
  length (manifestKeyWrites Sample.plainPlugin
            (trace (Sample.after
                      (@writeBundle Sample.host Sample.plainPlugin Sample.outDir
                         Sample.siteWithManifestName) Sample.emptyWorld))) = 2.
Proof. vm_compute; reflexivity. Qed.

(** ** Progress *)

(** With no failure of the transport, a pass runs to its end from any
    bucket in which the manifest is missing, or parses to [null] or to an
    object whose entries are objects, when no local file is named
    [__processed] and gzip takes every file it is given. *)
Theorem writeBundle_runs `{Host} (p : Plugin) (_outDir : string)
    (tree : list (string * list byte)) (w : World) :
  faultFree w →
  (∀ o, objects w !! Client.normalizeKey (s3 (options p)) manifestKey = Some o →
        ∃ doc, JSON_parse (string_of_list_byte (body_bytes (Body (stored o)))) = inr doc
               ∧ objectEntries (orEmpty (Some doc))) →
  "__processed" ∉ logicalName p _outDir <$> getFiles _outDir tree →
  Forall (fun f => is_Some (assetPut p _outDir f)) (getFiles _outDir tree) →
  ∃ w', writeBundle p _outDir tree w = (inr tt, w').
Proof.
  intros Hff Hparse Hnames Hpay.
  destruct (get_faultFree p manifestKey w Hff) as (w1 & Hg & Hff1).
  assert (∃ r, Client.getJson (s3 (options p)) manifestKey w = (inr r, w1)
               ∧ objectEntries (orEmpty r))
    as (r & Hload & Hobj).
  { unfold Client.getJson. rewrite (bind_run _ _ _ _ _ Hg).
    destruct (objects w !! Client.normalizeKey (s3 (options p)) manifestKey)
      as [o|] eqn:E; simpl.
    - destruct (Hparse o eq_refl) as (doc & Hdoc & Hobj). rewrite Hdoc.
      by exists (Some doc).
    - exists None. split; [done|]. by exists []. }
  destruct (syncFrom_faultFree p _outDir (orEmpty r) (getFiles _outDir tree) w1
              Hff1 Hobj) as (w' & Hrun & _).
  { by intros ?. }
  { apply Forall_forall. intros f Hf _.
    by apply (proj1 (Forall_forall _ _) Hpay f Hf). }
  exists w'. unfold writeBundle. by rewrite (bind_run _ _ _ _ _ Hload).
Qed.

Lemma writeBundle_runs_witness :
  ∃ w', @writeBundle Sample.host Sample.cleanGzipPlugin Sample.outDir Sample.siteV2
          Sample.deployed = (inr tt, w').
Proof.
  apply (@writeBundle_runs Sample.host Sample.cleanGzipPlugin Sample.outDir
           Sample.siteV2 Sample.deployed).
  - constructor.
  - intros o Ho. vm_compute in Ho. injection Ho as <-.
    exists (documentOf Sample.deployedManifest).
    split; [vm_compute; reflexivity|].
    apply unmarked_objectEntries,
      (isManifest_unmarked _ Sample.deployedManifest), isManifest_documentOf.
  - apply (bool_decide_unpack _). vm_compute; reflexivity.
  - repeat constructor; by eexists.
Defined.

(** Without these conditions a pass can fail with the bucket in order: on
    a manifest with an entry that is [null], and on a gzip level that zlib
    refuses. *)
Example null_entry_aborts :
  (@writeBundle Sample.host Sample.plainPlugin Sample.outDir Sample.site
     Sample.nullEntryWorld).1 = inl cannot_read.
Proof. vm_compute; reflexivity. Qed.

Example refused_gzip_aborts :
  (@writeBundle Sample.host Sample.badGzipPlugin Sample.outDir Sample.site
     Sample.emptyWorld).1
  = inl (ErrorObj "RangeError" "The value of an option is out of range").
Proof. vm_compute; reflexivity. Qed.

(** * Creating the plugin ([deploy], [config]) *)

(** ** Placeholders in the endpoint *)

Lemma map_inr_map_inr {E A B C} (f : A → B) (g : B → C) (r : E + A) :
  map_inr g (map_inr f r) = map_inr (fun a => g (f a)) r.
Proof. by destruct r. Qed.

Section Placeholders.
Variable o : S3Options.

Lemma replace_open (s : string) :
  replace_placeholders o None (String "{" s) = replace_placeholders o (Some "") s.
Proof. reflexivity. Qed.

Lemma replace_other (c : ascii) (s : string) :
  Ascii.eqb c "{" = false →
  replace_placeholders o None (String c s)
  = map_inr (String c) (replace_placeholders o None s).
Proof. intros Hc. simpl. by rewrite Hc. Qed.

(** Text before the first opening brace is copied. *)
Lemma replace_skip (a s : string) :
  occurs "{" a = false →
  replace_placeholders o None (a +:+ s)
  = map_inr (String.append a) (replace_placeholders o None s).
Proof.
  induction a as [|c a IH]; simpl.
  - intros _. rewrite append_nil_l.
    destruct (replace_placeholders o None s); reflexivity.
  - intros [Hc Ha]%orb_false_elim. rewrite Hc, (IH Ha).
    destruct (replace_placeholders o None s); reflexivity.
Qed.

(** Word characters after an opening brace are collected. *)
Lemma replace_word (acc w s : string) :
  is_word w = true →
  replace_placeholders o (Some acc) (w +:+ s)
  = replace_placeholders o (Some (acc +:+ w)) s.
Proof.
  revert acc. induction w as [|c w IH]; intros acc; simpl.
  - intros _. by rewrite append_nil_r.
  - intros [Hc Hw]%andb_true_iff. rewrite append_cons. simpl. rewrite Hc.
    rewrite (IH _ Hw). by rewrite append_assoc.
Qed.

Lemma replace_close (w s : string) :
  w ≠ "" →
  replace_placeholders o (Some w) (String "}" s)
  = match s3_field o w with
    | Some v => map_inr (String.append v) (replace_placeholders o None s)
    | None => inl (ErrorObj "Error" ("s3." +:+ w +:+ " is required"))
    end.
Proof.
  intros Hw. simpl. unfold JS.truthy.
  destruct (String.eqb_spec w "") as [|_]; done.
Qed.

(** Without a closing brace nothing is replaced, whatever has been read
    since an opening one. *)
Lemma replace_no_close (pending : option string) (s : string) :
  occurs "}" s = false →
  replace_placeholders o pending s
  = inr (match pending with Some w => "{" +:+ w | None => "" end +:+ s).
Proof.
  revert pending. induction s as [|c s IH]; intros pending; simpl.
  - intros _. by rewrite append_nil_r.
  - intros [Hc Hs]%orb_false_elim.
    assert (Hout : (if Ascii.eqb c "{"
                    then replace_placeholders o (Some "") s
                    else map_inr (String c) (replace_placeholders o None s))
                   = inr (String c s)).
    { destruct (Ascii.eqb_spec c "{") as [->|_]; by rewrite (IH _ Hs). }
    destruct pending as [w|]; [|done].
    destruct (is_word_char c).
    + rewrite (IH _ Hs). f_equal.
      change (String "{" (w +:+ String c "") +:+ s = String "{" w +:+ String c s).
      by rewrite !append_cons, append_assoc.
    + rewrite Hc. simpl. by rewrite Hout.
Qed.

(** The only failure is a placeholder that names no field of the options. *)
Lemma replace_inl (pending : option string) (s : string) (e : Thrown) :
  match pending with Some acc => is_word acc = true | None => True end →
  replace_placeholders o pending s = inl e →
  ∃ w, is_word w = true ∧ w ≠ "" ∧ s3_field o w = None
       ∧ e = ErrorObj "Error" ("s3." +:+ w +:+ " is required").
Proof.
  revert pending. induction s as [|c s IH]; intros pending Hp; simpl; [done|].
  assert (Hout : (if Ascii.eqb c "{"
                  then replace_placeholders o (Some "") s
                  else map_inr (String c) (replace_placeholders o None s))
                 = inl e →
                 ∃ w, is_word w = true ∧ w ≠ "" ∧ s3_field o w = None
                      ∧ e = ErrorObj "Error" ("s3." +:+ w +:+ " is required")).
  { destruct (Ascii.eqb c "{").
    - by apply IH.
    - destruct (replace_placeholders o None s) eqn:E; simpl; [|done].
      intros [= <-]. by apply (IH None). }
  destruct pending as [acc|]; [|done].
  destruct (is_word_char c) eqn:Hc.
  - apply IH. clear -Hp Hc. induction acc as [|a acc IHa]; simpl in *.
    + by rewrite Hc.
    + apply andb_true_iff in Hp as [Ha Hacc]. by rewrite Ha, IHa.
  - destruct (Ascii.eqb c "}" && JS.truthy acc) eqn:Hclose.
    + apply andb_true_iff in Hclose as [_ Hacc].
      destruct (s3_field o acc) as [v|] eqn:Hf.
      * destruct (replace_placeholders o None s) eqn:E; simpl; [|done].
        intros [= <-]. by apply (IH None).
      * intros [= <-]. exists acc. repeat split; try done.
        intros ->. done.
    + destruct (if Ascii.eqb c "{" then _ else _) eqn:E; simpl; [|done].
      intros [= <-]. by apply Hout.
Qed.

End Placeholders.

(** An endpoint in which no opening brace is followed, later on, by a
    closing one has no placeholder: it is taken as written. *)
Theorem endpoint_without_placeholder (o : S3Options) (s : string) :
  occurs "{" s = false ∨ occurs "}" s = false →
  replace_placeholders o None s = inr s.
Proof.
  intros [Hs|Hs].
  - rewrite <- (append_nil_r s) at 1. rewrite (replace_skip o s "" Hs). simpl.
    by rewrite append_nil_r.
  - by rewrite (replace_no_close o None s Hs).
Qed.

Lemma endpoint_without_placeholder_witness :
  replace_placeholders (Sample.s3Options "app") None "https://s3.example.com"
  = inr "https://s3.example.com".
Proof.
  apply (endpoint_without_placeholder (Sample.s3Options "app")
           "https://s3.example.com").
  left. reflexivity.
Defined.

(** The first placeholder [{w}] of an endpoint, [w] a non-empty word: when
    [w] names a field of the S3 options, the text before it is copied and
    the placeholder gives way to the value of the field, which is not
    looked into for further placeholders; the rest is treated alike.  When
    it names none, [deploy] fails with [s3.w is required]. *)
Theorem placeholder_replaced_by_field (o : S3Options) (a w b : string) :
  occurs "{" a = false → is_word w = true → w ≠ "" →
  replace_placeholders o None (a +:+ "{" +:+ w +:+ "}" +:+ b)
  = match s3_field o w with
    | Some v => map_inr (fun r => a +:+ v +:+ r) (replace_placeholders o None b)
    | None => inl (ErrorObj "Error" ("s3." +:+ w +:+ " is required"))
    end.
Proof.
  intros Ha Hw Hne. rewrite (replace_skip o a _ Ha).
  change ("{" +:+ w +:+ "}" +:+ b) with (String "{" (w +:+ String "}" b)).
  rewrite replace_open, (replace_word o "" w _ Hw), append_nil_l.
  rewrite (replace_close o w b Hne).
  destruct (s3_field o w) as [v|]; [|done].
  by destruct (replace_placeholders o None b).
Qed.

Lemma placeholder_replaced_by_field_witness :
  replace_placeholders (Sample.s3Options "app") None
    ("https://" +:+ "{" +:+ "bucket" +:+ "}" +:+ ".s3.{region}.amazonaws.com")
  = match s3_field (Sample.s3Options "app") "bucket" with
    | Some v =>
        map_inr (fun r => "https://" +:+ v +:+ r)
          (replace_placeholders (Sample.s3Options "app") None
             ".s3.{region}.amazonaws.com")
    | None => inl (ErrorObj "Error" ("s3." +:+ "bucket" +:+ " is required"))
    end.
Proof.
  apply (placeholder_replaced_by_field (Sample.s3Options "app")
           "https://" "bucket" ".s3.{region}.amazonaws.com");
    [reflexivity|reflexivity|discriminate].
Defined.

(** ** What [deploy] accepts and what it returns *)

Lemma prefix_append (q s t : string) :
  String.prefix q s = true → String.prefix q (s +:+ t) = true.
Proof.
  revert s. induction q as [|c q IH]; intros s; [intros _; apply prefix_nil|].
  destruct s as [|d s]; [done|]. rewrite append_cons. cbn [String.prefix].
  destruct (ascii_dec c d); [apply IH|done].
Qed.

Lemma truthy_ne (s : string) : JS.truthy s = true ↔ s ≠ "".
Proof.
  unfold JS.truthy. destruct (String.eqb_spec s "") as [->|Hne]; simpl.
  - split; [done|]. by intros Hne.
  - by split.
Qed.

(** A plugin is returned only for options that pass every check, and the
    closure it holds is well formed: the options as given; the six S3
    settings non-empty; an endpoint that starts with [https://] and ends
    with a slash; and a delete-tag that, when there is one, has a non-empty
    key and a non-empty value, there being none exactly when the option is
    missing or the empty string. *)
Theorem deploy_returns_wellformed_plugin (o : DeployOptions) (p : Plugin) :
  deploy o = inr p →
  options p = o
  ∧ (accessKeyId (s3 o) ≠ "" ∧ secretAccessKey (s3 o) ≠ "" ∧ bucket (s3 o) ≠ ""
     ∧ region (s3 o) ≠ "" ∧ endpoint (s3 o) ≠ "" ∧ prefix (s3 o) ≠ "")
  ∧ JS.startsWith (_endpoint p) "https://" = true
  ∧ JS.endsWith (_endpoint p) "/" = true
  ∧ (∀ t, resolvedDeleteUseTag p = Some t → key t ≠ "" ∧ value t ≠ "")
  ∧ (resolvedDeleteUseTag p = None
     ↔ deleteUseTag o = None ∨ deleteUseTag o = Some (TagString "")).
Proof.
  unfold deploy. destruct (deploy_deleteUseTag o) as [e|t] eqn:Ht; [done|].
  destruct (JS.truthy (accessKeyId (s3 o))) eqn:H1; [|done].
  destruct (JS.truthy (secretAccessKey (s3 o))) eqn:H2; [|done].
  destruct (JS.truthy (bucket (s3 o))) eqn:H3; [|done].
  destruct (JS.truthy (region (s3 o))) eqn:H4; [|done].
  destruct (JS.truthy (endpoint (s3 o))) eqn:H5; [|done].
  destruct (JS.truthy (prefix (s3 o))) eqn:H6; [|done]. simpl.
  destruct (replace_placeholders _ _ _) as [e|e1]; [done|].
  destruct (JS.startsWith e1 "https://") eqn:Hs; [|done]. simpl.
  intros [= <-]. simpl. split; [done|]. split.
  { by rewrite <- !truthy_ne. }
  split.
  { destruct (JS.endsWith e1 "/"); [done|]. by apply prefix_append. }
  split.
  { destruct (JS.endsWith e1 "/") eqn:He; [done|]. apply endsWith_app. }
  unfold deploy_deleteUseTag in Ht.
  destruct (deleteUseTag o) as [[s|t0]|].
  - destruct s as [|c s].
    + injection Ht as <-. split; [done|]. split; auto.
    + simpl in Ht. injection Ht as <-. split.
      * intros t [= <-]. done.
      * split; [done|]. intros [|]; done.
  - destruct (JS.truthy (key t0)) eqn:Hk; [|done].
    destruct (JS.truthy (value t0)) eqn:Hv; [|done]. simpl in Ht.
    injection Ht as <-. split.
    + intros t [= <-]. by rewrite <- !truthy_ne.
    + split; [done|]. intros [|]; done.
  - injection Ht as <-. split; [done|]. split; auto.
Qed.

Lemma deploy_returns_wellformed_plugin_witness :
  options Sample.tagPlugin = Sample.deployOptions None (Some (TagString "stale")) None
  ∧ JS.startsWith (_endpoint Sample.tagPlugin) "https://" = true
  ∧ JS.endsWith (_endpoint Sample.tagPlugin) "/" = true.
Proof.
  destruct (deploy_returns_wellformed_plugin
              (Sample.deployOptions None (Some (TagString "stale")) None)
              Sample.tagPlugin eq_refl) as (Ho & _ & Hs & He & _).
  split; [exact Ho|]. split; [exact Hs|exact He].
Defined.

(** [deploy] throws nothing but an [Error] with one of its four fixed
    messages, or [s3.w is required] for a placeholder [{w}] of the endpoint
    whose word [w] names no field of the S3 options. *)
Theorem deploy_throws_only (o : DeployOptions) (e : Thrown) :
  deploy o = inl e →
  e = ErrorObj "Error" "deleteUseTag.key is required"
  ∨ e = ErrorObj "Error" "deleteUseTag.value is required"
  ∨ e = ErrorObj "Error" "s3 options are required"
  ∨ e = ErrorObj "Error" "endpoint must be a valid url"
  ∨ ∃ w, is_word w = true ∧ w ≠ "" ∧ s3_field (s3 o) w = None
         ∧ e = ErrorObj "Error" ("s3." +:+ w +:+ " is required").
Proof.
  unfold deploy. destruct (deploy_deleteUseTag o) as [e0|t] eqn:Ht.
  - intros [= <-]. unfold deploy_deleteUseTag in Ht.
    destruct (deleteUseTag o) as [[s|t0]|]; [| |done].
    + destruct s as [|c s]; [done|]. simpl in Ht. done.
    + destruct (negb (JS.truthy (key t0))); [injection Ht as <-; auto|].
      destruct (negb (JS.truthy (value t0))); [injection Ht as <-; auto|done].
  - destruct (negb _); [intros [= <-]; auto|].
    destruct (replace_placeholders _ _ _) as [e1|e1] eqn:Hr.
    + intros [= <-]. do 4 right. by apply (replace_inl (s3 o) None _ _ I Hr).
    + destruct (negb _); [intros [= <-]; auto 6|done].
Qed.

Lemma deploy_throws_only_witness :
  ErrorObj "Error" "s3.host is required"
  = ErrorObj "Error" "deleteUseTag.key is required"
  ∨ ErrorObj "Error" "s3.host is required"
    = ErrorObj "Error" "deleteUseTag.value is required"
  ∨ ErrorObj "Error" "s3.host is required" = ErrorObj "Error" "s3 options are required"
  ∨ ErrorObj "Error" "s3.host is required"
    = ErrorObj "Error" "endpoint must be a valid url"
  ∨ ∃ w, is_word w = true ∧ w ≠ ""
         ∧ s3_field (s3 Sample.unknownFieldOptions) w = None
         ∧ ErrorObj "Error" "s3.host is required"
           = ErrorObj "Error" ("s3." +:+ w +:+ " is required").
Proof.
  apply (deploy_throws_only Sample.unknownFieldOptions
           (ErrorObj "Error" "s3.host is required")).
  reflexivity.
Defined.

(** The base URL handed to Vite, for a plugin [deploy] returned: it starts
    with [https://] and is the endpoint, a slash, and the configured
    prefix; followed by a slash and a name (that does not start with one),
    it is the endpoint followed by the key the client stores that name
    under. *)
Theorem config_base_leads_to_keys (o : DeployOptions) (p : Plugin) (k : string) :
  deploy o = inr p →
  JS.startsWith (config p) "https://" = true
  ∧ (∃ e, _endpoint p = e +:+ "/" ∧ config p = e +:+ "/" +:+ prefix (s3 o))
  ∧ (JS.startsWith k "/" = false →
     config p +:+ "/" +:+ k = _endpoint p +:+ Client.normalizeKey (s3 o) k).
Proof.
  intros Hd.
  destruct (deploy_options o p Hd) as [Ho _].
  assert (Hs : JS.startsWith (_endpoint p) "https://" = true
               ∧ JS.endsWith (_endpoint p) "/" = true).
  { revert Hd. unfold deploy. destruct (deploy_deleteUseTag o); [done|].
    destruct (negb _); [done|].
    destruct (replace_placeholders _ _ _) as [|e1]; [done|].
    destruct (JS.startsWith e1 "https://") eqn:Hs; [|done]. simpl.
    intros [= <-]. simpl.
    destruct (JS.endsWith e1 "/") eqn:He; [done|].
    split; [by apply prefix_append|apply endsWith_app]. }
  destruct Hs as [Hs He]. unfold config. rewrite Ho. split; [|split].
  - by apply prefix_append.
  - apply endsWith_inv in He as [e He]. exists e. split; [done|].
    by rewrite He, append_assoc.
  - intros Hk. unfold Client.normalizeKey. rewrite Hk. by rewrite append_assoc.
Qed.

Lemma config_base_leads_to_keys_witness :
  JS.startsWith (config Sample.plainPlugin) "https://" = true
  ∧ (∃ e, _endpoint Sample.plainPlugin = e +:+ "/"
          ∧ config Sample.plainPlugin = e +:+ "/" +:+ "app")
  ∧ (JS.startsWith "assets/app.js" "/" = false →
     config Sample.plainPlugin +:+ "/" +:+ "assets/app.js"
     = _endpoint Sample.plainPlugin
       +:+ Client.normalizeKey (Sample.s3Options "app") "assets/app.js").
Proof.
  apply (config_base_leads_to_keys (Sample.deployOptions None None None)
           Sample.plainPlugin "assets/app.js").
  reflexivity.
Defined.

Example config_sample :
  config Sample.plainPlugin = "https://site-bucket.s3.eu-west-1.amazonaws.com/app".
Proof. reflexivity. Qed.

(** * Names and keys *)

Lemma prefix_refl_app (a b : string) : String.prefix a (a +:+ b) = true.
Proof.
  induction a as [|c a IH]; [apply prefix_nil|]. rewrite append_cons.
  cbn [String.prefix]. by destruct (ascii_dec c c).
Qed.

Lemma startsWith_slash (k : string) :
  JS.startsWith k "/" = true → k = "/" +:+ withoutLeadingSlash k.
Proof.
  destruct k as [|c k]; [done|]. rewrite startsWith_cons, prefix_nil.
  simpl. destruct (Ascii.eqb_spec c "/") as [->|]; done.
Qed.

Lemma startsWith_slash_false (k : string) :
  JS.startsWith k "/" = false → withoutLeadingSlash k = k.
Proof.
  destruct k as [|c k]; [done|]. rewrite startsWith_cons, prefix_nil.
  simpl. destruct (Ascii.eqb c "/"); done.
Qed.

Lemma normalizeKey_shape (o : S3Options) (k : string) :
  Client.normalizeKey o k = prefix o +:+ "/" +:+ withoutLeadingSlash k.
Proof.
  unfold Client.normalizeKey. destruct (JS.startsWith k "/") eqn:E.
  - by rewrite (startsWith_slash k E) at 1.
  - by rewrite (startsWith_slash_false k E).
Qed.

Lemma normalizeKey_plain_inj (o : S3Options) (k1 k2 : string) :
  plainName k1 → plainName k2 →
  Client.normalizeKey o k1 = Client.normalizeKey o k2 → k1 = k2.
Proof.
  unfold plainName. intros H1 H2. rewrite !normalizeKey_shape.
  rewrite (startsWith_slash_false _ H1), (startsWith_slash_false _ H2).
  intros E. apply append_inv_head in E. by injection E.
Qed.

(** Two names are stored under the same key exactly when they are equal up
    to one leading slash. *)
Theorem normalizeKey_collisions (o : S3Options) (k1 k2 : string) :
  Client.normalizeKey o k1 = Client.normalizeKey o k2
  ↔ withoutLeadingSlash k1 = withoutLeadingSlash k2.
Proof.
  rewrite !normalizeKey_shape. split.
  - intros E. apply append_inv_head in E. by injection E.
  - by intros ->.
Qed.

Example normalizeKey_collision_sample :
  Client.normalizeKey (Sample.s3Options "app") "/index.html"
  = Client.normalizeKey (Sample.s3Options "app") "index.html".
Proof. reflexivity. Qed.

(** Two files of the output directory go by the same name only when
    [cleanHtmlSuffix] is on and the path of one is the path of the other
    followed by [.html]. *)
Theorem logicalName_collisions `{Host} (p : Plugin) (_outDir rel1 rel2 : string)
    (d1 d2 : list byte) :
  let file1 := {| path := _outDir +:+ "/" +:+ rel1; readFile := d1 |} in
  let file2 := {| path := _outDir +:+ "/" +:+ rel2; readFile := d2 |} in
  rel1 ≠ rel2 →
  (logicalName p _outDir file1 = logicalName p _outDir file2
   ↔ cleanHtmlSuffix_on (options p) = true
     ∧ ((rel1 = rel2 +:+ ".html" ∧ JS.endsWith rel2 ".html" = false)
        ∨ (rel2 = rel1 +:+ ".html" ∧ JS.endsWith rel1 ".html" = false))).
Proof.
  intros file1 file2 Hne. subst file1 file2. rewrite !logicalName_getFiles.
  assert (Hstrip : ∀ rel, JS.endsWith rel ".html" = true →
                          rel = JS.slice_0_neg rel 5 +:+ ".html").
  { intros rel [q ->]%endsWith_inv. f_equal. symmetry.
    apply (slice_0_neg_app q ".html"). }
  destruct (cleanHtmlSuffix_on (options p)); simpl; [|split; [done|by intros [? _]]].
  destruct (JS.endsWith rel1 ".html") eqn:E1, (JS.endsWith rel2 ".html") eqn:E2.
  - split.
    + intros E. destruct Hne. by rewrite (Hstrip _ E1), (Hstrip _ E2), E.
    + intros [_ [[_ ?]|[_ ?]]]; done.
  - split.
    + intros E. split; [done|]. left. split; [|done].
      by rewrite (Hstrip _ E1) at 1; rewrite E.
    + intros [_ [[-> _]|[-> _]]].
      * apply (slice_0_neg_app rel2 ".html").
      * by rewrite endsWith_app in E2.
  - split.
    + intros E. split; [done|]. right. split; [|done].
      by rewrite (Hstrip _ E2) at 1; rewrite E.
    + intros [_ [[-> _]|[-> _]]].
      * by rewrite endsWith_app in E1.
      * symmetry. apply (slice_0_neg_app rel1 ".html").
  - split; [done|].
    intros [_ [[-> _]|[-> _]]].
    + by rewrite endsWith_app in E1.
    + by rewrite endsWith_app in E2.
Qed.

Lemma logicalName_collisions_witness :
  logicalName Sample.cleanGzipPlugin Sample.outDir
    {| path := Sample.outDir +:+ "/" +:+ "about.html"; readFile := [] |}
  = logicalName Sample.cleanGzipPlugin Sample.outDir
      {| path := Sample.outDir +:+ "/" +:+ "about"; readFile := [] |}
  ↔ cleanHtmlSuffix_on (options Sample.cleanGzipPlugin) = true
    ∧ (("about.html" = "about" +:+ ".html" ∧ JS.endsWith "about" ".html" = false)
       ∨ ("about" = "about.html" +:+ ".html"
          ∧ JS.endsWith "about.html" ".html" = false)).
Proof.
  apply (@logicalName_collisions Sample.host Sample.cleanGzipPlugin Sample.outDir
           "about.html" "about" [] []).
  discriminate.
Defined.

(** * The bucket *)

(** ** Replaying requests *)

Lemma touchedKeys_app (evs1 evs2 : list Event) :
  touchedKeys (evs1 ++ evs2) = touchedKeys evs1 ++ touchedKeys evs2.
Proof. apply omap_app. Qed.

Lemma touchedKeys_prefix (evs plan : list Event) (K : string) :
  evs `prefix_of` plan → K ∉ touchedKeys plan → K ∉ touchedKeys evs.
Proof.
  intros [rest ->]. rewrite touchedKeys_app, not_elem_of_app. tauto.
Qed.

Lemma replay_app (l : bool) (evs1 evs2 : list Event) (objs : gmap string S3Object) :
  replay l (evs1 ++ evs2) objs = replay l evs2 (replay l evs1 objs).
Proof. apply foldl_app. Qed.

Lemma service_untouched (l : bool) (r : S3Request) (objs : gmap string S3Object)
    (K : string) :
  writtenKey r ≠ Some K → (S3.service l r objs).2 !! K = objs !! K.
Proof.
  destruct r as [b k|i|b k|b k ts]; simpl; intros Hne.
  - by destruct (objs !! k).
  - apply lookup_insert_ne. congruence.
  - apply lookup_delete_ne. congruence.
  - destruct (objs !! k); simpl; [|done]. apply lookup_insert_ne. congruence.
Qed.

Lemma replay_untouched (l : bool) (evs : list Event) (objs : gmap string S3Object)
    (K : string) :
  K ∉ touchedKeys evs → replay l evs objs !! K = objs !! K.
Proof.
  revert objs. induction evs as [|e evs IH]; intros objs Hout; [done|].
  change (replay l (e :: evs) objs) with (replay l evs (replay l [e] objs)).
  change (e :: evs) with ([e] ++ evs) in Hout.
  rewrite touchedKeys_app, not_elem_of_app in Hout. destruct Hout as [He Hevs].
  rewrite (IH _ Hevs). destruct e as [r| |]; try done. simpl.
  apply service_untouched. intros E. apply He. simpl. rewrite E.
  apply list_elem_of_here.
Qed.

Lemma replay_put (l : bool) (evs1 evs2 : list Event) (i : PutObjectInput)
    (objs : gmap string S3Object) :
  Key i ∉ touchedKeys evs2 →
  replay l (evs1 ++ EvS3 (PutObject i) :: evs2) objs !! Key i
  = Some {| stored := i; tags := [] |}.
Proof.
  intros Hout.
  change (EvS3 (PutObject i) :: evs2) with ([EvS3 (PutObject i)] ++ evs2).
  rewrite !replay_app, (replay_untouched _ _ _ _ Hout). simpl.
  apply lookup_insert_eq.
Qed.

Lemma replay_tag (l : bool) (evs1 evs2 : list Event) (b k : string)
    (ts : list TagPair) (objs : gmap string S3Object) :
  k ∉ touchedKeys evs1 → k ∉ touchedKeys evs2 →
  replay l (evs1 ++ EvS3 (PutObjectTagging b k ts) :: evs2) objs !! k
  = tagged ts <$> objs !! k.
Proof.
  intros Hout1 Hout2.
  change (EvS3 (PutObjectTagging b k ts) :: evs2)
    with ([EvS3 (PutObjectTagging b k ts)] ++ evs2).
  rewrite !replay_app, (replay_untouched _ _ _ _ Hout2). simpl.
  rewrite <- (replay_untouched l evs1 objs k Hout1).
  destruct (replay l evs1 objs !! k) as [ob|] eqn:E; simpl.
  - apply lookup_insert_eq.
  - done.
Qed.

(** ** Lawful code *)

Lemma lawful_ret {A} (a : A) : lawful (ret a).
Proof.
  intros w. exists []. simpl. rewrite app_nil_r.
  split; [done|]. split; [done|]. by split.
Qed.

Lemma lawful_throw {A} (e : Thrown) : lawful (@throw A e).
Proof.
  intros w. exists []. simpl. rewrite app_nil_r.
  split; [done|]. split; [done|]. by split.
Qed.

Lemma lawful_pollution : lawful pollution.
Proof.
  intros w. exists []. simpl. rewrite app_nil_r.
  split; [done|]. split; [done|]. by split.
Qed.

Lemma lawful_pollute (k : Kind) : lawful (pollute k).
Proof.
  intros w. exists []. simpl. rewrite app_nil_r.
  split; [done|]. split; [done|]. by split.
Qed.

Lemma lawful_gzip (d : list byte) (o : option ZlibOptions) : lawful (emit (EvGzip d o)).
Proof.
  intros w. exists [EvGzip d o]. split; [done|]. split; [done|]. by split.
Qed.

Lemma lawful_log (line : string) : lawful (logger_info line).
Proof.
  intros w. exists [EvLog line]. split; [done|]. split; [done|]. by split.
Qed.

Lemma lawful_send (req : S3Request) : lawful (S3.send req).
Proof.
  assert (Hsv : ∀ (l : bool) objs K,
             K ∉ touchedKeys [EvS3 req] →
             (S3.service l req objs).2 !! K = objs !! K).
  { intros l objs K HK. apply service_untouched. intros E. apply HK. simpl.
    rewrite E. apply list_elem_of_here. }
  intros w. exists [EvS3 req]. unfold S3.send, faultFree.
  destruct (faults w) as [|[e|] fs] eqn:Hfs.
  - destruct (S3.service _ _ _) as [r objs] eqn:E. simpl.
    replace objs with (S3.service (may_list w) req (objects w)).2 by (by rewrite E).
    split; [done|]. split; [done|]. split; [by apply Hsv|]. by intros _.
  - simpl. split; [done|]. split; [done|]. split; [done|].
    intros Hff. by inversion Hff.
  - destruct (S3.service _ _ _) as [r objs] eqn:E. simpl.
    replace objs with (S3.service (may_list w) req (objects w)).2 by (by rewrite E).
    split; [done|]. split; [done|]. split; [by apply Hsv|].
    intros Hff. split; [by inversion Hff|done].
Qed.

Lemma lawful_bind {A B} (c : M A) (k : A → M B) :
  lawful c → (∀ a, lawful (k a)) → lawful (bind c k).
Proof.
  intros Hc Hk w. destruct (Hc w) as (evs1 & Htr1 & Hl1 & Hfp1 & Hff1).
  unfold bind. destruct (c w) as [[e|a] w1]; simpl in *.
  - exists evs1. split; [done|]. split; [done|]. by split.
  - destruct (Hk a w1) as (evs2 & Htr2 & Hl2 & Hfp2 & Hff2).
    exists (evs1 ++ evs2). split; [by rewrite Htr2, Htr1, app_assoc|].
    split; [congruence|]. split.
    + intros K. rewrite touchedKeys_app, not_elem_of_app. intros [H1 H2].
      by rewrite Hfp2, Hfp1.
    + intros Hff. destruct (Hff1 Hff) as [Hffa Hoa].
      destruct (Hff2 Hffa) as [Hffb Hob]. split; [done|].
      by rewrite Hob, Hoa, Hl1, replay_app.
Qed.

Lemma lawful_try_catch {A} (c : M A) (h : Thrown → M A) :
  lawful c → (∀ e, lawful (h e)) → lawful (try_catch c h).
Proof.
  intros Hc Hh w. destruct (Hc w) as (evs1 & Htr1 & Hl1 & Hfp1 & Hff1).
  unfold try_catch. destruct (c w) as [[e|a] w1]; simpl in *.
  - destruct (Hh e w1) as (evs2 & Htr2 & Hl2 & Hfp2 & Hff2).
    exists (evs1 ++ evs2). split; [by rewrite Htr2, Htr1, app_assoc|].
    split; [congruence|]. split.
    + intros K. rewrite touchedKeys_app, not_elem_of_app. intros [H1 H2].
      by rewrite Hfp2, Hfp1.
    + intros Hff. destruct (Hff1 Hff) as [Hffa Hoa].
      destruct (Hff2 Hffa) as [Hffb Hob]. split; [done|].
      by rewrite Hob, Hoa, Hl1, replay_app.
  - exists evs1. split; [done|]. split; [done|]. by split.
Qed.

Create HintDb lawful discriminated.
#[export] Hint Resolve lawful_ret lawful_throw lawful_pollution lawful_pollute
  lawful_gzip lawful_log lawful_send lawful_bind lawful_try_catch : lawful.

Section Lawful.
Context `{Host}.
Variable p : Plugin.
Variable _outDir : string.

Lemma lawful_get (o : S3Options) (k : string) : lawful (Client.get o k).
Proof.
  unfold Client.get. apply lawful_try_catch.
  - apply lawful_bind; [apply lawful_send|]. intros [b|]; simpl; auto with lawful.
  - intros e. destruct (_ || _); auto with lawful.
Qed.

Lemma lawful_getJson (o : S3Options) (k : string) : lawful (Client.getJson o k).
Proof.
  unfold Client.getJson. apply lawful_bind; [apply lawful_get|].
  intros [b|]; [|auto with lawful]. destruct (JSON_parse _); auto with lawful.
Qed.

Lemma lawful_put (o : S3Options) (k : string) (body : BodyData)
    (meta : option PutObjectOptions) :
  lawful (Client.put o k body meta).
Proof. unfold Client.put. auto with lawful. Qed.

Lemma lawful_del (o : S3Options) (k : string) : lawful (Client.del o k).
Proof. unfold Client.del. auto with lawful. Qed.

Lemma lawful_tag (o : S3Options) (k tk tv : string) : lawful (Client.tag o k tk tv).
Proof.
  unfold Client.tag. apply lawful_try_catch; [auto with lawful|].
  intros e. destruct (is_error_named _ _); auto with lawful.
Qed.

Lemma lawful_property (fp : Fingerprints) (name : string) : lawful (property fp name).
Proof. unfold property. auto with lawful. Qed.

Lemma lawful_markProcessed (name : string) (fp : Fingerprints) :
  lawful (markProcessed name fp).
Proof.
  unfold markProcessed. apply lawful_bind; [apply lawful_property|].
  intros [|x|k t|k]; auto with lawful.
  - destruct (is_truthy x), (is_object x); auto with lawful.
  - destruct t; auto with lawful.
Qed.

Lemma lawful_gzipAsync (d : list byte) (o : option ZlibOptions) :
  lawful (gzipAsync d o).
Proof.
  unfold gzipAsync. apply lawful_bind; [apply lawful_gzip|].
  intros _. destruct (zlib_gzip d o); auto with lawful.
Qed.

Lemma lawful_upload (name : string) (file : LocalFile) : lawful (upload p name file).
Proof.
  unfold upload. apply lawful_bind.
  - destruct (gzips p file); [|auto with lawful].
    apply lawful_bind; [apply lawful_gzipAsync|]. auto with lawful.
  - intros r. apply lawful_bind; [apply lawful_put|]. auto with lawful.
Qed.

Lemma lawful_fileStep (st : Fingerprints * FileFingerprintMap) (file : LocalFile) :
  lawful (fileStep p _outDir st file).
Proof.
  unfold fileStep. apply lawful_bind; [apply lawful_markProcessed|].
  intros fp. apply lawful_bind; [apply lawful_property|].
  intros v. apply lawful_bind; [|auto with lawful].
  destruct (hashDiffers _ _); [apply lawful_upload|auto with lawful].
Qed.

Lemma lawful_forFiles (files : list LocalFile)
    (st : Fingerprints * FileFingerprintMap) :
  lawful (forFiles p _outDir files st).
Proof.
  revert st. induction files as [|file rest IH]; intros st; simpl.
  - apply lawful_ret.
  - apply lawful_bind; [apply lawful_fileStep|done].
Qed.

Lemma lawful_staleStep (fp : Fingerprints) (k : string) : lawful (staleStep p fp k).
Proof.
  unfold staleStep. apply lawful_bind; [apply lawful_property|].
  intros v. apply lawful_bind; [apply lawful_pollution|].
  intros pol. destruct (reads_processed _ _ _) as [e|[|]]; auto with lawful.
  apply lawful_bind; [|intros; apply lawful_log].
  destruct (resolvedDeleteUseTag p); [apply lawful_tag|apply lawful_del].
Qed.

Lemma lawful_forStale (fp : Fingerprints) (keys : list string) :
  lawful (forStale p fp keys).
Proof.
  induction keys as [|k rest IH]; simpl; [apply lawful_ret|].
  apply lawful_bind; [apply lawful_staleStep|done].
Qed.

Lemma lawful_syncFrom (doc : Json) (files : list LocalFile) :
  lawful (syncFrom p _outDir doc files).
Proof.
  unfold syncFrom. apply lawful_bind; [apply lawful_forFiles|]. intros st.
  apply lawful_bind; [apply lawful_pollution|]. intros pol.
  apply lawful_bind; [apply lawful_forStale|]. intros _.
  apply lawful_bind; [apply lawful_put|]. intros _. apply lawful_log.
Qed.

Lemma lawful_writeBundle (tree : list (string * list byte)) :
  lawful (writeBundle p _outDir tree).
Proof.
  unfold writeBundle. apply lawful_bind; [apply lawful_getJson|].
  intros r. apply lawful_syncFrom.
Qed.

End Lawful.

(** ** What the requests of a run write to *)

Lemma lawful_untouched {A} (c : M A) (plan : list Event) (post : A → World → Prop)
    (w : World) (K : string) :
  lawful c → runs c w plan post → K ∉ touchedKeys plan →
  objects (c w).2 !! K = objects w !! K.
Proof.
  intros Hl Hr HK. destruct (Hl w) as (evs & Htr & _ & Hfp & _).
  destruct Hr as (evs' & Htr' & Hout).
  rewrite Htr in Htr'. apply app_inv_head in Htr' as <-.
  apply Hfp. destruct ((c w).1).
  - by apply (touchedKeys_prefix _ plan).
  - by destruct Hout as [-> _].
Qed.

Lemma lawful_replay {A} (c : M A) (plan : list Event) (post : A → World → Prop)
    (w w' : World) (a : A) :
  lawful c → runs c w plan post → faultFree w → c w = (inr a, w') →
  faultFree w' ∧ may_list w' = may_list w
  ∧ objects w' = replay (may_list w) plan (objects w).
Proof.
  intros Hl Hr Hff Hrun. destruct (Hl w) as (evs & Htr & Hml & _ & Hrep).
  destruct Hr as (evs' & Htr' & Hout).
  rewrite Htr in Htr'. apply app_inv_head in Htr' as <-.
  rewrite Hrun in *. simpl in *. destruct Hout as [-> _].
  destruct (Hrep Hff) as [? ?]. done.
Qed.

(** * The client *)

Section Stored.
Context `{Host}.
Variable p : Plugin.

Lemma put_inr (k : string) (body : BodyData) (meta : PutObjectOptions)
    (w w' : World) :
  Client.put (s3 (options p)) k body (Some meta) w = (inr tt, w') →
  objects w'
  = <[Client.normalizeKey (s3 (options p)) k :=
        {| stored := putRequest p k body meta; tags := [] |}]> (objects w).
Proof.
  unfold Client.put, bind, S3.send.
  destruct (faults w) as [|[e|] fs]; simpl; [|done|]; by intros [= <-].
Qed.

Lemma getJson_objects (k : string) (w : World) :
  objects (Client.getJson (s3 (options p)) k w).2 = objects w.
Proof.
  destruct (lawful_getJson (s3 (options p)) k w) as (evs & Htr & _ & Hfp & _).
  rewrite (getJson_trace p k w _ _ (surjective_pairing _)) in Htr.
  apply app_inv_head in Htr as <-.
  apply map_eq. intros K. apply Hfp. simpl. apply not_elem_of_nil.
Qed.

Lemma tag_objects (k tk tv : string) (w : World) :
  faultFree w →
  objects (Client.tag (s3 (options p)) k tk tv w).2
  = (S3.service (may_list w)
       (PutObjectTagging (bucket (s3 (options p)))
          (Client.normalizeKey (s3 (options p)) k)
          [{| key := tk; value := tv |}]) (objects w)).2.
Proof.
  intros Hff.
  destruct (lawful_tag (s3 (options p)) k tk tv w) as (evs & Htr & _ & _ & Hrep).
  rewrite (tag_trace p k tk tv w _ _ (surjective_pairing _)) in Htr.
  apply app_inv_head in Htr as <-. by destruct (Hrep Hff) as [_ ->].
Qed.

Lemma getJson_stored (k : string) (s : string) (i : PutObjectInput)
    (ts : list TagPair) (w : World) :
  faultFree w →
  objects w !! Client.normalizeKey (s3 (options p)) k
  = Some {| stored := i; tags := ts |} →
  Body i = BodyString s →
  ∃ w1, Client.getJson (s3 (options p)) k w
        = (match JSON_parse s with
           | inr v => inr (Some v)
           | inl e => inl e
           end, w1)
        ∧ faultFree w1 ∧ objects w1 = objects w.
Proof.
  intros Hff Hobj Hbody.
  destruct (get_faultFree p k w Hff) as (w1 & Hget & Hff1).
  pose proof (getJson_objects k w) as Hsame.
  exists w1. unfold Client.getJson in *. rewrite (bind_run _ _ _ _ _ Hget) in *.
  rewrite Hobj in *. simpl in *. rewrite Hbody in *. simpl in *.
  rewrite string_of_list_byte_of_string in *.
  destruct (JSON_parse s); simpl in *; done.
Qed.

End Stored.

(** What [put] stores, [get] returns: on a transport without faults, a
    [put] under a name followed by a [get] under a name with the same key
    both return, the [get] with the bytes of the body that was put. *)
Theorem put_then_get `{Host} (p : Plugin) (k k' : string) (body : BodyData)
    (meta : PutObjectOptions) (w : World) :
  let o := s3 (options p) in
  faultFree w →
  Client.normalizeKey o k' = Client.normalizeKey o k →
  ∃ w1 w2,
    Client.put o k body (Some meta) w = (inr tt, w1)
    ∧ Client.get o k' w1 = (inr (Some (body_bytes body)), w2).
Proof.
  intros o Hff Hk. subst o.
  destruct (put_faultFree p k body (Some meta) w Hff) as (w1 & Hput & _ & _ & Hff1).
  destruct (get_faultFree p k' w1 Hff1) as (w2 & Hget & _).
  exists w1, w2. split; [done|]. rewrite Hget.
  rewrite (put_inr p _ _ _ _ _ Hput), Hk, lookup_insert_eq. done.
Qed.

Lemma put_then_get_witness :
  ∃ w1 w2,
    @Client.put (s3 (options Sample.plainPlugin)) "a.txt"
      (BodyBytes (Sample.bytes "abc")) (Some (@getFileMeta Sample.host "a.txt"))
      Sample.emptyWorld = (inr tt, w1)
    ∧ @Client.get (s3 (options Sample.plainPlugin)) "/a.txt" w1
      = (inr (Some (Sample.bytes "abc")), w2).
Proof.
  apply (@put_then_get Sample.host Sample.plainPlugin "a.txt" "/a.txt"
           (BodyBytes (Sample.bytes "abc")) (@getFileMeta Sample.host "a.txt")
           Sample.emptyWorld);
    [constructor|reflexivity].
Defined.

(** Retiring an object, on a transport without faults.  After [del] the
    object is absent: a [get] under the same key yields nothing, whether
    or not the caller may list the bucket.  After [tag] every [get]
    returns what it returned before, and the object, if there is one,
    carries the given tag and no other. *)
Theorem retired_object_reads `{Host} (p : Plugin) (k k' tk tv : string) (w : World) :
  let o := s3 (options p) in
  faultFree w →
  (Client.normalizeKey o k' = Client.normalizeKey o k →
   ∃ w1 w2, Client.del o k w = (inr tt, w1) ∧ Client.get o k' w1 = (inr None, w2))
  ∧ (∃ w1, Client.tag o k tk tv w = (inr tt, w1)
           ∧ (Client.get o k' w1).1 = (Client.get o k' w).1
           ∧ objects w1 !! Client.normalizeKey o k
             = tagged [{| key := tk; value := tv |}]
               <$> objects w !! Client.normalizeKey o k).
Proof.
  intros o Hff. subst o. split.
  - intros Hk.
    destruct (del_faultFree p k w Hff) as (w1 & Hdel & Hobj & _ & _ & Hff1).
    destruct (get_faultFree p k' w1 Hff1) as (w2 & Hget & _).
    exists w1, w2. split; [done|]. by rewrite Hget, Hobj, Hk, lookup_delete_eq.
  - destruct (tag_faultFree p k tk tv w Hff) as (w1 & Htag & _ & _ & Hff1).
    pose proof (tag_objects p k tk tv w Hff) as Hobj. rewrite Htag in Hobj.
    simpl in Hobj.
    exists w1. split; [done|].
    destruct (get_faultFree p k' w Hff) as (w2 & -> & _).
    destruct (get_faultFree p k' w1 Hff1) as (w3 & -> & _). simpl.
    rewrite Hobj.
    destruct (objects w !! Client.normalizeKey (s3 (options p)) k) as [ob|] eqn:E;
      simpl; [|by rewrite E].
    rewrite lookup_insert_eq. split; [|done]. f_equal.
    destruct (decide (Client.normalizeKey (s3 (options p)) k
                      = Client.normalizeKey (s3 (options p)) k')) as [<-|Hne].
    + by rewrite lookup_insert_eq, E.
    + by rewrite lookup_insert_ne.
Qed.

Lemma retired_object_reads_witness :
  ∃ w1, @Client.tag (s3 (options Sample.tagPlugin)) "index.html" "stale" "stale"
          Sample.deployedWithTag = (inr tt, w1)
        ∧ (@Client.get (s3 (options Sample.tagPlugin)) "index.html" w1).1
          = (@Client.get (s3 (options Sample.tagPlugin)) "index.html"
               Sample.deployedWithTag).1
        ∧ objects w1 !! "app/index.html"
          = tagged [{| key := "stale"; value := "stale" |}]
            <$> objects Sample.deployedWithTag !! "app/index.html".
Proof.
  apply (@retired_object_reads Sample.host Sample.tagPlugin "index.html" "index.html"
           "stale" "stale" Sample.deployedWithTag).
  constructor.
Defined.

(** * Further properties of a pass *)

(** ** What the requests of a pass write to *)

Lemma bind_pollution {A} (k : list Kind → M A) (w : World) :
  bind pollution k w = k (polluted w) w.
Proof. reflexivity. Qed.

Lemma prefix_app_cases {A} (l a b : list A) :
  l `prefix_of` a ++ b → l `prefix_of` a ∨ ∃ k, l = a ++ k ∧ k `prefix_of` b.
Proof.
  revert l. induction a as [|x a IH]; intros l Hl.
  - right. by exists l.
  - destruct l as [|y l]; [left; by exists (x :: a)|].
    simpl in Hl. destruct Hl as [rest E]. injection E as <- E.
    destruct (IH l) as [Hp|(k & -> & Hk)].
    + by exists rest.
    + left. by apply prefix_cons.
    + right. by exists k.
Qed.

Lemma normalizeKey_below (o : S3Options) (k : string) :
  JS.startsWith (Client.normalizeKey o k) (prefix o +:+ "/") = true.
Proof.
  rewrite normalizeKey_shape. unfold JS.startsWith.
  rewrite <- append_assoc. apply prefix_refl_app.
Qed.

Section Footprint.
Context `{Host}.
Variable p : Plugin.
Variable _outDir : string.

Lemma staleEvents_retire (pol : list Kind) (doc : Json) (marks keys : list string) :
  flat_map (staleEvents p pol doc marks) keys
  = flat_map (retireEvents p) (List.filter (retired pol doc marks) keys).
Proof.
  induction keys as [|k rest IH]; [done|]. simpl. rewrite IH.
  unfold staleEvents. by destruct (retired pol doc marks k).
Qed.

Lemma touchedKeys_retire (names : list string) :
  touchedKeys (flat_map (retireEvents p) names)
  = Client.normalizeKey (s3 (options p)) <$> names.
Proof.
  induction names as [|k rest IH]; [done|].
  change (flat_map (retireEvents p) (k :: rest))
    with (retireEvents p k ++ flat_map (retireEvents p) rest).
  rewrite touchedKeys_app, IH. unfold retireEvents, staleRequest.
  by destruct (resolvedDeleteUseTag p).
Qed.

Lemma passEvents_retire (pol : list Kind) (doc : Json) (files : list LocalFile) :
  passEvents p _outDir pol doc files
  = flat_map (fileEvents p _outDir doc) files
    ++ flat_map (retireEvents p) (staleNames p _outDir pol doc files)
    ++ [EvS3 (PutObject (manifestPut p (newManifest p _outDir files)));
        EvLog "Deployed"].
Proof.
  unfold passEvents, loopEvents, staleNames.
  by rewrite staleEvents_retire, <- app_assoc.
Qed.


Lemma touchedKeys_uploadEvents (file : LocalFile) :
  touchedKeys (uploadEvents p _outDir file)
  = match assetPut p _outDir file with
    | Some _ => [fileKey p _outDir file]
    | None => []
    end.
Proof.
  unfold uploadEvents. rewrite touchedKeys_app.
  replace (touchedKeys (if gzips p file then _ else _)) with (@nil string)
    by (destruct (gzips p file); [|done]; by destruct (zlib_gzip _ _)).
  destruct (assetPut p _outDir file) as [i|] eqn:E; [|done].
  simpl. by rewrite (assetPut_key p _outDir file i E).
Qed.

Lemma touchedKeys_fileEvents_elem (doc : Json) (files : list LocalFile) (K : string) :
  K ∈ touchedKeys (flat_map (fileEvents p _outDir doc) files) →
  ∃ f, f ∈ files ∧ changed p _outDir doc f = true ∧ K = fileKey p _outDir f.
Proof.
  induction files as [|f l IH]; simpl; [by intros ?%elem_of_nil|].
  rewrite touchedKeys_app. intros [Hin|Hin]%elem_of_app.
  - exists f. split; [by left|]. unfold fileEvents in Hin.
    destruct (changed p _outDir doc f); [|by apply elem_of_nil in Hin].
    split; [done|]. rewrite touchedKeys_uploadEvents in Hin.
    destruct (assetPut p _outDir f); [|by apply elem_of_nil in Hin].
    by apply list_elem_of_singleton in Hin.
  - destruct (IH Hin) as (g & Hg & Hc & HK). exists g. split; [by right|done].
Qed.

(** When every changed file is sent, the keys of the file loop are the
    keys of the changed files. *)
Lemma touchedKeys_fileEvents (doc : Json) (files : list LocalFile) :
  allSent p _outDir doc files →
  touchedKeys (flat_map (fileEvents p _outDir doc) files)
  = fileKey p _outDir <$> List.filter (changed p _outDir doc) files.
Proof.
  induction 1 as [|f l Hf _ IH]; simpl; [done|].
  rewrite touchedKeys_app, IH. unfold fileEvents.
  destruct (changed p _outDir doc f); [|done].
  rewrite touchedKeys_uploadEvents. by destruct (Hf eq_refl) as [i ->].
Qed.

(** The stale loop visits the own keys of the manifest, and the
    [__processed] an earlier pass left on a prototype. *)
Lemma staleNames_elem (pol : list Kind) (doc : Json) (files : list LocalFile)
    (k : string) :
  k ∈ staleNames p _outDir pol doc files → k ∈ ownKeys doc ∨ k = "__processed".
Proof.
  unfold staleNames. intros Hin.
  apply list_elem_of_In, filter_In in Hin as [Hin _]. apply list_elem_of_In in Hin.
  unfold forIn in Hin. apply elem_of_app in Hin as [?|Hin]; [by left|].
  destruct (_ && _); [|by apply elem_of_nil in Hin].
  right. by apply list_elem_of_singleton in Hin.
Qed.

(** In a manifest of objects, an entry is retired only if no local file
    goes by its name. *)
Lemma staleNames_objects (pol : list Kind) (doc : Json) (files : list LocalFile)
    (k : string) :
  objectEntries doc →
  k ∈ staleNames p _outDir pol doc files →
  k ∈ ownKeys doc ∧ k ∉ logicalName p _outDir <$> files.
Proof.
  intros (props & -> & Hobj). unfold staleNames. intros Hin.
  apply list_elem_of_In, filter_In in Hin as [Hin Hret]. apply list_elem_of_In in Hin.
  set (pol' := polluteAll p _outDir (JObject props) files pol) in *.
  unfold forIn in Hin. apply elem_of_app in Hin as [Hk|Hk].
  - split; [done|]. simpl in Hk.
    apply elem_of_remove_dups, own_elem in Hk as [v Hv].
    pose proof (Hobj _ _ Hv) as Ho.
    intros Hname. unfold retired, lookup in Hret. simpl in Hret.
    rewrite Hv in Hret. simpl in Hret.
    rewrite bool_decide_eq_true_2 in Hret.
    + destruct v; done.
    + apply markAll_elem. right. split; [done|]. exists v.
      unfold lookup. simpl. by rewrite Hv.
  - exfalso.
    destruct (inherits pol' (kind_of (JObject props))) eqn:Hinh; simpl in Hk;
      [|by apply elem_of_nil in Hk].
    destruct (bool_decide _) eqn:Hown; simpl in Hk; [by apply elem_of_nil in Hk|].
    apply list_elem_of_singleton in Hk as ->.
    apply bool_decide_eq_false in Hown. simpl in Hown.
    unfold retired, lookup in Hret. simpl in Hret.
    destruct (own "__processed" props) as [v|] eqn:Hv.
    + apply Hown, elem_of_remove_dups, own_elem. by eexists.
    + simpl in Hret. unfold inherited in Hret. simpl in Hret, Hinh.
      rewrite Hinh in Hret. simpl in Hret.
      unfold inherits in *. apply orb_prop in Hinh as [Hi|Hi];
        rewrite Hi in Hret; by rewrite orb_true_r in Hret.
Qed.

Lemma NoDup_ownKeys (doc : Json) : NoDup (ownKeys doc).
Proof.
  destruct doc; simpl; try apply NoDup_nil_2.
  - unfold indices. apply (NoDup_fmap_2 pretty), NoDup_seq.
  - unfold indices. apply (NoDup_fmap_2 pretty), NoDup_seq.
  - apply NoDup_remove_dups.
Qed.

(** The keys a pass may write to, read off its inputs. *)
Lemma passEvents_untouched (pol : list Kind) (doc : Json) (files : list LocalFile)
    (K : string) :
  K ≠ Client.normalizeKey (s3 (options p)) manifestKey →
  (∀ file, file ∈ files → changed p _outDir doc file = true →
           K ≠ fileKey p _outDir file) →
  (∀ k, k ∈ ownKeys doc ∨ k = "__processed" →
        (objectEntries doc → k ∈ ownKeys doc ∧ k ∉ logicalName p _outDir <$> files) →
        K ≠ Client.normalizeKey (s3 (options p)) k) →
  K ∉ touchedKeys (passEvents p _outDir pol doc files).
Proof.
  intros Hm Hfiles Hstale. rewrite passEvents_retire, !touchedKeys_app.
  rewrite !not_elem_of_app. repeat split.
  - intros (f & Hf & Hc & ->)%touchedKeys_fileEvents_elem. by apply (Hfiles f).
  - rewrite touchedKeys_retire. intros (k & -> & Hk)%list_elem_of_fmap.
    apply (Hstale k); [by apply (staleNames_elem pol doc files)| |done].
    intros Hobj. by apply (staleNames_objects pol doc files).
  - by intros ->%list_elem_of_singleton.
Qed.

Lemma belowPrefix_passEvents (pol : list Kind) (doc : Json) (files : list LocalFile) :
  Forall (belowPrefix (s3 (options p))) (passEvents p _outDir pol doc files).
Proof.
  unfold passEvents, loopEvents. rewrite !Forall_app. repeat split.
  - apply Forall_forall. intros e Hin.
    apply list_elem_of_In, in_flat_map in Hin as (f & _ & Hin).
    unfold fileEvents, uploadEvents in Hin.
    destruct (changed _ _ _ _); [|done].
    apply in_app_or in Hin as [Hin|Hin].
    + destruct (gzips p f); [|done].
      destruct Hin as [<-|Hin]; [done|].
      destruct (zlib_gzip _ _); [done|]. by destruct Hin as [<-|[]].
    + destruct (assetPut p _outDir f) as [i|] eqn:E; [|done].
      destruct Hin as [<-|[<-|[]]]; [|done]. simpl.
      rewrite (assetPut_key p _outDir f i E). split; [|apply normalizeKey_below].
      unfold assetPut in E. destruct (payload p f); [done|]. by injection E as <-.
  - apply Forall_forall. intros e Hin.
    apply list_elem_of_In, in_flat_map in Hin as (x & _ & Hin).
    unfold staleEvents in Hin. destruct (retired _ _ _ _); [|done].
    destruct Hin as [<-|[<-|[]]]; [|done]. unfold staleRequest.
    destruct (resolvedDeleteUseTag p); simpl; (split; [done|apply normalizeKey_below]).
  - repeat constructor. apply normalizeKey_below.
Qed.

End Footprint.

(** ** A pass and the rest of the bucket *)

(** Whatever its outcome, and whatever the transport does, a pass leaves
    alone every object whose key is not the manifest's, nor that of a local
    file that changed, nor that of a name the stale loop visits (an entry
    of the loaded manifest, or [__processed]); in a manifest whose entries
    are all objects, only the entries that no local file goes by count.  A
    pass that cannot load the manifest changes nothing. *)
Theorem pass_leaves_other_keys `{Host} (p : Plugin) (_outDir : string)
    (tree : list (string * list byte)) (w : World) (K : string) :
  let o := s3 (options p) in
  let files := getFiles _outDir tree in
  (∀ r, (Client.getJson o manifestKey w).1 = inr r →
        K ≠ Client.normalizeKey o manifestKey
        ∧ (∀ file, file ∈ files → changed p _outDir (orEmpty r) file = true →
                   K ≠ fileKey p _outDir file)
        ∧ (∀ k, k ∈ ownKeys (orEmpty r) ∨ k = "__processed" →
                (objectEntries (orEmpty r) →
                 k ∈ ownKeys (orEmpty r) ∧ k ∉ logicalName p _outDir <$> files) →
                K ≠ Client.normalizeKey o k)) →
  objects (writeBundle p _outDir tree w).2 !! K = objects w !! K.
Proof.
  intros o files HK. subst o files.
  pose proof (getJson_objects p manifestKey w) as Hload.
  unfold writeBundle, bind.
  destruct (Client.getJson (s3 (options p)) manifestKey w) as [[e|r] w1];
    simpl in *; [by rewrite Hload|].
  destruct (HK r eq_refl) as (Hm & Hfiles & Hstale).
  rewrite <- Hload.
  apply (lawful_untouched _ _ _ w1 K
           (lawful_syncFrom p _outDir (orEmpty r) (getFiles _outDir tree))
           (runs_syncFrom p _outDir (orEmpty r) (getFiles _outDir tree) w1)).
  by apply passEvents_untouched.
Qed.

(** Every request of a pass, whatever its outcome, goes to the configured
    bucket, to a key that starts with the configured prefix and a slash. *)
Theorem pass_stays_below_prefix `{Host} (p : Plugin) (_outDir : string)
    (tree : list (string * list byte)) (w : World) :
  ∃ evs,
    trace (writeBundle p _outDir tree w).2 = trace w ++ evs
    ∧ Forall (belowPrefix (s3 (options p))) evs.
Proof.
  destruct (writeBundle_any p _outDir tree w) as [Hget Hrest].
  assert (Hg : belowPrefix (s3 (options p)) (EvS3 (manifestGet p))).
  { split; [done|apply normalizeKey_below]. }
  destruct ((Client.getJson (s3 (options p)) manifestKey w).1) as [e|r].
  - rewrite Hrest. simpl. exists [EvS3 (manifestGet p)]. split; [done|].
    by constructor.
  - destruct Hrest as (evs & Htr & Hout).
    exists ([EvS3 (manifestGet p)] ++ evs).
    split; [by rewrite Htr, Hget, <- app_assoc|].
    apply Forall_app. split; [by constructor|].
    pose proof (belowPrefix_passEvents p _outDir (polluted w) (orEmpty r)
                  (getFiles _outDir tree)) as Hall.
    destruct ((writeBundle p _outDir tree w).1).
    + destruct Hout as [rest Hpre]. rewrite Hpre in Hall.
      by apply Forall_app in Hall as [? _].
    + by subst evs.
Qed.

(** The uploads of a pass come before its deletes and tags: what a pass
    sends, whatever its outcome, is a run of requests without a delete or
    a tag, followed by a run without an asset upload. *)
Theorem uploads_precede_retirements `{Host} (p : Plugin) (_outDir : string)
    (tree : list (string * list byte)) (w : World) :
  ∃ evs1 evs2,
    trace (writeBundle p _outDir tree w).2 = trace w ++ evs1 ++ evs2
    ∧ mutations evs1 = []
    ∧ assetPuts evs2 = [].
Proof.
  destruct (writeBundle_any p _outDir tree w) as [Hget Hrest].
  destruct ((Client.getJson (s3 (options p)) manifestKey w).1) as [e|r].
  - rewrite Hrest. simpl. by exists [EvS3 (manifestGet p)], [].
  - destruct Hrest as (evs & Htr & Hout).
    set (F := flat_map (fileEvents p _outDir (orEmpty r)) (getFiles _outDir tree)).
    set (R := flat_map (retireEvents p)
                (staleNames p _outDir (polluted w) (orEmpty r) (getFiles _outDir tree))
              ++ [EvS3 (PutObject (manifestPut p (newManifest p _outDir
                                                    (getFiles _outDir tree))));
                  EvLog "Deployed"]).
    assert (HF : mutations F = []).
    { unfold mutations, F. apply omap_flat_map_nil. intros f.
      unfold fileEvents, uploadEvents.
      destruct (changed _ _ _ f); [|done]. rewrite omap_app.
      replace (omap _ (if gzips p f then _ else _)) with (@nil S3Request)
        by (destruct (gzips p f); [|done]; by destruct (zlib_gzip _ _)).
      by destruct (assetPut p _outDir f). }
    assert (HR : assetPuts R = []).
    { unfold assetPuts, R. rewrite omap_app, omap_flat_map_nil; [done|].
      intros x. unfold retireEvents, staleRequest.
      by destruct (resolvedDeleteUseTag p). }
    assert (Hpre : evs `prefix_of` F ++ R).
    { unfold F, R. rewrite <- passEvents_retire.
      destruct ((writeBundle p _outDir tree w).1); [done|]. by subst evs. }
    apply prefix_app_cases in Hpre as [[rest HF']|(k & -> & [rest HR'])].
    + exists ([EvS3 (manifestGet p)] ++ evs), [].
      split; [by rewrite Htr, Hget, app_nil_r, <- app_assoc|]. split; [|done].
      rewrite HF' in HF. unfold mutations in *. rewrite omap_app in HF |- *.
      by apply app_eq_nil in HF as [-> _].
    + exists ([EvS3 (manifestGet p)] ++ F), k.
      split; [by rewrite Htr, Hget, <- !app_assoc|]. split.
      * unfold mutations in *. rewrite omap_app. by rewrite HF.
      * rewrite HR' in HR. unfold assetPuts in *. rewrite omap_app in HR.
        by apply app_eq_nil in HR as [-> _].
Qed.

Lemma pass_leaves_other_keys_witness :
  objects (@writeBundle Sample.host Sample.cleanGzipPlugin Sample.outDir Sample.siteV2
             Sample.deployed).2 !! "app/index"
  = objects Sample.deployed !! "app/index".
Proof.
  apply (@pass_leaves_other_keys Sample.host Sample.cleanGzipPlugin Sample.outDir
           Sample.siteV2 Sample.deployed "app/index").
  intros r Hr.
  assert (r = Some (documentOf Sample.deployedManifest)) as ->.
  { vm_compute in Hr. injection Hr as <-. vm_compute. reflexivity. }
  split; [intros E; vm_compute in E; discriminate E|].
  split.
  - intros file Hin Hch E. apply list_elem_of_In in Hin. simpl in Hin.
    destruct Hin as [<-|[<-|[]]].
    + vm_compute in Hch. discriminate Hch.
    + vm_compute in E. discriminate E.
  - intros k _ Hobj E.
    destruct Hobj as [Hown Hout].
    { apply unmarked_objectEntries,
        (isManifest_unmarked _ Sample.deployedManifest), isManifest_documentOf. }
    vm_compute in Hown. apply list_elem_of_In in Hown. simpl in Hown.
    destruct Hown as [<-|[<-|[]]].
    + apply Hout. apply list_elem_of_In. vm_compute. tauto.
    + vm_compute in E. discriminate E.
Defined.

Section Edges.
Context `{Host}.
Variable p : Plugin.
Variable _outDir : string.

Lemma changed_empty (file : LocalFile) : changed p _outDir (JObject []) file = true.
Proof.
  unfold changed, recordedHash, lookup. simpl. unfold inherited.
  destruct (String.eqb _ "__proto__"); [done|]. by destruct (_ && _).
Qed.

Lemma filter_changed_empty (files : list LocalFile) :
  List.filter (changed p _outDir (JObject [])) files = files.
Proof.
  induction files as [|f l IH]; [done|]. simpl. by rewrite changed_empty, IH.
Qed.

Lemma staleNames_empty (pol : list Kind) (files : list LocalFile) :
  staleNames p _outDir pol (JObject []) files = [].
Proof.
  destruct (staleNames p _outDir pol (JObject []) files) as [|k l] eqn:E; [done|].
  assert (k ∈ staleNames p _outDir pol (JObject []) files) as Hk
    by (rewrite E; by left).
  apply staleNames_objects in Hk as [Hk _].
  - by apply elem_of_nil in Hk.
  - by exists [].
Qed.

Lemma filter_all {A} (P : A → Prop) `{!∀ x, Decision (P x)} (l : list A) :
  (∀ x, x ∈ l → P x) → filter P l = l.
Proof.
  induction l as [|x l IH]; intros Hall; [done|].
  rewrite filter_cons, decide_True by (apply Hall; by left).
  f_equal. apply IH. intros y Hy. apply Hall. by right.
Qed.

End Edges.

(** A first deployment: when there is no manifest to start from (it is
    missing, reading it is denied, or it holds [null] or the empty object),
    a pass that runs to its end uploads every local file, in the order of
    enumeration, and deletes and tags nothing. *)
Theorem first_pass_uploads_everything `{Host} (p : Plugin) (_outDir : string)
    (tree : list (string * list byte)) (r : option Json) (w w1 w' : World) :
  Client.getJson (s3 (options p)) manifestKey w = (inr r, w1) →
  orEmpty r = JObject [] →
  writeBundle p _outDir tree w = (inr tt, w') →
  ∃ evs,
    trace w' = trace w1 ++ evs
    ∧ Some <$> assetPuts evs = assetPut p _outDir <$> getFiles _outDir tree
    ∧ mutations evs = [].
Proof.
  intros Hload Hempty Hrun.
  destruct (writeBundle_ok p _outDir tree w w' Hrun)
    as (r' & w1' & Hload' & _ & Htr & Hsent).
  rewrite Hload in Hload'. injection Hload' as <- <-. rewrite Hempty in Htr, Hsent.
  eexists. split; [exact Htr|]. split.
  - rewrite (assetPuts_passEvents p _outDir), filter_changed_empty.
    apply omap_all_Some. apply Forall_forall. intros f Hf.
    apply (proj1 (Forall_forall _ _) Hsent f Hf), changed_empty.
  - by rewrite (mutations_passEvents p _outDir), staleNames_empty.
Qed.

Lemma first_pass_uploads_everything_witness :
  ∃ evs,
    trace Sample.deployed
    = trace (@Client.getJson Sample.host (s3 (options Sample.cleanGzipPlugin))
               manifestKey Sample.emptyWorld).2 ++ evs
    ∧ Some <$> assetPuts evs
      = @assetPut Sample.host Sample.cleanGzipPlugin Sample.outDir
        <$> getFiles Sample.outDir Sample.site
    ∧ mutations evs = [].
Proof.
  apply (@first_pass_uploads_everything Sample.host Sample.cleanGzipPlugin
           Sample.outDir Sample.site None Sample.emptyWorld);
    [vm_compute; reflexivity|reflexivity|vm_compute; reflexivity].
Defined.

(** An empty output directory: with untouched prototypes, a pass that runs
    to its end over no file uploads nothing, retires every entry of the
    loaded manifest (its entries being objects without a marker of their
    own), in the order of the manifest, and writes the empty manifest. *)
Theorem empty_output_retires_everything `{Host} (p : Plugin) (_outDir : string)
    (r : option Json) (w w1 w' : World) :
  unpolluted w →
  Client.getJson (s3 (options p)) manifestKey w = (inr r, w1) →
  unmarkedEntries (orEmpty r) →
  writeBundle p _outDir [] w = (inr tt, w') →
  ∃ evs,
    trace w' = trace w1 ++ evs
    ∧ assetPuts evs = []
    ∧ mutations evs = staleRequest p <$> ownKeys (orEmpty r)
    ∧ manifestPuts evs = [manifestPut p ∅].
Proof.
  intros Hpol Hload Hfmt Hrun.
  destruct (writeBundle_ok p _outDir [] w w' Hrun)
    as (r' & w1' & Hload' & _ & Htr & _).
  rewrite Hload in Hload'. injection Hload' as <- <-.
  eexists. split; [exact Htr|]. split; [|split].
  - by rewrite (assetPuts_passEvents p _outDir).
  - rewrite (mutations_passEvents p _outDir), Hpol.
    rewrite (staleNames_unmarked p _outDir _ _ Hfmt) by apply not_elem_of_nil.
    f_equal. apply filter_all. intros k _. apply not_elem_of_nil.
  - by rewrite (manifestPuts_passEvents p _outDir).
Qed.

Lemma empty_output_retires_everything_witness :
  ∃ evs,
    trace (Sample.after
             (@writeBundle Sample.host Sample.plainPlugin Sample.outDir [])
             Sample.deployed)
    = trace (@Client.getJson Sample.host (s3 (options Sample.plainPlugin))
               manifestKey Sample.deployed).2 ++ evs
    ∧ assetPuts evs = []
    ∧ mutations evs
      = staleRequest Sample.plainPlugin
        <$> @ownKeys Sample.host (orEmpty (Some (documentOf Sample.deployedManifest)))
    ∧ manifestPuts evs = [@manifestPut Sample.host Sample.plainPlugin ∅].
Proof.
  apply (@empty_output_retires_everything Sample.host Sample.plainPlugin
           Sample.outDir (Some (documentOf Sample.deployedManifest)) Sample.deployed).
  - reflexivity.
  - vm_compute; reflexivity.
  - apply (isManifest_unmarked _ Sample.deployedManifest), isManifest_documentOf.
  - vm_compute; reflexivity.
Defined.

(** ** A pass that fails *)

Section Failing.
Context `{Host}.
Variable p : Plugin.
Variable _outDir : string.

Lemma put_inl (k : string) (body : BodyData) (meta : option PutObjectOptions)
    (w w' : World) (e : Thrown) :
  Client.put (s3 (options p)) k body meta w = (inl e, w') →
  objects w' = objects w.
Proof.
  unfold Client.put, bind, S3.send.
  destruct (faults w) as [|[e'|] fs]; simpl; [done| |done]. by intros [= _ <-].
Qed.

(** A pass that fails after loading has got no further than the write of
    the manifest, and that write, if sent, was lost: the bucket has changed
    under keys of the two loops only. *)
Lemma syncFrom_inl (doc : Json) (files : list LocalFile) (w w' : World) (e : Thrown) :
  syncFrom p _outDir doc files w = (inl e, w') →
  ∃ evs,
    trace w' = trace w ++ evs
    ∧ evs `prefix_of`
        loopEvents p _outDir (polluted w) doc files
        ++ [EvS3 (PutObject (manifestPut p (newManifest p _outDir files)))]
    ∧ ∀ K, K ∉ touchedKeys (loopEvents p _outDir (polluted w) doc files) →
           objects w' !! K = objects w !! K.
Proof.
  unfold syncFrom, loopEvents. intros Hrun.
  pose proof (runs_forFiles p _outDir files ({| parsed := doc; marked := [] |}, ∅) w)
    as Hr1.
  pose proof (fun K => lawful_untouched _ _ _ w K
                         (lawful_forFiles p _outDir files _) Hr1) as Hk1.
  destruct Hr1 as (evs1 & Htr1 & Ho1).
  destruct (forFiles p _outDir files ({| parsed := doc; marked := [] |}, ∅) w)
    as [[e1|st] w1] eqn:Hf; simpl in *.
  { rewrite (bind_fail _ _ _ _ _ Hf) in Hrun. injection Hrun as <- <-.
    exists evs1. split; [done|].
    split; [by do 2 apply prefix_app_r|].
    intros K HK. apply Hk1. rewrite touchedKeys_app, not_elem_of_app in HK. tauto. }
  rewrite (bind_run _ _ _ _ _ Hf), bind_pollution in Hrun.
  destruct Ho1 as (-> & -> & Hpol & _). simpl in *. rewrite <- Hpol in *.
  pose proof (runs_forStale p
                {| parsed := doc; marked := markAll p _outDir doc files [] |}
                (forIn (polluted w1) doc) w1) as Hr2.
  pose proof (fun K => lawful_untouched _ _ _ w1 K
                         (lawful_forStale p _ _) Hr2) as Hk2.
  destruct Hr2 as (evs2 & Htr2 & Ho2). simpl in *.
  destruct (forStale p {| parsed := doc; marked := markAll p _outDir doc files [] |}
              (forIn (polluted w1) doc) w1) as [[e2|[]] w2] eqn:Hs; simpl in *.
  { rewrite (bind_fail _ _ _ _ _ Hs) in Hrun. injection Hrun as <- <-.
    eexists. split; [by rewrite Htr2, Htr1, <- app_assoc|].
    split; [by apply prefix_app_r, prefix_app|].
    intros K HK. rewrite touchedKeys_app, not_elem_of_app in HK.
    rewrite Hk2, Hk1; tauto. }
  rewrite (bind_run _ _ _ _ _ Hs) in Hrun.
  destruct Ho2 as [-> _].
  destruct (Client.put (s3 (options p)) manifestKey
              (BodyString (JSON_stringify (rebuild p _outDir files ∅)))
              (Some manifestMeta) w2) as [[e3|[]] w3] eqn:Hput.
  - rewrite (bind_fail _ _ _ _ _ Hput) in Hrun. injection Hrun as <- <-.
    pose proof (put_trace p _ _ _ _ _ _ Hput) as Htr3. apply put_inl in Hput.
    eexists. split; [by rewrite Htr3, Htr2, Htr1, <- !app_assoc|].
    split; [by rewrite <- app_assoc|].
    intros K HK. rewrite touchedKeys_app, not_elem_of_app in HK.
    rewrite Hput, Hk2, Hk1; tauto.
  - by rewrite (bind_run _ _ _ _ _ Hput) in Hrun.
Qed.


Lemma not_Deployed_loops (pol : list Kind) (doc : Json) (files : list LocalFile) :
  EvLog "Deployed"
  ∉ loopEvents p _outDir pol doc files
    ++ [EvS3 (PutObject (manifestPut p (newManifest p _outDir files)))].
Proof.
  unfold loopEvents. rewrite !not_elem_of_app. repeat split.
  - intros Hin. apply list_elem_of_In, in_flat_map in Hin as (f & _ & Hin).
    unfold fileEvents, uploadEvents in Hin.
    destruct (changed _ _ _ _); [|done].
    apply in_app_or in Hin as [Hin|Hin].
    + destruct (gzips p f); [|done]. unfold compressedLine in Hin.
      destruct Hin as [?|Hin]; [done|].
      destruct (zlib_gzip _ _); [done|].
      destruct Hin as [E|[]]. discriminate E.
    + destruct (assetPut p _outDir f); [|done].
      destruct Hin as [?|[E|[]]]; [done|].
      discriminate E.
  - intros Hin. apply list_elem_of_In, in_flat_map in Hin as (e & _ & Hin).
    unfold staleEvents in Hin. destruct (retired _ _ _ _); [|done].
    destruct Hin as [?|[E|[]]]; [done|].
    discriminate E.
  - by intros ?%list_elem_of_singleton.
Qed.

End Failing.



(** [Deployed] is logged by the passes that run to their end and by no
    other, and is then the last thing the pass does. *)
Theorem deployed_logged_iff_pass_ended `{Host} (p : Plugin) (_outDir : string)
    (tree : list (string * list byte)) (w : World) :
  ∃ evs,
    trace (writeBundle p _outDir tree w).2 = trace w ++ evs
    ∧ (EvLog "Deployed" ∈ evs ↔ (writeBundle p _outDir tree w).1 = inr tt)
    ∧ ((writeBundle p _outDir tree w).1 = inr tt → last evs = Some (EvLog "Deployed")).
Proof.
  destruct (writeBundle p _outDir tree w) as [[e|[]] w'] eqn:Hrun; simpl.
  - unfold writeBundle, bind in Hrun.
    pose proof (getJson_polluted p manifestKey w) as Hpol.
    destruct (Client.getJson (s3 (options p)) manifestKey w) as [[e0|r] w1] eqn:Hload.
    + injection Hrun as <- <-. apply (getJson_trace p) in Hload.
      eexists. split; [exact Hload|]. split; [|done]. split; [|done].
      intros [?|?%elem_of_nil]%elem_of_cons; done.
    + apply (getJson_trace p) in Hload.
      apply syncFrom_inl in Hrun as (evs & Htr & Hpre & _).
      exists ([EvS3 (manifestGet p)] ++ evs).
      split; [by rewrite Htr, Hload, <- app_assoc|]. split; [|done]. split; [|done].
      intros [?|Hin]%elem_of_cons; [done|].
      destruct Hpre as [rest Hpre].
      exfalso.
      apply (not_Deployed_loops p _outDir (polluted w1) (orEmpty r)
               (getFiles _outDir tree)).
      rewrite Hpre. apply elem_of_app. by left.
  - destruct (writeBundle_ok p _outDir tree w w' Hrun)
      as (r & w1 & _ & Hget & Htr & _).
    exists ([EvS3 (manifestGet p)] ++ passEvents p _outDir (polluted w) (orEmpty r)
                                        (getFiles _outDir tree)).
    split; [by rewrite Htr, Hget, <- app_assoc|].
    assert (Hlast : last ([EvS3 (manifestGet p)]
                          ++ passEvents p _outDir (polluted w) (orEmpty r)
                               (getFiles _outDir tree))
                    = Some (EvLog "Deployed")).
    { unfold passEvents. rewrite !app_assoc.
      change [EvS3 (PutObject (manifestPut p (newManifest p _outDir
                                                (getFiles _outDir tree))));
              EvLog "Deployed"]
        with ([EvS3 (PutObject (manifestPut p (newManifest p _outDir
                                                 (getFiles _outDir tree))))]
              ++ [EvLog "Deployed"]).
      rewrite app_assoc. apply last_snoc. }
    split; [|done]. split; [done|]. intros _.
    apply last_Some in Hlast as [l' ->]. apply elem_of_app. right.
    apply list_elem_of_here.
Qed.

(** ** The bucket after a pass without transport faults *)

Lemma NoDup_fmap_elem_eq {A B} (f : A → B) (l : list A) (x y : A) :
  NoDup (f <$> l) → x ∈ l → y ∈ l → f x = f y → x = y.
Proof.
  induction l as [|a l IH]; simpl; [by intros _ ?%elem_of_nil|].
  intros [Ha Hnd]%NoDup_cons [->|Hx]%elem_of_cons [->|Hy]%elem_of_cons E; try done.
  - exfalso. apply Ha. rewrite E. by apply list_elem_of_fmap_2.
  - exfalso. apply Ha. rewrite <- E. by apply list_elem_of_fmap_2.
  - by apply IH.
Qed.

(** With no transport fault, a pass that runs to its end leaves the bucket
    the service makes of its requests. *)
Lemma writeBundle_replay `{Host} (p : Plugin) (_outDir : string)
    (tree : list (string * list byte)) (r : option Json) (w w1 w' : World) :
  faultFree w →
  Client.getJson (s3 (options p)) manifestKey w = (inr r, w1) →
  writeBundle p _outDir tree w = (inr tt, w') →
  faultFree w'
  ∧ may_list w' = may_list w
  ∧ objects w'
    = replay (may_list w)
        (passEvents p _outDir (polluted w) (orEmpty r) (getFiles _outDir tree))
        (objects w).
Proof.
  intros Hff Hload Hrun.
  destruct (lawful_getJson (s3 (options p)) manifestKey w) as (evs & _ & Hml & _ & Hrep).
  pose proof (getJson_objects p manifestKey w) as Hobj.
  pose proof (getJson_polluted p manifestKey w) as Hpol.
  rewrite Hload in Hml, Hrep, Hobj, Hpol. simpl in *.
  destruct (Hrep Hff) as [Hff1 _].
  unfold writeBundle in Hrun. rewrite (bind_run _ _ _ _ _ Hload) in Hrun.
  destruct (lawful_replay _ _ _ w1 w' tt
              (lawful_syncFrom p _outDir (orEmpty r) (getFiles _outDir tree))
              (runs_syncFrom p _outDir (orEmpty r) (getFiles _outDir tree) w1)
              Hff1 Hrun) as (Hff' & Hml' & Hobj').
  split; [done|]. split; [congruence|]. by rewrite Hobj', Hml, Hobj, Hpol.
Qed.

(** A pass over files with distinct names, none of which starts with a
    slash, against a manifest whose entries are objects under such names. *)
Section Settled.
Context `{Host}.
Variable p : Plugin.
Variable _outDir : string.
Variable pol : list Kind.
Variable doc : Json.
Variable files : list LocalFile.
Hypothesis distinct : NoDup (logicalName p _outDir <$> files).
Hypothesis plainFiles : Forall plainName (logicalName p _outDir <$> files).
Hypothesis plainEntries : Forall plainName (ownKeys doc).
Hypothesis objects_only : objectEntries doc.

Lemma fileKey_inj (f1 f2 : LocalFile) :
  f1 ∈ files → f2 ∈ files → fileKey p _outDir f1 = fileKey p _outDir f2 → f1 = f2.
Proof using distinct plainFiles.
  intros H1 H2 E.
  apply (NoDup_fmap_elem_eq (logicalName p _outDir) files); try done.
  apply (normalizeKey_plain_inj (s3 (options p))); [| |done].
  - apply (proj1 (Forall_forall _ _) plainFiles).
    by apply list_elem_of_fmap_2.
  - apply (proj1 (Forall_forall _ _) plainFiles).
    by apply list_elem_of_fmap_2.
Qed.

Lemma staleKey_not_fileKey (k : string) (file : LocalFile) :
  k ∈ ownKeys doc → k ∉ logicalName p _outDir <$> files →
  file ∈ files →
  fileKey p _outDir file ≠ Client.normalizeKey (s3 (options p)) k.
Proof using plainFiles plainEntries.
  intros Hk Hout Hin E. apply Hout.
  apply normalizeKey_plain_inj in E as <-.
  - by apply list_elem_of_fmap_2.
  - apply (proj1 (Forall_forall _ _) plainFiles).
    by apply list_elem_of_fmap_2.
  - by apply (proj1 (Forall_forall _ _) plainEntries).
Qed.

Lemma staleKey_inj (k1 k2 : string) :
  k1 ∈ ownKeys doc → k2 ∈ ownKeys doc →
  Client.normalizeKey (s3 (options p)) k1 = Client.normalizeKey (s3 (options p)) k2 →
  k1 = k2.
Proof using plainEntries.
  intros H1 H2. apply normalizeKey_plain_inj.
  - by apply (proj1 (Forall_forall _ _) plainEntries).
  - by apply (proj1 (Forall_forall _ _) plainEntries).
Qed.

(** What the bucket holds under the key of a local file once the requests
    of a pass have been answered. *)
Lemma replay_passEvents_file (l : bool) (objs : gmap string S3Object)
    (file : LocalFile) :
  Forall (notTheManifest p _outDir) files →
  file ∈ files →
  replay l (passEvents p _outDir pol doc files) objs !! fileKey p _outDir file
  = if changed p _outDir doc file
    then match assetPut p _outDir file with
         | Some i => Some {| stored := i; tags := [] |}
         | None => objs !! fileKey p _outDir file
         end
    else objs !! fileKey p _outDir file.
Proof using distinct plainFiles plainEntries objects_only.
  intros Hnot Hin.
  assert (Hm : fileKey p _outDir file ≠ Client.normalizeKey (s3 (options p)) manifestKey).
  { by apply (proj1 (Forall_forall _ _) Hnot). }
  assert (Hothers : ∀ l2,
            (∀ f, f ∈ l2 → f ∈ files ∧ f ≠ file) →
            fileKey p _outDir file
            ∉ touchedKeys (flat_map (fileEvents p _outDir doc) l2
                           ++ flat_map (retireEvents p)
                                (staleNames p _outDir pol doc files)
                           ++ [EvS3 (PutObject (manifestPut p
                                                  (newManifest p _outDir files)));
                               EvLog "Deployed"])).
  { intros l2 Hl2. rewrite !touchedKeys_app, !not_elem_of_app. repeat split.
    - intros (f & Hf & _ & E)%touchedKeys_fileEvents_elem.
      destruct (Hl2 f Hf) as [Hff Hne]. apply Hne. symmetry. by apply fileKey_inj.
    - rewrite touchedKeys_retire. intros (k & E & Hk)%list_elem_of_fmap.
      apply (staleNames_objects p _outDir pol doc files k objects_only) in Hk
        as [Hk Hout].
      by apply (staleKey_not_fileKey k file).
    - intros E%list_elem_of_singleton. exact (Hm E). }
  destruct (list_elem_of_split _ _ Hin) as (l1 & l2 & Hsplit).
  assert (Hl2 : ∀ f, f ∈ l2 → f ∈ files ∧ f ≠ file).
  { intros f Hf. split.
    - rewrite Hsplit. apply elem_of_app. right. by right.
    - intros ->. rewrite Hsplit in distinct.
      rewrite fmap_app, fmap_cons in distinct.
      apply NoDup_app in distinct as (_ & _ & [Hx _]%NoDup_cons).
      apply Hx. by apply list_elem_of_fmap_2. }
  assert (Hl1 : ∀ f, f ∈ l1 → f ∈ files ∧ f ≠ file).
  { intros f Hf. split.
    - rewrite Hsplit. apply elem_of_app. by left.
    - intros ->. rewrite Hsplit in distinct.
      rewrite fmap_app, fmap_cons in distinct.
      apply NoDup_app in distinct as (_ & Hno & _).
      apply (Hno (logicalName p _outDir file)); [by apply list_elem_of_fmap_2|by left]. }
  rewrite passEvents_retire. rewrite Hsplit at 1. rewrite flat_map_app. simpl.
  rewrite <- !app_assoc. rewrite replay_app.
  rewrite (replay_app l (fileEvents p _outDir doc file)).
  rewrite (replay_untouched l (flat_map (fileEvents p _outDir doc) l2 ++ _))
    by apply (Hothers l2 Hl2).
  assert (Hbefore : replay l (flat_map (fileEvents p _outDir doc) l1) objs
                    !! fileKey p _outDir file = objs !! fileKey p _outDir file).
  { apply replay_untouched.
    intros (f & Hf & _ & E)%touchedKeys_fileEvents_elem.
    destruct (Hl1 f Hf) as [Hff Hne]. apply Hne. symmetry. by apply fileKey_inj. }
  unfold fileEvents at 1. destruct (changed p _outDir doc file); [|done].
  unfold uploadEvents. rewrite replay_app.
  destruct (assetPut p _outDir file) as [i|] eqn:E.
  - simpl. rewrite (assetPut_key p _outDir file i E). apply lookup_insert_eq.
  - simpl. rewrite replay_untouched; [done|].
    destruct (gzips p file); [|apply not_elem_of_nil].
    simpl. destruct (zlib_gzip _ _); apply not_elem_of_nil.
Qed.

End Settled.

(** ** Retiring entries *)

Section Retire.
Context `{Host}.
Variable p : Plugin.
Variable _outDir : string.

(** Once deleted, an entry stays deleted while entries are retired. *)
Lemma replay_retire_delete (l : bool) (names : list string)
    (objs : gmap string S3Object) (K : string) :
  resolvedDeleteUseTag p = None →
  K ∈ Client.normalizeKey (s3 (options p)) <$> names →
  replay l (flat_map (retireEvents p) names) objs !! K = None.
Proof.
  intros Hmode. revert objs. induction names as [|k' rest IH]; intros objs Hin.
  - by apply elem_of_nil in Hin.
  - change (flat_map (retireEvents p) (k' :: rest))
      with (retireEvents p k' ++ flat_map (retireEvents p) rest).
    rewrite replay_app.
    destruct (decide (K ∈ Client.normalizeKey (s3 (options p)) <$> rest)) as [Hr|Hr].
    + by apply IH.
    + rewrite replay_untouched by (by rewrite touchedKeys_retire).
      rewrite fmap_cons in Hin. apply elem_of_cons in Hin as [->|Hin]; [|done].
      unfold retireEvents, staleRequest. rewrite Hmode. simpl.
      apply lookup_delete_eq.
Qed.

(** An entry whose key no other entry shares is tagged once, if its
    object exists, and keeps its content. *)
Lemma replay_retire_tag (l : bool) (names1 names2 : list string)
    (objs : gmap string S3Object) (k : string) (t : TagPair) :
  resolvedDeleteUseTag p = Some t →
  Client.normalizeKey (s3 (options p)) k
    ∉ Client.normalizeKey (s3 (options p)) <$> names1 →
  Client.normalizeKey (s3 (options p)) k
    ∉ Client.normalizeKey (s3 (options p)) <$> names2 →
  replay l (flat_map (retireEvents p) (names1 ++ k :: names2)) objs
  !! Client.normalizeKey (s3 (options p)) k
  = tagged [t] <$> objs !! Client.normalizeKey (s3 (options p)) k.
Proof.
  intros Hmode H1 H2. rewrite flat_map_app.
  change (flat_map (retireEvents p) (k :: names2))
    with (EvS3 (staleRequest p k)
          :: ([EvLog ("Deleted: " +:+ k)] ++ flat_map (retireEvents p) names2)).
  unfold staleRequest. rewrite Hmode.
  rewrite replay_tag.
  - by destruct t.
  - by rewrite touchedKeys_retire.
  - by rewrite touchedKeys_app, touchedKeys_retire.
Qed.

End Retire.

(** Let the transport be free of faults, the entries of the loaded
    manifest be objects, the local files have distinct names, no name
    (local or in the loaded manifest) start with a slash, and no local file
    be named like the manifest.  After a pass that runs to its end the
    bucket holds, under the key of every local file that changed, the
    object of its upload (the file's bytes, compressed when gzip applies,
    with the metadata of [getFileMeta] and no tag), and under the key of
    every other local file what it held before. *)
Theorem pass_stores_changed_files `{Host} (p : Plugin) (_outDir : string)
    (tree : list (string * list byte)) (r : option Json) (w w1 w' : World) :
  let o := s3 (options p) in
  let files := getFiles _outDir tree in
  faultFree w →
  Client.getJson o manifestKey w = (inr r, w1) →
  writeBundle p _outDir tree w = (inr tt, w') →
  objectEntries (orEmpty r) →
  NoDup (logicalName p _outDir <$> files) →
  Forall plainName (logicalName p _outDir <$> files) →
  Forall plainName (ownKeys (orEmpty r)) →
  Forall (notTheManifest p _outDir) files →
  ∀ file, file ∈ files →
    if changed p _outDir (orEmpty r) file
    then ∃ i, assetPut p _outDir file = Some i
              ∧ objects w' !! fileKey p _outDir file
                = Some {| stored := i; tags := [] |}
    else objects w' !! fileKey p _outDir file = objects w !! fileKey p _outDir file.
Proof.
  intros o files Hff Hload Hrun Hobj Hnd Hpf Hpe Hnot file Hin. subst o files.
  destruct (writeBundle_replay p _outDir tree r w w1 w' Hff Hload Hrun)
    as (_ & _ & Hobjs).
  destruct (writeBundle_ok p _outDir tree w w' Hrun)
    as (r' & w1' & Hload' & _ & _ & Hsent).
  rewrite Hload in Hload'. injection Hload' as <- <-.
  pose proof (replay_passEvents_file p _outDir (polluted w) (orEmpty r)
                (getFiles _outDir tree) Hnd Hpf Hpe Hobj (may_list w) (objects w)
                file Hnot Hin) as Hfile.
  rewrite <- Hobjs in Hfile.
  destruct (changed p _outDir (orEmpty r) file) eqn:Hch; [|done].
  destruct (proj1 (Forall_forall _ _) Hsent file Hin Hch) as [i Hi].
  exists i. split; [done|]. by rewrite Hi in Hfile.
Qed.

Lemma pass_stores_changed_files_witness :
  ∃ i, @assetPut Sample.host Sample.cleanGzipPlugin Sample.outDir
         {| path := "/proj/dist/assets/new.js"; readFile := Sample.bytes "let y = 2" |}
       = Some i
       ∧ objects (Sample.after
                    (@writeBundle Sample.host Sample.cleanGzipPlugin Sample.outDir
                       Sample.siteV2) Sample.deployed) !! "app/assets/new.js"
         = Some {| stored := i; tags := [] |}.
Proof.
  apply (@pass_stores_changed_files Sample.host Sample.cleanGzipPlugin Sample.outDir
           Sample.siteV2 (Some (documentOf Sample.deployedManifest)) Sample.deployed
           (@Client.getJson Sample.host (s3 (options Sample.cleanGzipPlugin))
              manifestKey Sample.deployed).2
           (Sample.after
              (@writeBundle Sample.host Sample.cleanGzipPlugin Sample.outDir
                 Sample.siteV2) Sample.deployed)
           ltac:(constructor)
           ltac:(vm_compute; reflexivity)
           ltac:(vm_compute; reflexivity)
           ltac:(apply unmarked_objectEntries,
                   (isManifest_unmarked _ Sample.deployedManifest),
                   isManifest_documentOf)
           ltac:(apply (bool_decide_unpack _); vm_compute; reflexivity)
           ltac:(repeat constructor)
           ltac:(vm_compute; repeat constructor)
           ltac:(repeat constructor; intros E; vm_compute in E; discriminate E)
           {| path := "/proj/dist/assets/new.js"; readFile := Sample.bytes "let y = 2" |}
           ltac:(right; left)).
Defined.

(** With no transport fault, no delete-tag configured, untouched
    prototypes and no local file named [__proto__], a pass that has loaded
    a manifest whose entries are objects without a marker of their own and
    runs to its end leaves nothing in the bucket under the key of any entry
    that no local file goes by (the manifest's own key apart, which the
    pass writes last). *)
Theorem pass_deletes_stale_objects `{Host} (p : Plugin) (_outDir : string)
    (tree : list (string * list byte)) (r : option Json) (w w1 w' : World) :
  let o := s3 (options p) in
  let files := getFiles _outDir tree in
  faultFree w → unpolluted w →
  Client.getJson o manifestKey w = (inr r, w1) →
  writeBundle p _outDir tree w = (inr tt, w') →
  unmarkedEntries (orEmpty r) →
  "__proto__" ∉ logicalName p _outDir <$> files →
  resolvedDeleteUseTag p = None →
  ∀ k, k ∈ ownKeys (orEmpty r) →
       k ∉ logicalName p _outDir <$> files →
       Client.normalizeKey o k ≠ Client.normalizeKey o manifestKey →
       objects w' !! Client.normalizeKey o k = None.
Proof.
  intros o files Hff Hpol Hload Hrun Hfmt Hproto Hmode k Hk Hout Hm. subst o files.
  destruct (writeBundle_replay p _outDir tree r w w1 w' Hff Hload Hrun)
    as (_ & _ & ->).
  rewrite (passEvents_retire p _outDir), app_assoc, replay_app.
  rewrite replay_untouched.
  - rewrite replay_app. apply (replay_retire_delete p); [done|].
    apply list_elem_of_fmap_2. rewrite Hpol.
    rewrite (staleNames_unmarked p _outDir _ _ Hfmt Hproto).
    by apply list_elem_of_filter.
  - intros E%list_elem_of_singleton. exact (Hm E).
Qed.

Lemma pass_deletes_stale_objects_witness :
  objects (Sample.after
             (@writeBundle Sample.host Sample.cleanGzipPlugin Sample.outDir Sample.siteV2)
             Sample.deployed) !! "app/assets/app.js" = None.
Proof.
  apply (@pass_deletes_stale_objects Sample.host Sample.cleanGzipPlugin Sample.outDir
           Sample.siteV2 (Some (documentOf Sample.deployedManifest)) Sample.deployed
           (@Client.getJson Sample.host (s3 (options Sample.cleanGzipPlugin))
              manifestKey Sample.deployed).2
           (Sample.after
              (@writeBundle Sample.host Sample.cleanGzipPlugin Sample.outDir
                 Sample.siteV2) Sample.deployed)
           ltac:(constructor) eq_refl
           ltac:(vm_compute; reflexivity)
           ltac:(vm_compute; reflexivity)
           ltac:(apply (isManifest_unmarked _ Sample.deployedManifest),
                   isManifest_documentOf)
           ltac:(apply (bool_decide_unpack _); vm_compute; reflexivity)
           eq_refl "assets/app.js"
           ltac:(apply (bool_decide_unpack _); vm_compute; reflexivity)
           ltac:(apply (bool_decide_unpack _); vm_compute; reflexivity)
           ltac:(intros E; vm_compute in E; discriminate E)).
Defined.

(** With a delete-tag configured instead, and no name (local or in the
    loaded manifest) starting with a slash, the object of every such entry
    is still there after the pass, with its content as it was and the
    configured tag as its only tag; an entry whose object was missing is
    passed over. *)
Theorem pass_tags_stale_objects `{Host} (p : Plugin) (_outDir : string)
    (tree : list (string * list byte)) (r : option Json)
    (t : TagPair) (w w1 w' : World) :
  let o := s3 (options p) in
  let files := getFiles _outDir tree in
  faultFree w → unpolluted w →
  Client.getJson o manifestKey w = (inr r, w1) →
  writeBundle p _outDir tree w = (inr tt, w') →
  unmarkedEntries (orEmpty r) →
  "__proto__" ∉ logicalName p _outDir <$> files →
  resolvedDeleteUseTag p = Some t →
  Forall plainName (logicalName p _outDir <$> files) →
  Forall plainName (ownKeys (orEmpty r)) →
  ∀ k, k ∈ ownKeys (orEmpty r) →
       k ∉ logicalName p _outDir <$> files →
       Client.normalizeKey o k ≠ Client.normalizeKey o manifestKey →
       objects w' !! Client.normalizeKey o k
       = tagged [t] <$> objects w !! Client.normalizeKey o k.
Proof.
  intros o files Hff Hpol Hload Hrun Hfmt Hproto Hmode Hpf Hpe k Hk Hout Hm.
  subst o files.
  destruct (writeBundle_replay p _outDir tree r w w1 w' Hff Hload Hrun)
    as (_ & _ & ->).
  rewrite (passEvents_retire p _outDir), app_assoc, replay_app.
  rewrite replay_untouched
    by (intros E%list_elem_of_singleton; exact (Hm E)).
  rewrite replay_app, Hpol.
  rewrite (staleNames_unmarked p _outDir _ _ Hfmt Hproto).
  set (stale := filter (fun k => k ∉ logicalName p _outDir <$> getFiles _outDir tree)
                  (ownKeys (orEmpty r))).
  assert (Hstale : k ∈ stale) by (by apply list_elem_of_filter).
  assert (Hnd : NoDup stale) by apply NoDup_filter, NoDup_ownKeys.
  assert (Hdom : ∀ k', k' ∈ stale → k' ∈ ownKeys (orEmpty r)).
  { by intros k' [_ ?]%list_elem_of_filter. }
  destruct (list_elem_of_split _ _ Hstale) as (s1 & s2 & Hsplit).
  rewrite Hsplit in Hnd, Hdom |- *.
  apply NoDup_app in Hnd as (_ & Hs1 & [Hs2 _]%NoDup_cons).
  rewrite (replay_retire_tag p _ _ _ _ _ t Hmode).
  - f_equal. apply replay_untouched.
    intros (f & Hf & _ & E)%touchedKeys_fileEvents_elem.
    by apply (staleKey_not_fileKey p _outDir (orEmpty r) (getFiles _outDir tree)
                Hpf Hpe k f).
  - intros (k' & E & Hk')%list_elem_of_fmap.
    apply (staleKey_inj p (orEmpty r) Hpe) in E; [| done |].
    + subst k'. apply (Hs1 k); [done|]. apply list_elem_of_here.
    + apply Hdom. apply elem_of_app. by left.
  - intros (k' & E & Hk')%list_elem_of_fmap.
    apply (staleKey_inj p (orEmpty r) Hpe) in E; [| done |].
    + by subst k'.
    + apply Hdom. apply elem_of_app. right. by apply list_elem_of_further.
Qed.

Lemma pass_tags_stale_objects_witness :
  objects (Sample.after
             (@writeBundle Sample.host Sample.tagPlugin Sample.outDir Sample.siteV2)
             Sample.deployedWithTag) !! "app/assets/app.js"
  = tagged [{| key := "stale"; value := "stale" |}]
    <$> objects Sample.deployedWithTag !! "app/assets/app.js".
Proof.
  apply (@pass_tags_stale_objects Sample.host Sample.tagPlugin Sample.outDir
           Sample.siteV2 (Some (documentOf Sample.deployedWithTagManifest))
           {| key := "stale"; value := "stale" |} Sample.deployedWithTag
           (@Client.getJson Sample.host (s3 (options Sample.tagPlugin))
              manifestKey Sample.deployedWithTag).2
           (Sample.after
              (@writeBundle Sample.host Sample.tagPlugin Sample.outDir
                 Sample.siteV2) Sample.deployedWithTag)
           ltac:(constructor) eq_refl
           ltac:(vm_compute; reflexivity)
           ltac:(vm_compute; reflexivity)
           ltac:(apply (isManifest_unmarked _ Sample.deployedWithTagManifest),
                   isManifest_documentOf)
           ltac:(apply (bool_decide_unpack _); vm_compute; reflexivity)
           eq_refl
           ltac:(repeat constructor)
           ltac:(vm_compute; repeat constructor)
           "assets/app.js"
           ltac:(apply (bool_decide_unpack _); vm_compute; reflexivity)
           ltac:(apply (bool_decide_unpack _); vm_compute; reflexivity)
           ltac:(intros E; vm_compute in E; discriminate E)).
Defined.

(** ** From one pass to the next *)

Section Stored.
Context `{Host}.
Variable p : Plugin.
Variable _outDir : string.

(** A pass that runs to its end leaves its manifest in the bucket. *)
Lemma syncFrom_stores_manifest (doc : Json) (files : list LocalFile) (w w' : World) :
  syncFrom p _outDir doc files w = (inr tt, w') →
  objects w' !! Client.normalizeKey (s3 (options p)) manifestKey
  = Some {| stored := manifestPut p (newManifest p _outDir files); tags := [] |}.
Proof.
  unfold syncFrom. intros Hrun.
  inv_bind Hrun as st w1 Hfiles. rewrite bind_pollution in Hrun.
  inv_bind Hrun as u1 w2 Hstale. inv_bind Hrun as u2 w3 Hput.
  destruct (runs_inr _ _ _ _ _ _
              (runs_forFiles p _outDir files ({| parsed := doc; marked := [] |}, ∅) w)
              Hfiles) as (_ & -> & _).
  destruct u2. apply put_inr in Hput. injection Hrun as <-. simpl. rewrite Hput.
  apply lookup_insert_eq.
Qed.

End Stored.

(** The manifest a pass writes is the manifest the next pass reads: once a
    pass has run to its end, whatever the transport did on the way, the
    bucket holds under the manifest's key the text [JSON.stringify] made of
    the new manifest; a load that no transport fault hits then yields what
    [JSON.parse] makes of that text, or throws what it throws. *)
Theorem next_pass_loads_manifest `{Host} (p : Plugin) (_outDir : string)
    (tree : list (string * list byte)) (w w' : World) :
  let o := s3 (options p) in
  let m := newManifest p _outDir (getFiles _outDir tree) in
  writeBundle p _outDir tree w = (inr tt, w') →
  objects w' !! Client.normalizeKey o manifestKey
  = Some {| stored := manifestPut p m; tags := [] |}
  ∧ (faultFree w' →
     (Client.getJson o manifestKey w').1 = map_inr Some (JSON_parse (JSON_stringify m))).
Proof.
  intros o m Hrun. subst o m. unfold writeBundle in Hrun.
  inv_bind Hrun as r w1 Hload.
  pose proof (syncFrom_stores_manifest p _outDir _ _ _ _ Hrun) as Hobj.
  split; [done|]. intros Hff.
  destruct (getJson_stored p manifestKey _ _ _ w' Hff Hobj eq_refl)
    as (w2 & -> & _). simpl.
  by destruct (JSON_parse _).
Qed.

Lemma next_pass_loads_manifest_witness :
  objects Sample.deployed !! "app/fingerprints.json"
  = Some {| stored := @manifestPut Sample.host Sample.cleanGzipPlugin
                        Sample.deployedManifest;
            tags := [] |}
  ∧ (faultFree Sample.deployed →
     (@Client.getJson Sample.host (s3 (options Sample.cleanGzipPlugin)) manifestKey
        Sample.deployed).1
     = map_inr Some (Sample.parse (Sample.stringify Sample.deployedManifest))).
Proof.
  apply (@next_pass_loads_manifest Sample.host Sample.cleanGzipPlugin Sample.outDir
           Sample.site Sample.emptyWorld Sample.deployed).
  vm_compute; reflexivity.
Defined.

(** Two passes in a row over the same files, with distinct names none of
    which is [__proto__], on a transport without faults and a host whose
    [JSON.parse] reads back the manifest [JSON.stringify] wrote: the second
    pass runs to its end, sends the load and the manifest write and nothing
    else, and leaves the bucket exactly as the first pass left it. *)
Theorem second_pass_changes_nothing `{Host} (p : Plugin) (_outDir : string)
    (tree : list (string * list byte)) (doc : Json) (w w1 : World) :
  let o := s3 (options p) in
  let m := newManifest p _outDir (getFiles _outDir tree) in
  faultFree w →
  NoDup (logicalName p _outDir <$> getFiles _outDir tree) →
  "__proto__" ∉ logicalName p _outDir <$> getFiles _outDir tree →
  JSON_parse (JSON_stringify m) = inr doc →
  isManifest doc m →
  writeBundle p _outDir tree w = (inr tt, w1) →
  ∃ w2, writeBundle p _outDir tree w1 = (inr tt, w2)
        ∧ trace w2 = trace w1 ++ [EvS3 (manifestGet p);
                                   EvS3 (PutObject (manifestPut p m));
                                   EvLog "Deployed"]
        ∧ objects w2 = objects w1.
Proof.
  intros o m Hff Hnd Hproto Hjson Hdoc Hfirst. subst o m.
  set (files := getFiles _outDir tree) in *.
  assert (Hff1 : faultFree w1).
  { destruct (lawful_writeBundle p _outDir tree w) as (evs & _ & _ & _ & Hrep).
    rewrite Hfirst in Hrep. by destruct (Hrep Hff). }
  assert (Hobj : objects w1 !! Client.normalizeKey (s3 (options p)) manifestKey
                 = Some {| stored := manifestPut p (newManifest p _outDir files);
                           tags := [] |}).
  { unfold writeBundle in Hfirst. inv_bind Hfirst as r w0 Hload.
    by apply (syncFrom_stores_manifest p _outDir) in Hfirst. }
  destruct (getJson_stored p manifestKey _ _ _ w1 Hff1 Hobj eq_refl)
    as (w1' & Hload & Hff1' & Hsame).
  rewrite Hjson in Hload.
  assert (Hor : orEmpty (Some doc) = doc)
    by (destruct Hdoc as (props & -> & _); done).
  assert (Hunch : ∀ f, f ∈ files → changed p _outDir doc f = false).
  { intros f Hf. by apply (unchanged_after_rebuild p _outDir doc files). }
  destruct (syncFrom_faultFree p _outDir doc files w1' Hff1') as (w2 & Hrun & _).
  { by apply unmarked_objectEntries, (isManifest_unmarked _ _ Hdoc). }
  { intros Hin. destruct Hdoc as (props & -> & Hprops). simpl.
    apply elem_of_remove_dups, own_elem. rewrite Hprops.
    destruct (newManifest p _outDir files !! "__processed") eqn:E; [by eexists|].
    exfalso. assert (is_Some (newManifest p _outDir files !! "__processed")) as [? ?];
      [|congruence].
    apply newManifest_dom. by split. }
  { apply Forall_forall. intros f Hf Hch. by rewrite (Hunch f Hf) in Hch. }
  assert (Hrun' : writeBundle p _outDir tree w1 = (inr tt, w2)).
  { unfold writeBundle. rewrite (bind_run _ _ _ _ _ Hload). by rewrite Hor. }
  exists w2. split; [done|].
  destruct (writeBundle_ok p _outDir tree w1 w2 Hrun')
    as (r' & w' & Hload' & Hget & Htr & _).
  rewrite Hload in Hload'. injection Hload' as <- <-.
  destruct (writeBundle_replay p _outDir tree _ w1 w1' w2 Hff1 Hload Hrun')
    as (_ & _ & Hobj2).
  rewrite Hor in Htr, Hobj2. fold files in Htr, Hobj2.
  rewrite (passEvents_rebuilt p _outDir _ doc files Hdoc Hnd Hproto) in Htr, Hobj2.
  split; [by rewrite Htr, Hget, <- app_assoc|].
  rewrite Hobj2. simpl. by apply insert_id.
Qed.

Lemma second_pass_changes_nothing_witness :
  ∃ w2, @writeBundle Sample.host Sample.cleanGzipPlugin Sample.outDir Sample.site
          Sample.deployed = (inr tt, w2)
        ∧ trace w2
          = trace Sample.deployed
            ++ [EvS3 (manifestGet Sample.cleanGzipPlugin);
                EvS3 (PutObject (@manifestPut Sample.host Sample.cleanGzipPlugin
                                   Sample.deployedManifest));
                EvLog "Deployed"]
        ∧ objects w2 = objects Sample.deployed.
Proof.
  apply (@second_pass_changes_nothing Sample.host Sample.cleanGzipPlugin Sample.outDir
           Sample.site (documentOf Sample.deployedManifest) Sample.emptyWorld
           Sample.deployed).
  - constructor.
  - apply (bool_decide_unpack _). vm_compute; reflexivity.
  - apply (bool_decide_unpack _). vm_compute; reflexivity.
  - vm_compute; reflexivity.
  - apply isManifest_documentOf.
  - vm_compute; reflexivity.
Defined.

(** ** A marker left on the prototype *)

Section Polluted.
Context `{Host}.
Variable p : Plugin.
Variable _outDir : string.

Lemma polluteAll_keeps (doc : Json) (files : list LocalFile) (pol : list Kind)
    (k : Kind) :
  k ∈ pol → k ∈ polluteAll p _outDir doc files pol.
Proof.
  revert pol. induction files as [|f l IH]; intros pol Hk; [done|].
  unfold polluteAll in *. simpl. apply IH. unfold polluteOne.
  destruct (lookup [] doc (logicalName p _outDir f)); try done. by right.
Qed.

Lemma polluteAll_proto (props : list (string * Json)) (files : list LocalFile)
    (pol : list Kind) :
  "__proto__" ∈ logicalName p _outDir <$> files →
  own "__proto__" props = None →
  KObject ∈ polluteAll p _outDir (JObject props) files pol.
Proof.
  revert pol. induction files as [|f l IH]; intros pol Hin Hown.
  { by apply elem_of_nil in Hin. }
  rewrite fmap_cons in Hin. unfold polluteAll in *. simpl.
  destruct (decide (logicalName p _outDir f = "__proto__")) as [E|Hne].
  - apply polluteAll_keeps. unfold polluteOne, lookup. rewrite E. simpl.
    rewrite Hown. simpl. by left.
  - apply IH; [|done]. by apply elem_of_cons in Hin as [?|?].
Qed.

(** Once [Object.prototype] carries the marker, an entry without a marker
    of its own reads as processed. *)
Lemma staleNames_polluted (pol : list Kind) (doc : Json) (files : list LocalFile) :
  unmarkedEntries doc →
  KObject ∈ polluteAll p _outDir doc files pol →
  staleNames p _outDir pol doc files = [].
Proof.
  intros Hfmt Hpol.
  destruct (staleNames p _outDir pol doc files) as [|k l] eqn:E; [done|].
  exfalso.
  assert (k ∈ staleNames p _outDir pol doc files) as Hk by (rewrite E; by left).
  pose proof (staleNames_objects p _outDir pol doc files k
                (unmarked_objectEntries _ Hfmt) Hk) as [Hown _].
  unfold staleNames in Hk.
  apply list_elem_of_In, filter_In in Hk as [_ Hret].
  destruct Hfmt as (props & -> & Hentries). simpl in Hown.
  apply elem_of_remove_dups, own_elem in Hown as [v Hv].
  destruct (Hentries _ _ Hv) as (q & -> & Hq).
  unfold retired, lookup in Hret. simpl in Hret. rewrite Hv in Hret. simpl in Hret.
  rewrite Hq in Hret. unfold inherits in Hret.
  rewrite (bool_decide_eq_true_2 (KObject ∈ _)) in Hret by done.
  by rewrite !orb_true_r in Hret.
Qed.

End Polluted.

(** A local file named [__proto__] switches retirement off.  Let the
    entries of the loaded manifest be objects without a marker of their
    own.  If [Object.prototype] carries the marker when the pass starts, or
    a local file is named [__proto__] and the manifest has no entry of that
    name, then a pass that runs to its end deletes and tags nothing,
    whatever has gone from the output directory, and leaves the marker on
    [Object.prototype] for the passes that follow in the same process. *)
Theorem proto_file_disables_retirement `{Host} (p : Plugin) (_outDir : string)
    (tree : list (string * list byte)) (r : option Json) (w w1 w' : World) :
  Client.getJson (s3 (options p)) manifestKey w = (inr r, w1) →
  writeBundle p _outDir tree w = (inr tt, w') →
  unmarkedEntries (orEmpty r) →
  KObject ∈ polluted w
  ∨ ("__proto__" ∈ logicalName p _outDir <$> getFiles _outDir tree
     ∧ "__proto__" ∉ ownKeys (orEmpty r)) →
  (∃ evs, trace w' = trace w1 ++ evs ∧ mutations evs = [])
  ∧ KObject ∈ polluted w'.
Proof.
  intros Hload Hrun Hfmt Hcause.
  set (files := getFiles _outDir tree) in *.
  assert (Hpol : KObject ∈ polluteAll p _outDir (orEmpty r) files (polluted w)).
  { destruct Hcause as [Hw|[Hin Hown]]; [by apply polluteAll_keeps|].
    destruct Hfmt as (props & Hdoc & _). rewrite Hdoc in *.
    apply polluteAll_proto; [done|]. simpl in Hown.
    destruct (own "__proto__" props) eqn:E; [|done].
    exfalso. apply Hown, elem_of_remove_dups, own_elem. by eexists. }
  split.
  - destruct (writeBundle_ok p _outDir tree w w' Hrun)
      as (r' & w1' & Hload' & _ & Htr & _).
    rewrite Hload in Hload'. injection Hload' as <- <-.
    eexists. split; [exact Htr|].
    by rewrite (mutations_passEvents p _outDir), staleNames_polluted.
  - pose proof (getJson_polluted p manifestKey w) as Hp1.
    rewrite Hload in Hp1. simpl in Hp1.
    unfold writeBundle in Hrun. rewrite (bind_run _ _ _ _ _ Hload) in Hrun.
    destruct (runs_inr _ _ _ _ _ _
                (runs_syncFrom p _outDir (orEmpty r) files w1) Hrun)
      as (_ & _ & ->).
    by rewrite Hp1.
Qed.

Lemma proto_file_disables_retirement_witness :
  (∃ evs,
     trace (Sample.after
              (@writeBundle Sample.host Sample.plainPlugin Sample.outDir
                 Sample.siteWithProto) Sample.deployed)
     = trace (@Client.getJson Sample.host (s3 (options Sample.plainPlugin))
                manifestKey Sample.deployed).2 ++ evs
     ∧ mutations evs = [])
  ∧ KObject ∈ polluted (Sample.after
                          (@writeBundle Sample.host Sample.plainPlugin Sample.outDir
                             Sample.siteWithProto) Sample.deployed).
Proof.
  apply (@proto_file_disables_retirement Sample.host Sample.plainPlugin Sample.outDir
           Sample.siteWithProto (Some (documentOf Sample.deployedManifest))
           Sample.deployed).
  - vm_compute; reflexivity.
  - vm_compute; reflexivity.
  - apply (isManifest_unmarked _ Sample.deployedManifest), isManifest_documentOf.
  - right. split; apply (bool_decide_unpack _); vm_compute; reflexivity.
Defined.

(** ** The files of the output directory *)

(** The files a pass looks at are those of the output directory, in the
    order the glob reports them: each goes by its path relative to the
    directory, without a trailing [.html] when [cleanHtmlSuffix] is on, and
    is read as the glob found it. *)
Theorem names_of_enumerated_files `{Host} (p : Plugin) (_outDir : string)
    (tree : list (string * list byte)) :
  logicalName p _outDir <$> getFiles _outDir tree
  = (fun e => if cleanHtmlSuffix_on (options p) && JS.endsWith e.1 ".html"
              then JS.slice_0_neg e.1 5 else e.1) <$> tree
  ∧ readFile <$> getFiles _outDir tree = snd <$> tree
  ∧ Path.extname ∘ path <$> getFiles _outDir tree = Path.extname ∘ fst <$> tree.
Proof.
  unfold getFiles. induction tree as [|[rel data] l (IH1 & IH2 & IH3)]; [done|].
  simpl in *. rewrite (logicalName_getFiles p _outDir rel data), extname_join.
  split; [by f_equal|]. split; by f_equal.
Qed.

Example names_of_sample_site :
  logicalName Sample.cleanGzipPlugin Sample.outDir
  <$> getFiles Sample.outDir Sample.site = ["index"; "assets/app.js"].
Proof. reflexivity. Qed.

(** An entry that is a falsy value other than [null] is never marked: the
    local file that goes by its name is uploaded, and the object is then
    deleted by the same pass. *)
Example falsy_entry_uploaded_then_deleted :
  let w := Sample.withManifest
             ("{" +:+ Sample.dq +:+ "index.html" +:+ Sample.dq +:+ ":0}") in
  Key <$> allPuts (trace (Sample.after
                            (@writeBundle Sample.host Sample.plainPlugin Sample.outDir
                               [("index.html", Sample.bytes "<html></html>")]) w))
  = ["app/index.html"; "app/fingerprints.json"]
  ∧ mutations (trace (Sample.after
                        (@writeBundle Sample.host Sample.plainPlugin Sample.outDir
                           [("index.html", Sample.bytes "<html></html>")]) w))
    = [DeleteObject "site-bucket" "app/index.html"].
Proof. vm_compute. split; reflexivity. Qed.
